(** * Verification of the pf flow processor

    A shallow embedding of the Go sources of the processor (validator,
    error-line writer, ingest loop, batch writer, uploader) together with
    the properties of its specification.

    Layout:
    - [Go]: models of the Go standard-library functions the sources call
      (strings, strconv, net, fmt, path/filepath, time formatting);
    - [Validator]: [ValidateLine] and its helpers (validator.go);
    - [IO]: programs as trees of calls into the runtime, and their runs;
    - [Errorlog], [Ingest]: errorlog.LineWriter and runIngest (main.go);
    - [Batchwriter]: the BatchWriter type (batch_writer.go);
    - [Uploader]: the Uploader type (uploader.go). *)

From Stdlib Require Import ZArith Lia Bool Ascii String List.
From stdpp Require Import base option list strings gmap.

Local Open Scope Z_scope.

(* ===================================================================== *)
(** * Go standard library *)
(* ===================================================================== *)

Module Go.

(** Go strings are byte sequences: [string] over 8-bit [ascii]. *)

Definition isDigit (c : ascii) : bool :=
  ((48 <=? nat_of_ascii c) && (nat_of_ascii c <=? 57))%nat.

Definition digitVal (c : ascii) : Z := Z.of_nat (nat_of_ascii c) - 48.

(** [len(s)] as an int. *)
Definition len (s : string) : Z := Z.of_nat (String.length s).

(** s[n:] and s[:n] for 0 <= n <= len(s). *)
Fixpoint sdrop (n : nat) (s : string) : string :=
  match n, s with
  | O, _ => s
  | S n', String _ r => sdrop n' r
  | S _, EmptyString => EmptyString
  end.

Fixpoint stake (n : nat) (s : string) : string :=
  match n, s with
  | O, _ => EmptyString
  | S n', String c r => String c (stake n' r)
  | S _, EmptyString => EmptyString
  end.

(** strings.HasSuffix: len(s) >= len(suffix) && s[len(s)-len(suffix):] == suffix *)
Definition HasSuffix (s suffix : string) : bool :=
  (String.length suffix <=? String.length s)%nat
  && String.eqb (sdrop (String.length s - String.length suffix) s) suffix.

(** strings.Split(s, sep) for a one-byte separator: all substrings between
    separators; the empty string gives one empty field. *)
Fixpoint Split (s : string) (sep : ascii) : list string :=
  match s with
  | EmptyString => [EmptyString]
  | String c r =>
      if Ascii.eqb c sep then EmptyString :: Split r sep
      else match Split r sep with
           | f :: fs => String c f :: fs
           | [] => [String c EmptyString]
           end
  end.

(** ** strings.TrimSpace

    Removes leading and trailing white space as defined by Unicode
    (unicode.IsSpace) from a UTF-8 string: the six ASCII spaces, U+0085,
    U+00A0, U+1680, U+2000..U+200A, U+2028, U+2029, U+202F, U+205F, U+3000.
    A byte sequence that is no valid encoding decodes to U+FFFD, which is
    no space. *)

Definition isAsciiSpace (c : ascii) : bool :=
  match nat_of_ascii c with
  | 9%nat | 10%nat | 11%nat | 12%nat | 13%nat | 32%nat => true
  | _ => false
  end.

(** Two-byte encodings: C2 85 (U+0085), C2 A0 (U+00A0). *)
Definition isSpace2 (c1 c2 : ascii) : bool :=
  (nat_of_ascii c1 =? 194)%nat
  && ((nat_of_ascii c2 =? 133)%nat || (nat_of_ascii c2 =? 160)%nat).

(** Three-byte encodings: E1 9A 80 (U+1680), E2 80 80..8A (U+2000..U+200A),
    E2 80 A8/A9/AF (U+2028, U+2029, U+202F), E2 81 9F (U+205F),
    E3 80 80 (U+3000). *)
Definition isSpace3 (c1 c2 c3 : ascii) : bool :=
  let b1 := nat_of_ascii c1 in
  let b2 := nat_of_ascii c2 in
  let b3 := nat_of_ascii c3 in
  ((b1 =? 225) && (b2 =? 154) && (b3 =? 128)
   || (b1 =? 226) && (b2 =? 128)
      && (((128 <=? b3) && (b3 <=? 138)) || (b3 =? 168) || (b3 =? 169) || (b3 =? 175))
   || (b1 =? 226) && (b2 =? 129) && (b3 =? 159)
   || (b1 =? 227) && (b2 =? 128) && (b3 =? 128))%nat.

Fixpoint trimLeftSpace (s : string) : string :=
  match s with
  | EmptyString => EmptyString
  | String c1 r1 =>
      if isAsciiSpace c1 then trimLeftSpace r1
      else match r1 with
           | String c2 r2 =>
               if isSpace2 c1 c2 then trimLeftSpace r2
               else match r2 with
                    | String c3 r3 =>
                        if isSpace3 c1 c2 c3 then trimLeftSpace r3 else s
                    | EmptyString => s
                    end
           | EmptyString => s
           end
  end.

(** The same scan from the end, on the reversed list of bytes: the last
    rune is a space exactly when the bytes end with one of the encodings. *)
Fixpoint trimLeftSpaceRev (l : list ascii) : list ascii :=
  match l with
  | [] => []
  | c1 :: r1 =>
      if isAsciiSpace c1 then trimLeftSpaceRev r1
      else match r1 with
           | c2 :: r2 =>
               if isSpace2 c2 c1 then trimLeftSpaceRev r2
               else match r2 with
                    | c3 :: r3 =>
                        if isSpace3 c3 c2 c1 then trimLeftSpaceRev r3 else l
                    | [] => l
                    end
           | [] => l
           end
  end.

Definition trimRightSpace (s : string) : string :=
  string_of_list_ascii (rev (trimLeftSpaceRev (rev (list_ascii_of_string s)))).

Definition TrimSpace (s : string) : string := trimRightSpace (trimLeftSpace s).

(** ** strings.ToLower, strings.Contains, strings.Trim *)

Definition lowerAscii (c : ascii) : ascii :=
  let n := nat_of_ascii c in
  if ((65 <=? n) && (n <=? 90))%nat then ascii_of_nat (n + 32) else c.

(** ToLower as far as matches of ASCII text in its result go: ASCII letters
    are lowered, and the two code points whose lower case is an ASCII
    letter, U+212A (E2 84 AA) and U+0130 (C4 B0), become "k" and "i";
    every other rune keeps bytes above 127. *)
Fixpoint ToLower (s : string) : string :=
  match s with
  | EmptyString => EmptyString
  | String c1 r1 =>
      match r1 with
      | String c2 r2 =>
          if ((nat_of_ascii c1 =? 196) && (nat_of_ascii c2 =? 176))%nat
          then String "i"%char (ToLower r2)
          else
            match r2 with
            | String c3 r3 =>
                if ((nat_of_ascii c1 =? 226) && (nat_of_ascii c2 =? 132)
                    && (nat_of_ascii c3 =? 170))%nat
                then String "k"%char (ToLower r3)
                else String (lowerAscii c1) (ToLower r1)
            | EmptyString => String (lowerAscii c1) (ToLower r1)
            end
      | EmptyString => String (lowerAscii c1) EmptyString
      end
  end.

Fixpoint hasPrefix (s p : string) : bool :=
  match p, s with
  | EmptyString, _ => true
  | String a p', String b s' => Ascii.eqb a b && hasPrefix s' p'
  | String _ _, EmptyString => false
  end.

Fixpoint Contains (s substr : string) : bool :=
  hasPrefix s substr
  || match s with
     | EmptyString => false
     | String _ r => Contains r substr
     end.

(** strings.Trim(s, cutset) for a one-byte cutset. *)
Fixpoint trimLeftByte (c : ascii) (s : string) : string :=
  match s with
  | String a r => if Ascii.eqb a c then trimLeftByte c r else s
  | EmptyString => EmptyString
  end.

Definition Trim (s : string) (c : ascii) : string :=
  let l := trimLeftByte c s in
  string_of_list_ascii
    (rev (list_ascii_of_string
            (trimLeftByte c (string_of_list_ascii (rev (list_ascii_of_string l)))))).

(** ** strconv.ParseInt(s, 10, 64)

    An optional sign followed by one or more decimal digits, the value in
    the int64 range; [None] stands for a non-nil error (syntax or range). *)

Fixpoint digitsValue (acc : Z) (s : string) : option Z :=
  match s with
  | EmptyString => Some acc
  | String c r => if isDigit c then digitsValue (acc * 10 + digitVal c) r else None
  end.

Definition parseDigits (s : string) : option Z :=
  match s with
  | EmptyString => None
  | _ => digitsValue 0 s
  end.

Definition ParseInt (s : string) : option Z :=
  match s with
  | EmptyString => None
  | String c r =>
      let neg := Ascii.eqb c "-"%char in
      let body := if Ascii.eqb c "+"%char || neg then r else s in
      match parseDigits body with
      | None => None
      | Some un =>
          if neg then (if un <=? 2 ^ 63 then Some (- un) else None)
          else (if un <? 2 ^ 63 then Some un else None)
      end
  end.

(** The value strconv.ParseInt returns beside its error: 0 on a syntax
    error, the nearest bound of int64 on a range error. *)
Definition ParseIntValue (s : string) : Z :=
  match s with
  | EmptyString => 0
  | String c r =>
      let neg := Ascii.eqb c "-"%char in
      let body := if Ascii.eqb c "+"%char || neg then r else s in
      match parseDigits body with
      | None => 0
      | Some un =>
          if neg then (if un <=? 2 ^ 63 then - un else - 2 ^ 63)
          else (if un <? 2 ^ 63 then un else 2 ^ 63 - 1)
      end
  end.

(** ** Decimal printing: strconv.Itoa, fmt's %03d, time's fixed-width fields *)

Definition digitChar (d : Z) : ascii := ascii_of_nat (Z.to_nat (48 + d)).

Fixpoint decimalDigits (fuel : nat) (n : Z) (acc : string) : string :=
  match fuel with
  | O => acc
  | S fuel' =>
      let acc' := String (digitChar (n mod 10)) acc in
      if n <? 10 then acc' else decimalDigits fuel' (n / 10) acc'
  end.

(** Decimal digits of a non-negative integer (at least one digit); the
    binary length bounds the number of decimal digits. *)
Definition decimal (n : Z) : string :=
  decimalDigits (S (Z.to_nat (Z.log2 n))) n EmptyString.

Fixpoint zeros (n : nat) : string :=
  match n with O => EmptyString | S n' => String "0"%char (zeros n') end.

Definition Itoa (n : Z) : string :=
  if n <? 0 then String "-"%char (decimal (- n)) else decimal n.

(** fmt.Sprintf("%0*d", width, n): the sign counts in the width and the
    zeros go after it. *)
Definition fmtZeroPad (width : nat) (n : Z) : string :=
  let ds := decimal (Z.abs n) in
  if n <? 0
  then String "-"%char (zeros (width - 1 - String.length ds) +:+ ds)
  else zeros (width - String.length ds) +:+ ds.

(** time's appendInt: a sign, then the digits padded with zeros to [width]. *)
Definition appendInt (n : Z) (width : nat) : string :=
  let ds := decimal (Z.abs n) in
  let body := zeros (width - String.length ds) +:+ ds in
  if n <? 0 then String "-"%char body else body.

(** ** time.Time

    What the program reads from a time value: the Unix time in nanoseconds
    and the civil date and clock in the local zone, which the layout
    "20060102_150405" prints. *)
Record Time : Type := mkTime {
  UnixNano : Z;
  Year : Z; Month : Z; Day : Z;
  Hour : Z; Minute : Z; Second : Z
}.

(** now.Format("20060102_150405") *)
Definition FormatStamp (t : Time) : string :=
  appendInt (Year t) 4 +:+ appendInt (Month t) 2 +:+ appendInt (Day t) 2
  +:+ "_" +:+ appendInt (Hour t) 2 +:+ appendInt (Minute t) 2
  +:+ appendInt (Second t) 2.

(** ** net.ParseIP(s) followed by To4() (Go 1.21, via netip.ParseAddr)

    The first of '.', ':' and '%' in [s] decides: with '.', the text must be
    a dotted quad; with ':', an IPv6 literal, for which To4 is non-nil when
    the address is IPv4-mapped; with '%' or none of them, nil. *)

(** One octet of a dotted quad: digits only, at least one, no leading zero
    in front of another digit, value at most 255. *)
Definition validOctet (f : string) : bool :=
  match f with
  | EmptyString => false
  | String c r =>
      match digitsValue 0 f with
      | None => false
      | Some v =>
          (v <=? 255)
          && negb (Ascii.eqb c "0"%char && negb (String.eqb r EmptyString))
      end
  end.

Definition parseIPv4 (s : string) : bool :=
  let fs := Split s "."%char in
  (length fs =? 4)%nat && forallb validOctet fs.

Inductive AddrKind := KindV4 | KindV6 | KindNone.

Fixpoint addrKind (s : string) : AddrKind :=
  match s with
  | EmptyString => KindNone
  | String c r =>
      if Ascii.eqb c "."%char then KindV4
      else if Ascii.eqb c ":"%char then KindV6
      else if Ascii.eqb c "%"%char then KindNone
      else addrKind r
  end.

(** ** path/filepath (Unix)

    Clean works on the elements between slashes: empty elements and "."
    are dropped, ".." removes the element before it (at the root it is
    dropped, at the start of a relative path it is kept), and the result
    of an empty relative path is ".". The stack holds the elements kept so
    far, the last one first. *)
Definition cleanStep (rooted : bool) (stack : list string) (elem : string)
  : list string :=
  if String.eqb elem "" || String.eqb elem "." then stack
  else if String.eqb elem ".." then
    match stack with
    | top :: rest => if String.eqb top ".." then elem :: stack else rest
    | [] => if rooted then [] else [elem]
    end
  else elem :: stack.

Fixpoint joinSlash (elems : list string) : string :=
  match elems with
  | [] => EmptyString
  | [e] => e
  | e :: rest => e +:+ "/" +:+ joinSlash rest
  end.

Definition isRooted (path : string) : bool :=
  match path with
  | String c _ => Ascii.eqb c "/"%char
  | EmptyString => false
  end.

Definition Clean (path : string) : string :=
  let rooted := isRooted path in
  let stack := fold_left (cleanStep rooted) (Split path "/"%char) [] in
  if rooted then "/" +:+ joinSlash (rev stack)
  else match stack with
       | [] => "."
       | _ => joinSlash (rev stack)
       end.

(** filepath.Join(dir, name): empty elements at the front are ignored, the
    rest is joined with slashes and cleaned. *)
Definition Join (dir name : string) : string :=
  if negb (String.eqb dir "") then Clean (dir +:+ "/" +:+ name)
  else if negb (String.eqb name "") then Clean name
  else EmptyString.

Definition newline : string := String (ascii_of_nat 10) EmptyString.

(** ** int64 arithmetic wraps around *)
Definition wrap64 (z : Z) : Z := (z + 2 ^ 63) mod 2 ^ 64 - 2 ^ 63.

(** ** error values

    [nil] is [None]. An error is either a value handed out by the runtime
    or a library, or one made by fmt.Errorf, with or without a cause (%w).
    [Panic] marks a method that does not return because the runtime
    panicked (a nil pointer was dereferenced).
    The texts of the program's messages are given in English. *)
Inductive Err : Type :=
| SysErr (code : nat)
| ErrNew (msg : string)
| ErrWrap (msg : string) (cause : Err)
| Panic (msg : string).

Abbreviation error := (option Err).

(** ** float64

    The operations of IEEE-754 binary64 that the validator uses, and
    strconv.ParseFloat(s, 64) with [None] for a non-nil error. *)
Class Float64 := {
  float64 : Type;
  f64_ofInt : Z -> float64;                 (* float64(n) *)
  f64_div : float64 -> float64 -> float64;  (* a / b *)
  f64_lt : float64 -> float64 -> bool;      (* a < b *)
  ParseFloat : string -> option float64
}.


End Go.

(* ===================================================================== *)
(** * internal/validator: ValidateLine *)
(* ===================================================================== *)

Module Validator.
Import Go.

Section WithRuntime.

Context `{F64 : Float64}.

(** Whether the text is an IPv6 literal (no zone) of an IPv4-mapped address:
    the case of net.ParseIP in which the text has a ':' before any '.'. *)
Variable parseIPv6Mapped : string -> bool.

(** ip := net.ParseIP(s); ip != nil && ip.To4() != nil *)
Definition isIPv4 (s : string) : bool :=
  match addrKind s with
  | KindV4 => parseIPv4 s
  | KindV6 => parseIPv6Mapped s
  | KindNone => false
  end.

Definition parseInt (s : string) : option Z :=
  let s := TrimSpace s in
  if String.eqb s EmptyString then None else ParseInt s.

Definition validPort (s : string) : bool :=
  match parseInt s with
  | Some v => (0 <=? v) && (v <=? 65535)
  | None => false
  end.

Definition validByte (s : string) : bool :=
  match parseInt s with
  | Some v => (0 <=? v) && (v <=? 255)
  | None => false
  end.

Definition validUint (s : string) : bool :=
  match parseInt s with
  | Some v => 0 <=? v
  | None => false
  end.

Definition parseEpochSeconds (s : string) : option float64 :=
  let s := TrimSpace s in
  if String.eqb s EmptyString then None
  else match ParseFloat s with
       | None => None
       | Some v => if f64_lt v (f64_ofInt 0) then None else Some v
       end.

(** float64(now.UnixNano()) / 1e9 *)
Definition nowSeconds (now : Time) : float64 :=
  f64_div (f64_ofInt (UnixNano now)) (f64_ofInt (10 ^ 9)).

(** fields[i] of a slice known to have 11 elements. *)
Definition field (fields : list string) (i : nat) : string :=
  nth i fields EmptyString.

Definition ValidateLine (line : string) (now : Time) : bool * string :=
  let fields := Split line ","%char in
  if negb (length fields =? 11)%nat then (false, "column count != 11") else
  let sip := TrimSpace (field fields 0) in
  let dip := TrimSpace (field fields 1) in
  if negb (isIPv4 sip) then (false, "SRC_IP is not valid") else
  if negb (isIPv4 dip) then (false, "DST_IP is not valid") else
  if negb (validPort (field fields 2)) then (false, "SRC_PORT is not valid") else
  if negb (validPort (field fields 3)) then (false, "DST_PORT is not valid") else
  if negb (validByte (field fields 4)) then (false, "TCP_FLAGS is not valid") else
  if negb (validByte (field fields 5)) then (false, "PROTOCOL is not valid") else
  if negb (validByte (field fields 6)) then (false, "TOS is not valid") else
  match parseEpochSeconds (field fields 7) with
  | None => (false, "TIMESTAMP_MIN is not valid")
  | Some tmin =>
      match parseEpochSeconds (field fields 8) with
      | None => (false, "TIMESTAMP_MAX is not valid")
      | Some tmax =>
          if f64_lt tmax tmin then (false, "TIMESTAMP_MAX is not valid") else
          if f64_lt (nowSeconds now) tmax then (false, "TIMESTAMP_MAX is not valid") else
          if negb (validUint (field fields 9)) then (false, "PACKETS is not valid") else
          if negb (validUint (field fields 10)) then (false, "BYTES is not valid") else
          (true, "")
      end
  end.

(** ** The checks as the specification lists them

    Six groups in a fixed order; each check is a test and the reason given
    when it fails. The first failing check decides. *)

Inductive CheckGroup :=
  GFieldCount | GIPs | GPorts | GBytes | GTimestamps | GCounts.

Definition groupRank (g : CheckGroup) : nat :=
  match g with
  | GFieldCount => 1 | GIPs => 2 | GPorts => 3
  | GBytes => 4 | GTimestamps => 5 | GCounts => 6
  end.

Record Check := mkCheck { group : CheckGroup; passes : bool; reason : string }.

(** The window test of group (5): both ends parse as non-negative floats,
    the start is not after the end, the end is not after [now]. *)
Definition tsMinOk (fields : list string) : bool :=
  bool_decide (is_Some (parseEpochSeconds (field fields 7))).

Definition tsMaxOk (fields : list string) (now : Time) : bool :=
  match parseEpochSeconds (field fields 7), parseEpochSeconds (field fields 8) with
  | Some tmin, Some tmax => negb (f64_lt tmax tmin) && negb (f64_lt (nowSeconds now) tmax)
  | _, _ => false
  end.

Definition checks (line : string) (now : Time) : list Check :=
  let fields := Split line ","%char in
  [ mkCheck GFieldCount (length fields =? 11)%nat "column count != 11";
    mkCheck GIPs (isIPv4 (TrimSpace (field fields 0))) "SRC_IP is not valid";
    mkCheck GIPs (isIPv4 (TrimSpace (field fields 1))) "DST_IP is not valid";
    mkCheck GPorts (validPort (field fields 2)) "SRC_PORT is not valid";
    mkCheck GPorts (validPort (field fields 3)) "DST_PORT is not valid";
    mkCheck GBytes (validByte (field fields 4)) "TCP_FLAGS is not valid";
    mkCheck GBytes (validByte (field fields 5)) "PROTOCOL is not valid";
    mkCheck GBytes (validByte (field fields 6)) "TOS is not valid";
    mkCheck GTimestamps (tsMinOk fields) "TIMESTAMP_MIN is not valid";
    mkCheck GTimestamps (tsMaxOk fields now) "TIMESTAMP_MAX is not valid";
    mkCheck GCounts (validUint (field fields 9)) "PACKETS is not valid";
    mkCheck GCounts (validUint (field fields 10)) "BYTES is not valid" ].

Fixpoint firstFailure (cs : list Check) : bool * string :=
  match cs with
  | [] => (true, EmptyString)
  | c :: cs' => if passes c then firstFailure cs' else (false, reason c)
  end.

Definition isColumnCountReason (r : string) : bool :=
  String.eqb r "column count != 11".

Definition isTimestampReason (r : string) : bool :=
  String.eqb r "TIMESTAMP_MIN is not valid" || String.eqb r "TIMESTAMP_MAX is not valid".

Definition isPortReason (r : string) : bool :=
  String.eqb r "SRC_PORT is not valid" || String.eqb r "DST_PORT is not valid".

End WithRuntime.

End Validator.

(* ===================================================================== *)
(** * Programs over the runtime *)
(* ===================================================================== *)

(** The methods of the program call into the operating system and into
    libraries that hold state of their own. A method is a tree: it returns,
    or it makes a call and continues with the answer. The code of the
    program fixes the tree; a handler gives the answers. *)

Module IO.

Section Programs.

Variable E : Type -> Type.

Inductive Prog (A : Type) : Type :=
| Ret (a : A)
| Vis (X : Type) (e : E X) (k : X -> Prog A).

Arguments Ret {A} a.
Arguments Vis {A X} e k.

Fixpoint bind {A B : Type} (p : Prog A) (f : A -> Prog B) : Prog B :=
  match p with
  | Ret a => f a
  | Vis e k => Vis e (fun x => bind (k x) f)
  end.

Definition call {X : Type} (e : E X) : Prog X := Vis e Ret.

(** A call together with its answer. *)
Inductive Event : Type :=
| Ev (X : Type) (e : E X) (x : X).

Arguments Ev {X} e x.

(** A handler answers every call from a state of the world. *)
Definition Handler (W : Type) : Type := forall X : Type, E X -> W -> X * W.

Section Run.

Context {W : Type} (h : Handler W).

(** The result, the world after the run, and the calls made in order. *)
Fixpoint run {A : Type} (p : Prog A) (w : W) : A * W * list Event :=
  match p with
  | Ret a => (a, w, [])
  | Vis e k =>
      let '(x, w1) := h _ e w in
      let '(a, w2, tr) := run (k x) w1 in
      (a, w2, Ev e x :: tr)
  end.

Definition result {A : Type} (p : Prog A) (w : W) : A := (run p w).1.1.
Definition after {A : Type} (p : Prog A) (w : W) : W := (run p w).1.2.
Definition trace {A : Type} (p : Prog A) (w : W) : list Event := (run p w).2.

End Run.

(** [p] can end with result [a] after the calls [tr], for some answers. *)
Inductive Runs {A : Type} : Prog A -> list Event -> A -> Prop :=
| Runs_Ret a : Runs (Ret a) [] a
| Runs_Vis X (e : E X) k x tr a :
    Runs (k x) tr a -> Runs (Vis e k) (Ev e x :: tr) a.

(** Every call [p] can make, whatever the answers, satisfies [P]. *)
Inductive OnlyCalls {A : Type} (P : forall X, E X -> Prop) : Prog A -> Prop :=
| OnlyCalls_Ret a : OnlyCalls P (Ret a)
| OnlyCalls_Vis X (e : E X) k :
    P X e -> (forall x, OnlyCalls P (k x)) -> OnlyCalls P (Vis e k).

End Programs.

Arguments Ret {E A} a.
Arguments Vis {E A X} e k.
Arguments bind {E A B} p f.
Arguments call {E X} e.
Arguments Ev {E X} e x.
Arguments run {E W} h {A} p w.
Arguments result {E W} h {A} p w.
Arguments after {E W} h {A} p w.
Arguments trace {E W} h {A} p w.
Arguments Runs {E A} _ _ _.
Arguments OnlyCalls {E A} P _.

(** A program over the calls [E] as a program over the calls [F] that
    include them. *)
Fixpoint mapCalls {E F : Type -> Type} (f : forall X, E X -> F X) {A : Type}
    (p : Prog E A) : Prog F A :=
  match p with
  | Ret a => Ret a
  | Vis e k => Vis (f _ e) (fun x => mapCalls f (k x))
  end.

Declare Scope prog_scope.
Delimit Scope prog_scope with prog.
Notation "x <- p ;; q" := (bind p (fun x => q))
  (at level 100, p at next level, right associativity) : prog_scope.

End IO.

(* ===================================================================== *)
(** * internal/batchwriter: BatchWriter *)
(* ===================================================================== *)

Module Batchwriter.
Import Go IO.
Local Open Scope prog_scope.

(** model.DataLine (its fields as main.go builds it). *)
Record DataLine : Type := mkDataLine { Line : string; IsHeader : bool }.

(** Pointers to an os.File, a gzip.Writer and a bufio.Writer. *)
Definition File : Type := nat.
Definition Gz : Type := nat.
Definition Buf : Type := nat.

(** The calls the BatchWriter makes: time.Now, time.Since, os.Create,
    gzip.NewWriter, bufio.NewWriterSize, Write and Flush of the
    bufio.Writer, Close of the gzip.Writer, Close of the os.File, os.Rename. *)
Inductive Op : Type -> Type :=
| TimeNow : Op Time
| TimeSince (t : Time) : Op Z
| OsCreate (path : string) : Op (File + Err)
| GzipNewWriter (f : File) : Op Gz
| BufioNewWriterSize (g : Gz) (size : Z) : Op Buf
| BufioWrite (b : Buf) (data : string) : Op (Z * error)
| BufioFlush (b : Buf) : Op error
| GzipClose (g : Gz) : Op error
| FileClose (f : File) : Op error
| OsRename (oldpath newpath : string) : Op error.

(** The struct; [mu] is left out: the methods run one at a time. *)
Record BatchWriter : Type := mkBatchWriter {
  dataDir : string;
  filePrefix : string;
  rotateIntervalSec : Z;
  rotateSizeMB : Z;
  buffer : option Buf;
  gzipWriter : option Gz;
  file : option File;
  currentPath : string;
  writtenBytes : Z;
  startTime : Time;
  fileIndex : Z;
  closed : bool
}.

(** The zero time.Time (January 1, year 1, 00:00:00 UTC); the program never
    reads its Unix time. *)
Definition zeroTime : Time := mkTime 0 1 1 1 0 0 0.

Definition NewBatchWriter (dataDir filePrefix : string)
    (rotateIntervalSec rotateSizeMB : Z) : BatchWriter :=
  {| dataDir := dataDir; filePrefix := filePrefix;
     rotateIntervalSec := rotateIntervalSec; rotateSizeMB := rotateSizeMB;
     buffer := None; gzipWriter := None; file := None;
     currentPath := EmptyString; writtenBytes := 0; startTime := zeroTime;
     fileIndex := 0; closed := false |}.

Definition set_currentPath (p : string) (bw : BatchWriter) : BatchWriter :=
  mkBatchWriter (dataDir bw) (filePrefix bw) (rotateIntervalSec bw) (rotateSizeMB bw)
    (buffer bw) (gzipWriter bw) (file bw) p
    (writtenBytes bw) (startTime bw) (fileIndex bw) (closed bw).

Definition set_writtenBytes (n : Z) (bw : BatchWriter) : BatchWriter :=
  mkBatchWriter (dataDir bw) (filePrefix bw) (rotateIntervalSec bw) (rotateSizeMB bw)
    (buffer bw) (gzipWriter bw) (file bw) (currentPath bw)
    n (startTime bw) (fileIndex bw) (closed bw).

Definition set_gzipWriter (g : option Gz) (bw : BatchWriter) : BatchWriter :=
  mkBatchWriter (dataDir bw) (filePrefix bw) (rotateIntervalSec bw) (rotateSizeMB bw)
    (buffer bw) g (file bw) (currentPath bw)
    (writtenBytes bw) (startTime bw) (fileIndex bw) (closed bw).

Definition set_file (f : option File) (bw : BatchWriter) : BatchWriter :=
  mkBatchWriter (dataDir bw) (filePrefix bw) (rotateIntervalSec bw) (rotateSizeMB bw)
    (buffer bw) (gzipWriter bw) f (currentPath bw)
    (writtenBytes bw) (startTime bw) (fileIndex bw) (closed bw).

Definition set_closed (c : bool) (bw : BatchWriter) : BatchWriter :=
  mkBatchWriter (dataDir bw) (filePrefix bw) (rotateIntervalSec bw) (rotateSizeMB bw)
    (buffer bw) (gzipWriter bw) (file bw) (currentPath bw)
    (writtenBytes bw) (startTime bw) (fileIndex bw) c.

(** A method changes the struct in place and returns an error. *)
Definition Method : Type := Prog Op (BatchWriter * error).

(** fmt.Sprintf("%s%s_%03d.part", prefix, timestamp, index) *)
Definition partName (prefix : string) (now : Time) (index : Z) : string :=
  prefix +:+ FormatStamp now +:+ "_" +:+ fmtZeroPad 3 index +:+ ".part".

Definition rotateFile (bw : BatchWriter) : Method :=
  now <- call TimeNow ;;
  let filename := partName (filePrefix bw) now (fileIndex bw) in
  let bw := set_currentPath (Join (dataDir bw) filename) bw in
  r <- call (OsCreate (currentPath bw)) ;;
  match r with
  | inr err => Ret (bw, Some (ErrWrap "create file failed" err))
  | inl f =>
      gzipWriter <- call (GzipNewWriter f) ;;
      buffer <- call (BufioNewWriterSize gzipWriter (4 * 1024 * 1024)) ;;
      Ret (mkBatchWriter (dataDir bw) (filePrefix bw)
             (rotateIntervalSec bw) (rotateSizeMB bw)
             (Some buffer) (Some gzipWriter) (Some f) (currentPath bw)
             0 now (wrap64 (fileIndex bw + 1)) (closed bw),
           None)
  end.

(** The loop of WriteBatch over the lines. *)
Fixpoint writeLines (bw : BatchWriter) (lines : list DataLine) : Method :=
  match lines with
  | [] => Ret (bw, None)
  | dataLine :: rest =>
      let data := Line dataLine +:+ newline in
      match buffer bw with
      | None => Ret (bw, Some (Panic "nil pointer dereference"))
      | Some b =>
          r <- call (BufioWrite b data) ;;
          match r.2 with
          | Some err => Ret (bw, Some (ErrWrap "write data failed" err))
          | None =>
              writeLines (set_writtenBytes (wrap64 (writtenBytes bw + len data)) bw) rest
          end
      end
  end.

Definition shouldRotate (bw : BatchWriter) : Prog Op bool :=
  elapsed <- call (TimeSince (startTime bw)) ;;
  if wrap64 (rotateIntervalSec bw * 1000000000) <=? elapsed then Ret true
  else if wrap64 (wrap64 (rotateSizeMB bw * 1024) * 1024) <=? writtenBytes bw then Ret true
  else Ret false.

Definition closeAndRenameCurrentFile (bw : BatchWriter) : Method :=
  r <- match gzipWriter bw with
       | Some g =>
           err <- call (GzipClose g) ;;
           match err with
           | Some e => Ret (bw, Some (ErrWrap "close gzip writer failed" e))
           | None => Ret (set_gzipWriter None bw, None)
           end
       | None => Ret (bw, None)
       end ;;
  let '(bw, err) := r in
  match err with
  | Some _ => Ret (bw, err)
  | None =>
  r <- match file bw with
       | Some f =>
           err <- call (FileClose f) ;;
           match err with
           | Some e => Ret (bw, Some (ErrWrap "close file failed" e))
           | None => Ret (set_file None bw, None)
           end
       | None => Ret (bw, None)
       end ;;
  let '(bw, err) := r in
  match err with
  | Some _ => Ret (bw, err)
  | None =>
  if negb (String.eqb (currentPath bw) "") then
    let n := String.length (currentPath bw) in
    let finalPath :=
      if (5 <=? n)%nat && String.eqb (sdrop (n - 5) (currentPath bw)) ".part"
      then stake (n - 5) (currentPath bw) +:+ ".csv.gz"
      else currentPath bw +:+ ".csv.gz" in
    err <- call (OsRename (currentPath bw) finalPath) ;;
    match err with
    | Some e => Ret (bw, Some (ErrWrap "rename file failed" e))
    | None => Ret (bw, None)
    end
  else Ret (bw, None)
  end end.

Definition flushAndRotate (bw : BatchWriter) : Method :=
  match buffer bw with
  | None => Ret (bw, Some (Panic "nil pointer dereference"))
  | Some b =>
      err <- call (BufioFlush b) ;;
      match err with
      | Some e => Ret (bw, Some (ErrWrap "flush buffer failed" e))
      | None =>
          r <- closeAndRenameCurrentFile bw ;;
          match r.2 with
          | Some e => Ret (r.1, Some (ErrWrap "close and rename failed" e))
          | None =>
              r <- rotateFile r.1 ;;
              match r.2 with
              | Some e => Ret (r.1, Some (ErrWrap "create new file failed" e))
              | None => Ret (r.1, None)
              end
          end
      end
  end.

Definition WriteBatch (bw : BatchWriter) (lines : list DataLine) : Method :=
  if closed bw then Ret (bw, Some (ErrNew "batch writer is closed")) else
  r <- (match file bw with
        | None =>
            r <- rotateFile bw ;;
            match r.2 with
            | Some e => Ret (r.1, Some (ErrWrap "create new file failed" e))
            | None => Ret (r.1, None)
            end
        | Some _ => Ret (bw, None)
        end) ;;
  match r.2 with
  | Some _ => Ret r
  | None =>
      r <- writeLines r.1 lines ;;
      match r.2 with
      | Some _ => Ret r
      | None =>
          rotate <- shouldRotate r.1 ;;
          if rotate : bool then
            r <- flushAndRotate r.1 ;;
            match r.2 with
            | Some e => Ret (r.1, Some (ErrWrap "rotate file failed" e))
            | None => Ret (r.1, None)
            end
          else Ret (r.1, None)
      end
  end.

Definition Flush (bw : BatchWriter) : Method :=
  if closed bw then Ret (bw, None) else
  match buffer bw with
  | None => Ret (bw, None)
  | Some b => err <- call (BufioFlush b) ;; Ret (bw, err)
  end.

Definition Close (bw : BatchWriter) : Method :=
  if closed bw then Ret (bw, None) else
  let bw := set_closed true bw in
  r <- match buffer bw with
       | Some b =>
           err <- call (BufioFlush b) ;;
           match err with
           | Some e => Ret (Some (ErrWrap "flush buffer failed" e))
           | None => Ret None
           end
       | None => Ret None
       end ;;
  match r with
  | Some _ => Ret (bw, r)
  | None =>
      r <- closeAndRenameCurrentFile bw ;;
      match r.2 with
      | Some e => Ret (r.1, Some (ErrWrap "close and rename failed" e))
      | None => Ret (r.1, None)
      end
  end.

(** ** What a trace of calls shows *)

Definition Trace : Type := list (Event Op).

Definition sinceCalls (tr : Trace) : list (Time * Z) :=
  flat_map (fun ev =>
    match ev with
    | Ev e x =>
        match e in Op X return X -> list (Time * Z) with
        | TimeSince t => fun d => [(t, d)]
        | _ => fun _ => []
        end x
    end) tr.

Definition createCalls (tr : Trace) : list (string * (File + Err)) :=
  flat_map (fun ev =>
    match ev with
    | Ev e x =>
        match e in Op X return X -> list (string * (File + Err)) with
        | OsCreate path => fun r => [(path, r)]
        | _ => fun _ => []
        end x
    end) tr.

Definition renameCalls (tr : Trace) : list (string * string * error) :=
  flat_map (fun ev =>
    match ev with
    | Ev e x =>
        match e in Op X return X -> list (string * string * error) with
        | OsRename o n => fun r => [(o, n, r)]
        | _ => fun _ => []
        end x
    end) tr.

Definition writeCalls (tr : Trace) : list (Buf * string) :=
  flat_map (fun ev =>
    match ev with
    | Ev e x =>
        match e in Op X return X -> list (Buf * string) with
        | BufioWrite b data => fun _ => [(b, data)]
        | _ => fun _ => []
        end x
    end) tr.

(** ** The rotation rule in the words of the specification *)

(** The raw bytes of a batch: the length of each line plus one. *)
Definition batchBytes (lines : list DataLine) : Z :=
  fold_right (fun dl acc => len (Line dl) + 1 + acc) 0 lines.

(** Rotate when the time since creation has reached the interval or the
    raw bytes have reached the threshold in MiB. *)
Definition rotationDue (intervalSec sizeMB elapsedNanos rawBytes : Z) : bool :=
  (intervalSec * 10 ^ 9 <=? elapsedNanos) || (sizeMB * 2 ^ 20 <=? rawBytes).

(** The writer has an archive open. *)
Definition hasActiveArchive (bw : BatchWriter) : Prop :=
  is_Some (file bw) /\ is_Some (gzipWriter bw) /\ is_Some (buffer bw)
  /\ currentPath bw <> EmptyString.

(** The configuration loader accepts an interval and a size of at least 1;
    below these bounds the products in shouldRotate do not overflow. *)
Definition configInRange (bw : BatchWriter) : Prop :=
  1 <= rotateIntervalSec bw /\ rotateIntervalSec bw * 10 ^ 9 < 2 ^ 63
  /\ 1 <= rotateSizeMB bw /\ rotateSizeMB bw < 2 ^ 43.

(** The name an in-progress path is renamed to. *)
Definition finalPathOf (path : string) : string :=
  let n := String.length path in
  if (5 <=? n)%nat && String.eqb (sdrop (n - 5) path) ".part"
  then stake (n - 5) path +:+ ".csv.gz"
  else path +:+ ".csv.gz".

(** ** A caller's use of the writer *)

Inductive ApiCall : Type :=
| CallWriteBatch (lines : list DataLine)
| CallFlush
| CallClose.

Definition callMethod (c : ApiCall) (bw : BatchWriter) : Method :=
  match c with
  | CallWriteBatch lines => WriteBatch bw lines
  | CallFlush => Flush bw
  | CallClose => Close bw
  end.

(** The calls in turn; for each, the error returned and the calls it made
    into the runtime. *)
Fixpoint runCalls {W : Type} (h : Handler Op W) (calls : list ApiCall)
    (bw : BatchWriter) (w : W) : list (ApiCall * error * Trace) * BatchWriter * W :=
  match calls with
  | [] => ([], bw, w)
  | c :: rest =>
      let '(bw1, err, w1, tr) := run h (callMethod c bw) w in
      let '(log, bw2, w2) := runCalls h rest bw1 w1 in
      ((c, err, tr) :: log, bw2, w2)
  end.

End Batchwriter.

(* ===================================================================== *)
(** * A file system, gzip and bufio for the BatchWriter *)
(* ===================================================================== *)

(** The world the BatchWriter runs in: the files on disk and, for every
    file created, the chain bufio.Writer -> gzip.Writer -> os.File.

    - bufio.Writer (size [s_size]) keeps the bytes written to it until they
      no longer fit or Flush is called; then it hands them to the
      gzip.Writer.
    - gzip.Writer takes the bytes; their compressed form is not necessarily
      written to the file until Close ("The compressed bytes are not
      necessarily flushed until the Writer is closed"). [emit] says how many
      of the bytes it holds reach the file after a write.
    - The content of a file on disk is given by the raw bytes whose
      compressed form it holds.
    - The calls that can fail take their outcome from [faults], one entry
      per call, in order ([true]: the call fails and changes nothing). *)

Module WriterWorld.
Import Go IO Batchwriter.

Record Stream : Type := mkStream {
  s_path : string;
  s_size : Z;
  s_buffered : string;   (* in the bufio.Writer *)
  s_held : string;       (* in the gzip.Writer *)
  s_gz_open : bool;
  s_file_open : bool
}.

Record World : Type := mkWorld {
  disk : gmap string string;
  streams : list Stream;                (* a pointer is an index *)
  published : list (string * string);   (* renames so far: new name, content *)
  now : Time;
  faults : list bool;
  emit : string -> nat
}.

Definition set_disk (d : gmap string string) (w : World) : World :=
  mkWorld d (streams w) (published w) (now w) (faults w) (emit w).

Definition set_streams (ss : list Stream) (w : World) : World :=
  mkWorld (disk w) ss (published w) (now w) (faults w) (emit w).

Definition set_now (t : Time) (w : World) : World :=
  mkWorld (disk w) (streams w) (published w) t (faults w) (emit w).

Definition set_buffered (b : string) (s : Stream) : Stream :=
  mkStream (s_path s) (s_size s) b (s_held s) (s_gz_open s) (s_file_open s).

Definition set_held (h : string) (s : Stream) : Stream :=
  mkStream (s_path s) (s_size s) (s_buffered s) h (s_gz_open s) (s_file_open s).

(** The outcome of the next call that can fail. *)
Definition nextFault (w : World) : bool * World :=
  match faults w with
  | [] => (false, w)
  | b :: rest =>
      (b, mkWorld (disk w) (streams w) (published w) (now w) rest (emit w))
  end.

Definition ioError : Err := SysErr 5.
Definition badHandle : Err := SysErr 9.
Definition noEntry : Err := SysErr 2.

Definition appendToFile (path data : string) (d : gmap string string)
  : gmap string string :=
  match d !! path with
  | Some c => <[path := c +:+ data]> d
  | None => d
  end.

(** Write of the gzip.Writer behind stream [s]. *)
Definition gzWrite (policy : string -> nat) (data : string)
    (s : Stream) (d : gmap string string) : Stream * gmap string string :=
  let held := s_held s +:+ data in
  let k := policy held in
  (set_held (sdrop k held) s, appendToFile (s_path s) (stake k held) d).

(** Write of the bufio.Writer: data that fits is kept; otherwise the buffer
    is filled and flushed, and what still does not fit an empty buffer goes
    straight to the gzip.Writer. *)
Definition bufWrite (policy : string -> nat) (data : string)
    (s : Stream) (d : gmap string string) : Stream * gmap string string :=
  let avail := s_size s - len (s_buffered s) in
  if len data <=? avail then (set_buffered (s_buffered s +:+ data) s, d)
  else if String.eqb (s_buffered s) "" then gzWrite policy data s d
  else
    let n := Z.to_nat avail in
    let '(s1, d1) :=
      gzWrite policy (s_buffered s +:+ stake n data) (set_buffered "" s) d in
    let rest := sdrop n data in
    if len rest <=? s_size s then (set_buffered rest s1, d1)
    else gzWrite policy rest s1 d1.

Definition sat64 (z : Z) : Z := Z.max (- 2 ^ 63) (Z.min (2 ^ 63 - 1) z).

Definition handle : Handler Op World :=
  fun X e =>
    match e in Op X return World -> X * World with
    | TimeNow => fun w => (now w, w)
    | TimeSince t => fun w => (sat64 (UnixNano (now w) - UnixNano t), w)
    | OsCreate path => fun w =>
        let '(failed, w) := nextFault w in
        if failed : bool then (inr ioError, w)
        else
          (inl (length (streams w)),
           mkWorld (<[path := EmptyString]> (disk w))
             (streams w ++ [mkStream path 0 "" "" true true])
             (published w) (now w) (faults w) (emit w))
    | GzipNewWriter f => fun w => (f, w)
    | BufioNewWriterSize g size => fun w =>
        match streams w !! g with
        | Some s =>
            (g, set_streams
                  (<[g := mkStream (s_path s) size (s_buffered s) (s_held s)
                            (s_gz_open s) (s_file_open s)]> (streams w)) w)
        | None => (g, w)
        end
    | BufioWrite b data => fun w =>
        match streams w !! b with
        | None => ((0, Some badHandle), w)
        | Some s =>
            let '(failed, w) := nextFault w in
            if (failed : bool) || negb (s_gz_open s) then ((0, Some ioError), w)
            else
              let '(s', d') := bufWrite (emit w) data s (disk w) in
              ((len data, None), set_disk d' (set_streams (<[b := s']> (streams w)) w))
        end
    | BufioFlush b => fun w =>
        match streams w !! b with
        | None => (Some badHandle, w)
        | Some s =>
            if String.eqb (s_buffered s) "" then (None, w)
            else
              let '(failed, w) := nextFault w in
              if (failed : bool) || negb (s_gz_open s) then (Some ioError, w)
              else
                let '(s', d') :=
                  gzWrite (emit w) (s_buffered s) (set_buffered "" s) (disk w) in
                (None, set_disk d' (set_streams (<[b := s']> (streams w)) w))
        end
    | GzipClose g => fun w =>
        match streams w !! g with
        | None => (Some badHandle, w)
        | Some s =>
            if negb (s_gz_open s) then (None, w)
            else
              let '(failed, w) := nextFault w in
              if failed : bool then (Some ioError, w)
              else
                let s' := mkStream (s_path s) (s_size s) (s_buffered s) ""
                            false (s_file_open s) in
                (None, set_disk (appendToFile (s_path s) (s_held s) (disk w))
                         (set_streams (<[g := s']> (streams w)) w))
        end
    | FileClose f => fun w =>
        match streams w !! f with
        | None => (Some badHandle, w)
        | Some s =>
            let '(failed, w) := nextFault w in
            if (failed : bool) || negb (s_file_open s) then (Some ioError, w)
            else
              let s' := mkStream (s_path s) (s_size s) (s_buffered s) (s_held s)
                          (s_gz_open s) false in
              (None, set_streams (<[f := s']> (streams w)) w)
        end
    | OsRename oldpath newpath => fun w =>
        let '(failed, w) := nextFault w in
        if failed : bool then (Some ioError, w)
        else
          match disk w !! oldpath with
          | None => (Some noEntry, w)
          | Some c =>
              (None,
               mkWorld (<[newpath := c]> (delete oldpath (disk w)))
                 (streams w) (published w ++ [(newpath, c)])
                 (now w) (faults w) (emit w))
          end
    end.

(** An empty disk at time [t], no faults ahead. *)
Definition emptyWorld (t : Time) (policy : string -> nat) : World :=
  mkWorld ∅ [] [] t [] policy.

(** A batch arrives at a reading of the clock. *)
Definition TimedBatch : Type := Time * list DataLine.

(** WriteBatch for every batch in turn, each at its time; the errors
    returned are collected. *)
Fixpoint writeAll (script : list TimedBatch) (bw : BatchWriter) (w : World)
  : BatchWriter * World * list error :=
  match script with
  | [] => (bw, w, [])
  | (t, lines) :: rest =>
      let '(bw1, err, w1, _) := run handle (WriteBatch bw lines) (set_now t w) in
      let '(bw2, w2, errs) := writeAll rest bw1 w1 in
      (bw2, w2, err :: errs)
  end.

(** The batches, then Close at time [tclose]. *)
Definition writeAllThenClose (script : list TimedBatch) (tclose : Time)
    (bw : BatchWriter) (w : World) : BatchWriter * World * list error :=
  let '(bw1, w1, errs) := writeAll script bw w in
  let '(bw2, err, w2, _) := run handle (Close bw1) (set_now tclose w1) in
  (bw2, w2, errs ++ [err]).

(** The bytes of a batch: every line followed by a newline. *)
Definition batchData (lines : list DataLine) : string :=
  fold_right (fun dl acc => Line dl +:+ newline +:+ acc) EmptyString lines.

Definition scriptData (script : list TimedBatch) : string :=
  fold_right (fun b acc => batchData b.2 +:+ acc) EmptyString script.

(** The contents of the completed archives, in the order of their renames. *)
Definition publishedData (w : World) : string :=
  fold_right (fun a acc => a.2 +:+ acc) EmptyString (published w).

(** ** A script of batches *)

Definition scriptBytes (script : list TimedBatch) : Z :=
  fold_right (fun b acc => batchBytes b.2 + acc) 0 script.

(** The archives a script completes and what the archive in progress
    holds after it, by the rule of WriteBatch: [start] is the creation
    time of the archive in progress, [held] what was written to it. *)
Fixpoint archivesOf (intervalSec sizeMB : Z) (start : Time) (held : string)
    (script : list TimedBatch) : list string * string :=
  match script with
  | [] => ([], held)
  | (t, lines) :: rest =>
      let all := held +:+ batchData lines in
      if rotationDue intervalSec sizeMB (sat64 (UnixNano t - UnixNano start)) (len all)
      then let '(done, last) := archivesOf intervalSec sizeMB t "" rest in
           (all :: done, last)
      else archivesOf intervalSec sizeMB start all rest
  end.

(** The batches at whose end the raw byte counter has reached the
    threshold, the counter starting again at zero after each. *)
Fixpoint sizeRotations (threshold counter : Z) (script : list TimedBatch) : nat :=
  match script with
  | [] => 0
  | (_, lines) :: rest =>
      let counter := counter + batchBytes lines in
      if threshold <=? counter then S (sizeRotations threshold 0 rest)
      else sizeRotations threshold counter rest
  end.

(** Every batch of the script arrives less than the interval after
    [base]. *)
Definition withinInterval (interval base : Z) (script : list TimedBatch) : Prop :=
  Forall (fun b => base <= UnixNano b.1 < base + interval * 10 ^ 9) script.

(** Modelled from the spec: the count of completed archives in its words,
    ceil(N/T). *)
Definition ceilDiv (n t : Z) : Z := (n + t - 1) / t.

(** A gzip.Writer that holds what it is given until it is closed. *)
Definition holdAll : string -> nat := fun _ => 0%nat.

End WriterWorld.

(* ===================================================================== *)
(** * internal/uploader: Uploader *)
(* ===================================================================== *)

(** The scan cycle of the Uploader and what it calls. The loop of [run]
    with its ticker and stop channel calls [scanAndUpload] once per tick;
    log output is left out. *)

Module Uploader.
Import Go IO.
Local Open Scope prog_scope.

Definition Ctx : Type := nat.
Definition Conn : Type := nat.
Definition LocalFile : Type := nat.

(** os.DirEntry: Name() and IsDir(). *)
Record DirEntry : Type := mkDirEntry { Name : string; IsDir : bool }.

(** ftp.Entry: Name and Type. *)
Inductive EntryType : Type := EntryTypeFile | EntryTypeFolder | EntryTypeLink.
Record FtpEntry : Type := mkFtpEntry { EName : string; EType : EntryType }.

Definition entryTypeIsFile (t : EntryType) : bool :=
  match t with EntryTypeFile => true | _ => false end.

(** The calls: a poll of ctx.Done(), os.ReadDir, os.Stat (the size),
    os.Open, Close of the local file, os.Remove, and the operations of the
    FTP connection. *)
Inductive Op : Type -> Type :=
| CtxDone (c : Ctx) : Op bool
| OsReadDir (dir : string) : Op (list DirEntry + Err)
| OsStat (path : string) : Op (Z + Err)
| OsOpen (path : string) : Op (LocalFile + Err)
| FileClose (f : LocalFile) : Op unit
| OsRemove (path : string) : Op error
| FtpDial (addr : string) (timeout : Z) : Op (Conn + Err)
| FtpQuit (c : Conn) : Op unit
| FtpLogin (c : Conn) (user pass : string) : Op error
| FtpChangeDir (c : Conn) (dir : string) : Op error
| FtpMakeDir (c : Conn) (dir : string) : Op error
| FtpFileSize (c : Conn) (path : string) : Op (Z + Err)
| FtpDelete (c : Conn) (path : string) : Op error
| FtpStor (c : Conn) (path : string) (f : LocalFile) : Op error
| FtpRename (c : Conn) (from to : string) : Op error
| FtpList (c : Conn) (path : string) : Op (list FtpEntry + Err).

(** The struct, without the two channels of Start and Stop. *)
Record Uploader : Type := mkUploader {
  ctx : option Ctx;
  ftpHost : string;
  ftpPort : Z;
  ftpUser : string;
  ftpPass : string;
  ftpDir : string;
  ftpTimeoutSec : Z;
  dataDir : string;
  uploadIntervalSec : Z
}.

(** if u.ctx != nil { select { case <-u.ctx.Done(): ... default: } } *)
Definition ctxDone (u : Uploader) : Prog Op bool :=
  match ctx u with
  | Some c => call (CtxDone c)
  | None => Ret false
  end.

(** fmt.Sprintf("%s:%d", u.ftpHost, u.ftpPort) *)
Definition ftpAddr (u : Uploader) : string :=
  ftpHost u +:+ ":" +:+ Itoa (ftpPort u).

(** time.Duration(u.ftpTimeoutSec) * time.Second *)
Definition ftpTimeout (u : Uploader) : Z := wrap64 (ftpTimeoutSec u * 1000000000).

(** u.ftpDir + "/" + name, or u.ftpDir + name when the directory ends in a
    slash. *)
Definition remotePathOf (u : Uploader) (name : string) : string :=
  if HasSuffix (ftpDir u) "/" then ftpDir u +:+ name
  else ftpDir u +:+ "/" +:+ name.

Definition tempNameOf (filename : string) : string := filename +:+ ".tmp".

(** The loop of ensureRemoteDir over the parts of the path. *)
Fixpoint makeDirs (u : Uploader) (conn : Conn) (parts : list string)
    (currentPath : string) : Prog Op error :=
  match parts with
  | [] => Ret None
  | part :: rest =>
      if String.eqb part "" then makeDirs u conn rest currentPath
      else
        let currentPath :=
          if String.eqb currentPath "" then "/" +:+ part
          else currentPath +:+ "/" +:+ part in
        done <- ctxDone u ;;
        if done : bool then Ret (Some (ErrNew "context cancelled, stop creating remote directories"))
        else
          err <- call (FtpChangeDir conn currentPath) ;;
          match err with
          | Some _ =>
              _ <- call (FtpMakeDir conn currentPath) ;;
              makeDirs u conn rest currentPath
          | None => makeDirs u conn rest currentPath
          end
  end.

Definition ensureRemoteDir (u : Uploader) (conn : Conn) (dir : string)
  : Prog Op error :=
  done <- ctxDone u ;;
  if done : bool then Ret (Some (ErrNew "context cancelled, skip ensuring remote directory"))
  else
    err <- call (FtpChangeDir conn dir) ;;
    match err with
    | None => Ret None
    | Some _ =>
        let parts := Split (Trim dir "/"%char) "/"%char in
        r <- makeDirs u conn parts "" ;;
        match r with
        | Some e => Ret (Some e)
        | None =>
            err <- call (FtpChangeDir conn dir) ;;
            match err with
            | Some e => Ret (Some (ErrWrap "cannot change to remote directory" e))
            | None => Ret None
            end
        end
    end.

(** uploadFile from the point where the local file is open. *)
Definition uploadOpened (u : Uploader) (conn : Conn) (file : LocalFile)
    (localSize : Z) (remotePath remoteTempPath : string) : Prog Op error :=
  err <- call (FtpStor conn remoteTempPath file) ;;
  match err with
  | Some e => Ret (Some (ErrWrap "upload temporary file failed" e))
  | None =>
      r <- call (FtpFileSize conn remoteTempPath) ;;
      match r with
      | inr e => Ret (Some (ErrWrap "get remote temporary file size failed" e))
      | inl remoteTempSize =>
          if negb (remoteTempSize =? localSize)
          then Ret (Some (ErrNew "remote temporary file size differs"))
          else
            err <- call (FtpRename conn remoteTempPath remotePath) ;;
            match err with
            | Some e => Ret (Some (ErrWrap "rename remote file failed" e))
            | None => Ret None
            end
      end
  end.

(** uploadFile from the point where the connection is up; conn.Quit() is
    deferred by the caller. *)
Definition uploadConnected (u : Uploader) (conn : Conn)
    (localPath filename : string) (localSize : Z) : Prog Op error :=
  err <- call (FtpLogin conn (ftpUser u) (ftpPass u)) ;;
  match err with
  | Some e => Ret (Some (ErrWrap "FTP login failed" e))
  | None =>
  err <- ensureRemoteDir u conn (ftpDir u) ;;
  match err with
  | Some e => Ret (Some (ErrWrap "create remote directory failed" e))
  | None =>
  let remotePath := remotePathOf u filename in
  let tempName := tempNameOf filename in
  let remoteTempPath := remotePathOf u tempName in
  r <- call (FtpFileSize conn remotePath) ;;
  skip <- match r with
          | inl remoteSize =>
              if remoteSize =? localSize then Ret true
              else _ <- call (FtpDelete conn remotePath) ;; Ret false
          | inr _ => Ret false
          end ;;
  if skip : bool then Ret None
  else
    r <- call (FtpFileSize conn remoteTempPath) ;;
    _ <- match r with
         | inl _ => _ <- call (FtpDelete conn remoteTempPath) ;; Ret tt
         | inr _ => Ret tt
         end ;;
    r <- call (OsOpen localPath) ;;
    match r with
    | inr e => Ret (Some (ErrWrap "open local file failed" e))
    | inl file =>
        res <- uploadOpened u conn file localSize remotePath remoteTempPath ;;
        _ <- call (FileClose file) ;;
        Ret res
    end
  end end.

Definition uploadFile (u : Uploader) (localPath filename : string)
  : Prog Op error :=
  done <- ctxDone u ;;
  if done : bool then Ret (Some (ErrNew "context cancelled, skip uploading file"))
  else
    r <- call (OsStat localPath) ;;
    match r with
    | inr e => Ret (Some (ErrWrap "stat local file failed" e))
    | inl localSize =>
        r <- call (FtpDial (ftpAddr u) (ftpTimeout u)) ;;
        match r with
        | inr e => Ret (Some (ErrWrap "connect to FTP server failed" e))
        | inl conn =>
            res <- uploadConnected u conn localPath filename localSize ;;
            _ <- call (FtpQuit conn) ;;
            Ret res
        end
    end.

(** The loop of cleanupRemoteTempFiles over the remote entries. *)
Fixpoint deleteTempEntries (u : Uploader) (conn : Conn)
    (entries : list FtpEntry) (cleaned : Z) : Prog Op Z :=
  match entries with
  | [] => Ret cleaned
  | entry :: rest =>
      if negb (entryTypeIsFile (EType entry)) then deleteTempEntries u conn rest cleaned
      else if negb (HasSuffix (EName entry) ".tmp") then deleteTempEntries u conn rest cleaned
      else
        err <- call (FtpDelete conn (remotePathOf u (EName entry))) ;;
        match err with
        | Some _ => deleteTempEntries u conn rest cleaned
        | None => deleteTempEntries u conn rest (wrap64 (cleaned + 1))
        end
  end.

Definition cleanupConnected (u : Uploader) (conn : Conn) : Prog Op error :=
  err <- call (FtpLogin conn (ftpUser u) (ftpPass u)) ;;
  match err with
  | Some e => Ret (Some (ErrWrap "FTP login failed" e))
  | None =>
      err <- ensureRemoteDir u conn (ftpDir u) ;;
      match err with
      | Some e => Ret (Some (ErrWrap "create remote directory failed" e))
      | None =>
          r <- call (FtpList conn (ftpDir u)) ;;
          match r with
          | inr e => Ret (Some (ErrWrap "list remote directory failed" e))
          | inl entries =>
              _ <- deleteTempEntries u conn entries 0 ;;
              Ret None
          end
      end
  end.

Definition cleanupRemoteTempFiles (u : Uploader) : Prog Op error :=
  done <- ctxDone u ;;
  if done : bool then Ret (Some (ErrNew "context cancelled, skip cleaning remote temporary files"))
  else
    r <- call (FtpDial (ftpAddr u) (ftpTimeout u)) ;;
    match r with
    | inr e => Ret (Some (ErrWrap "connect to FTP server failed" e))
    | inl conn =>
        res <- cleanupConnected u conn ;;
        _ <- call (FtpQuit conn) ;;
        Ret res
    end.

(** The files a scan takes up: the entries that are no directories and
    whose names end in ".csv.gz", in the order of the listing. *)
Definition filesToUpload (entries : list DirEntry) : list string :=
  map Name
    (filter (fun entry => negb (IsDir entry) && HasSuffix (Name entry) ".csv.gz")
       entries).

(** One round of the loop over the files, after the poll of the context:
    upload, and remove the local file when the upload returned nil. *)
Definition uploadAndRemove (u : Uploader) (filename : string) : Prog Op unit :=
  let filePath := Join (dataDir u) filename in
  err <- uploadFile u filePath filename ;;
  match err with
  | Some _ => Ret tt
  | None => _ <- call (OsRemove filePath) ;; Ret tt
  end.

Fixpoint uploadAll (u : Uploader) (files : list string) : Prog Op unit :=
  match files with
  | [] => Ret tt
  | filename :: rest =>
      done <- ctxDone u ;;
      if done : bool then Ret tt
      else _ <- uploadAndRemove u filename ;; uploadAll u rest
  end.

Definition scanAndUpload (u : Uploader) : Prog Op unit :=
  done <- ctxDone u ;;
  if done : bool then Ret tt
  else
    _ <- cleanupRemoteTempFiles u ;;
    r <- call (OsReadDir (dataDir u)) ;;
    match r with
    | inr _ => Ret tt
    | inl entries =>
        let files := filesToUpload entries in
        match files with
        | [] => Ret tt
        | _ => uploadAll u files
        end
    end.

(** ** What a trace of calls shows *)

Definition Trace : Type := list (Event Op).

Definition observe {A : Type} (f : forall X, Op X -> X -> list A) (tr : Trace)
  : list A :=
  flat_map (fun ev => match ev with Ev e x => f _ e x end) tr.

(** The answers to the polls of the context. *)
Definition ctxPolls : Trace -> list bool :=
  observe (fun X e => match e in Op X return X -> list bool with
                      | CtxDone _ => fun b => [b]
                      | _ => fun _ => [] end).

(** os.Stat: path and answer. *)
Definition statCalls : Trace -> list (string * (Z + Err)) :=
  observe (fun X e => match e in Op X return X -> list (string * (Z + Err)) with
                      | OsStat p => fun r => [(p, r)]
                      | _ => fun _ => [] end).

(** os.Open: path and answer. *)
Definition openCalls : Trace -> list (string * (LocalFile + Err)) :=
  observe (fun X e => match e in Op X return X -> list (string * (LocalFile + Err)) with
                      | OsOpen p => fun r => [(p, r)]
                      | _ => fun _ => [] end).

(** The paths handed to os.Remove. *)
Definition removeCalls : Trace -> list string :=
  observe (fun X e => match e in Op X return X -> list string with
                      | OsRemove p => fun _ => [p]
                      | _ => fun _ => [] end).

(** FileSize: remote path and answer. *)
Definition fileSizeCalls : Trace -> list (string * (Z + Err)) :=
  observe (fun X e => match e in Op X return X -> list (string * (Z + Err)) with
                      | FtpFileSize _ p => fun r => [(p, r)]
                      | _ => fun _ => [] end).

(** The remote paths data was sent to. *)
Definition storCalls : Trace -> list string :=
  observe (fun X e => match e in Op X return X -> list string with
                      | FtpStor _ p _ => fun _ => [p]
                      | _ => fun _ => [] end).

(** The remote paths handed to Delete. *)
Definition deleteCalls : Trace -> list string :=
  observe (fun X e => match e in Op X return X -> list string with
                      | FtpDelete _ p => fun _ => [p]
                      | _ => fun _ => [] end).

(** The answers to Dial, to Login, to Stor and to the remote Rename. *)
Definition dialCalls : Trace -> list (Conn + Err) :=
  observe (fun X e => match e in Op X return X -> list (Conn + Err) with
                      | FtpDial _ _ => fun r => [r]
                      | _ => fun _ => [] end).

Definition loginCalls : Trace -> list error :=
  observe (fun X e => match e in Op X return X -> list error with
                      | FtpLogin _ _ _ => fun r => [r]
                      | _ => fun _ => [] end).

Definition storResults : Trace -> list (string * error) :=
  observe (fun X e => match e in Op X return X -> list (string * error) with
                      | FtpStor _ p _ => fun r => [(p, r)]
                      | _ => fun _ => [] end).

Definition remoteRenames : Trace -> list (string * string * error) :=
  observe (fun X e => match e in Op X return X -> list (string * string * error) with
                      | FtpRename _ a b => fun r => [(a, b, r)]
                      | _ => fun _ => [] end).

(** os.ReadDir: directory and answer. *)
Definition readDirCalls : Trace -> list (string * (list DirEntry + Err)) :=
  observe (fun X e => match e in Op X
                            return X -> list (string * (list DirEntry + Err)) with
                      | OsReadDir d => fun r => [(d, r)]
                      | _ => fun _ => [] end).

(** The local paths a trace touches: given to os.Stat, os.Open, os.Remove. *)
Definition localPaths (tr : Trace) : list string :=
  map fst (statCalls tr) ++ map fst (openCalls tr) ++ removeCalls tr.

(** ** The cycle, file by file *)

(** What uploadFile returned for each file the loop took up, in a run
    under handler [h] from world [w]. *)
Fixpoint outcomes {W : Type} (h : Handler Op W) (u : Uploader)
    (files : list string) (w : W) : list (string * error) :=
  match files with
  | [] => []
  | filename :: rest =>
      let '(done, w1, _) := run h (ctxDone u) w in
      if done : bool then []
      else
        let '(err, w2, _) := run h (uploadFile u (Join (dataDir u) filename) filename) w1 in
        let w3 := match err with
                  | Some _ => w2
                  | None => (run h (call (OsRemove (Join (dataDir u) filename))) w2).1.2
                  end in
        (filename, err) :: outcomes h u rest w3
  end.

Definition isNil (e : error) : bool :=
  match e with None => true | Some _ => false end.

(** The local paths of the files whose upload returned nil. *)
Definition deliveredPaths (u : Uploader) (outs : list (string * error)) : list string :=
  map (fun o => Join (dataDir u) o.1) (List.filter (fun o => isNil o.2) outs).

(** A trace of uploadFile shows a confirmed delivery of a file of [size]
    bytes: the remote file was found with that size, or the data was
    stored under the temporary name, found there with that size, and
    renamed to the final name, each without error. *)
Definition confirmed (tr : Trace) (remotePath remoteTempPath : string) (size : Z)
  : Prop :=
  fileSizeCalls tr = [(remotePath, inl size)]
  \/ (storResults tr = [(remoteTempPath, None)]
      /\ last (fileSizeCalls tr) = Some (remoteTempPath, inl size)
      /\ remoteRenames tr = [(remoteTempPath, remotePath, None)]).

End Uploader.

(* ===================================================================== *)
(** * A local directory and an FTP deposit to run the uploader against *)
(* ===================================================================== *)

(** A world for [Uploader.Op]: one local directory with its entries and
    their sizes, the local files opened so far, a remote deposit mapping
    paths to sizes, a cancellation flag, and the faults of the server
    (unreachable; remote paths it refuses to store). *)
Module UploaderWorld.
Import Go IO Uploader.

Record World : Type := mkWorld {
  localDir : string;
  localEntries : list (DirEntry * Z);
  handles : list string;            (* a handle is an index: the path opened *)
  remoteFiles : gmap string Z;
  cancelled : bool;
  unreachable : bool;
  refused : list string
}.

Definition set_localEntries (l : list (DirEntry * Z)) (w : World) : World :=
  mkWorld (localDir w) l (handles w) (remoteFiles w) (cancelled w)
    (unreachable w) (refused w).

Definition set_handles (l : list string) (w : World) : World :=
  mkWorld (localDir w) (localEntries w) l (remoteFiles w) (cancelled w)
    (unreachable w) (refused w).

Definition set_remoteFiles (m : gmap string Z) (w : World) : World :=
  mkWorld (localDir w) (localEntries w) (handles w) m (cancelled w)
    (unreachable w) (refused w).

Definition noEntry : Err := SysErr 2.
Definition refusedErr : Err := SysErr 111.
Definition ftpError : Err := SysErr 550.

Definition pathOf (w : World) (entry : DirEntry * Z) : string :=
  Join (localDir w) (Name entry.1).

(** The plain file at [path], if there is one. *)
Definition findFile (w : World) (path : string) : option (DirEntry * Z) :=
  List.find (fun entry => negb (IsDir entry.1) && String.eqb (pathOf w entry) path)
    (localEntries w).

Definition inList (s : string) (l : list string) : bool :=
  existsb (String.eqb s) l.

(** The names of the remote files directly under [dir]. *)
Definition remoteNames (dir : string) (m : gmap string Z) : list FtpEntry :=
  let base := if HasSuffix dir "/" then dir else dir +:+ "/" in
  flat_map (fun kv : string * Z =>
              if hasPrefix kv.1 base
              then [mkFtpEntry (sdrop (String.length base) kv.1) EntryTypeFile]
              else [])
    (map_to_list m).

Definition handle : Handler Op World :=
  fun X e =>
    match e in Op X return World -> X * World with
    | CtxDone _ => fun w => (cancelled w, w)
    | OsReadDir dir => fun w =>
        if String.eqb dir (localDir w) then (inl (map fst (localEntries w)), w)
        else (inr noEntry, w)
    | OsStat path => fun w =>
        match findFile w path with
        | Some entry => (inl entry.2, w)
        | None => (inr noEntry, w)
        end
    | OsOpen path => fun w =>
        match findFile w path with
        | Some _ => (inl (length (handles w)), set_handles (handles w ++ [path]) w)
        | None => (inr noEntry, w)
        end
    | FileClose _ => fun w => (tt, w)
    | OsRemove path => fun w =>
        match findFile w path with
        | Some _ =>
            (None,
             set_localEntries
               (List.filter (fun entry => negb (String.eqb (pathOf w entry) path))
                  (localEntries w)) w)
        | None => (Some noEntry, w)
        end
    | FtpDial _ _ => fun w =>
        if unreachable w then (inr refusedErr, w) else (inl 0%nat, w)
    | FtpQuit _ => fun w => (tt, w)
    | FtpLogin _ _ _ => fun w => (None, w)
    | FtpChangeDir _ _ => fun w => (None, w)
    | FtpMakeDir _ _ => fun w => (None, w)
    | FtpFileSize _ path => fun w =>
        match remoteFiles w !! path with
        | Some size => (inl size, w)
        | None => (inr ftpError, w)
        end
    | FtpDelete _ path => fun w =>
        match remoteFiles w !! path with
        | Some _ => (None, set_remoteFiles (delete path (remoteFiles w)) w)
        | None => (Some ftpError, w)
        end
    | FtpStor _ path f => fun w =>
        match handles w !! f with
        | None => (Some ftpError, w)
        | Some localPath =>
            match findFile w localPath with
            | None => (Some noEntry, w)
            | Some entry =>
                if inList path (refused w) then (Some ftpError, w)
                else (None, set_remoteFiles (<[path := entry.2]> (remoteFiles w)) w)
            end
        end
    | FtpRename _ from to => fun w =>
        match remoteFiles w !! from with
        | None => (Some ftpError, w)
        | Some size =>
            (None, set_remoteFiles (<[to := size]> (delete from (remoteFiles w))) w)
        end
    | FtpList _ dir => fun w => (inl (remoteNames dir (remoteFiles w)), w)
    end.

End UploaderWorld.

(* ===================================================================== *)
(** * internal/errorlog: LineWriter *)
(* ===================================================================== *)

Module Errorlog.
Import Go IO.
Local Open Scope prog_scope.

(** Pointers to an os.File and a csv.Writer. *)
Definition File : Type := nat.
Definition Csv : Type := nat.

(** The flags of os.OpenFile (linux). *)
Definition O_WRONLY : Z := 1.
Definition O_CREATE : Z := 64.
Definition O_TRUNC : Z := 512.
Definition O_APPEND : Z := 1024.

(** The calls: os.MkdirAll, os.OpenFile, csv.NewWriter, Write, Flush and
    Error of the csv.Writer, Close of the os.File. *)
Inductive Op : Type -> Type :=
| OsMkdirAll (path : string) (perm : Z) : Op error
| OsOpenFile (path : string) (flag perm : Z) : Op (File + Err)
| CsvNewWriter (f : File) : Op Csv
| CsvWrite (w : Csv) (record : list string) : Op error
| CsvFlush (w : Csv) : Op unit
| CsvError (w : Csv) : Op error
| FileClose (f : File) : Op error.

Record LineWriter : Type := mkLineWriter { file : File; writer : Csv }.

(** The path of the error file under a data directory. *)
Definition errorFilePath (dataDir : string) : string :=
  Join (Join dataDir "error") "errorline.csv".

Definition NewLineWriter (dataDir : string)
  : Prog Op (option LineWriter * error) :=
  let errDir := Join dataDir "error" in
  err <- call (OsMkdirAll errDir 493) ;;
  match err with
  | Some e => Ret (None, Some (ErrWrap "create error dir failed" e))
  | None =>
      let path := Join errDir "errorline.csv" in
      r <- call (OsOpenFile path (Z.lor (Z.lor O_CREATE O_APPEND) O_WRONLY) 420) ;;
      match r with
      | inr e => Ret (None, Some (ErrWrap "open errorline.csv failed" e))
      | inl f =>
          w <- call (CsvNewWriter f) ;;
          Ret (Some (mkLineWriter f w), None)
      end
  end.

(** Write on a receiver that may be nil. *)
Definition Write (w : option LineWriter) (lineCount : Z) (line reason : string)
  : Prog Op error :=
  match w with
  | None => Ret None
  | Some lw =>
      err <- call (CsvWrite (writer lw) [Itoa lineCount; line; reason]) ;;
      match err with
      | Some e => Ret (Some e)
      | None =>
          _ <- call (CsvFlush (writer lw)) ;;
          call (CsvError (writer lw))
      end
  end.

Definition Close (w : option LineWriter) : Prog Op error :=
  match w with
  | None => Ret None
  | Some lw =>
      _ <- call (CsvFlush (writer lw)) ;;
      err <- call (CsvError (writer lw)) ;;
      match err with
      | Some e => _ <- call (FileClose (file lw)) ;; Ret (Some e)
      | None => call (FileClose (file lw))
      end
  end.

(** ** What a trace of calls shows *)

Definition Trace : Type := list (Event Op).

(** The records handed to Write of the csv.Writer. *)
Definition csvWrites (tr : Trace) : list (Csv * list string) :=
  flat_map (fun ev =>
    match ev with
    | Ev e x =>
        match e in Op X return X -> list (Csv * list string) with
        | CsvWrite w record => fun _ => [(w, record)]
        | _ => fun _ => []
        end x
    end) tr.

(** os.OpenFile: path, flags and permissions. *)
Definition openFileCalls (tr : Trace) : list (string * Z * Z) :=
  flat_map (fun ev =>
    match ev with
    | Ev e x =>
        match e in Op X return X -> list (string * Z * Z) with
        | OsOpenFile path flag perm => fun _ => [(path, flag, perm)]
        | _ => fun _ => []
        end x
    end) tr.

End Errorlog.

(* ===================================================================== *)
(** * main: the ingest loop *)
(* ===================================================================== *)

Module Ingest.
Import Go IO.
Local Open Scope prog_scope.

Local Abbreviation DataLine := Batchwriter.DataLine.
Local Abbreviation mkDataLine := Batchwriter.mkDataLine.

(** How a send on the data channel ends: the line is taken, the context
    is cancelled first, or the timer fires first. *)
Inductive SendResult : Type := Sent | Cancelled | TimedOut.

(** The calls of runIngest: the poll of ctx.Done() at the head of the
    loop, ctx.Err(), time.Now(), Add on the two counters and on the
    reporter, the send on the channel (a select with ctx.Done(), and with
    time.After when a timeout is set), and the calls of the LineWriter. *)
Inductive Op : Type -> Type :=
| CtxDone : Op bool
| CtxErr : Op error
| TimeNow : Op Time
| CsvTotalAdd (n : Z) : Op unit
| CsvDNSAdd (n : Z) : Op unit
| ReporterAdd (pkts bytes : Z) : Op unit
| ChanSend (dl : DataLine) : Op SendResult
| ChanSendTimeout (dl : DataLine) (timeout : Z) : Op SendResult
| ErrorLog (X : Type) (e : Errorlog.Op X) : Op X.

Arguments ErrorLog {X} e.

(** The arguments of runIngest other than the context and the channel;
    a pointer that may be nil is a boolean (present or not), or an option
    when it is used. *)
Record Params : Type := mkParams {
  reporter : bool;
  debugPrintInterval : Z;
  chanTimeout : Z;
  errWriter : option Errorlog.LineWriter;
  csvTotal : bool;
  csvDNS : bool
}.

(** The variables of the loop. *)
Record State : Type := mkState {
  lineCount : Z;
  headerProcessed : bool;
  packetIdx : Z;
  octetIdx : Z
}.

Definition initialState : State := mkState 0 false (-1) (-1).

Definition headerKeywords : list string :=
  ["flowstart"; "timestamp";
   "src_ip"; "dst_ip"; "src_host"; "dst_host";
   "src_port"; "dst_port"; "protocol"; "proto"; "tos";
   "tcp_flags"; "timestamp_min"; "timestamp_max";
   "packet"; "packets"; "octet"; "bytes"].

Definition isHeaderLine (line : string) : bool :=
  let lower := ToLower line in
  existsb (fun kw => Contains lower kw) headerKeywords.

Definition isDNSLine (line : string) : bool :=
  let fields := Split line ","%char in
  if (length fields <? 4)%nat then false
  else
    let srcPort := TrimSpace (nth 2 fields EmptyString) in
    let dstPort := TrimSpace (nth 3 fields EmptyString) in
    String.eqb srcPort "53" || String.eqb dstPort "53".

(** parseCounts; [None] is the panic of an index below zero, which the
    caller rules out. *)
Definition parseCounts (line : string) (pktIdx byteIdx : Z) : option (Z * Z) :=
  let fields := Split line "|"%char in
  let n := Z.of_nat (length fields) in
  if (n <=? pktIdx) || (n <=? byteIdx) then Some (0, 0)
  else if (pktIdx <? 0) || (byteIdx <? 0) then None
  else
    Some (ParseIntValue (TrimSpace (nth (Z.to_nat pktIdx) fields EmptyString)),
          ParseIntValue (TrimSpace (nth (Z.to_nat byteIdx) fields EmptyString))).

(** The loop over the fields of the header, from index [i]. *)
Fixpoint headerIndexes (fields : list string) (i packetIdx octetIdx : Z) : Z * Z :=
  match fields with
  | [] => (packetIdx, octetIdx)
  | f :: rest =>
      let ft := TrimSpace f in
      if String.eqb ft "packetTotalCount" then headerIndexes rest (i + 1) i octetIdx
      else if String.eqb ft "octetTotalCount" then headerIndexes rest (i + 1) packetIdx i
      else headerIndexes rest (i + 1) packetIdx octetIdx
  end.

Definition min (a b : Z) : Z := if a <? b then a else b.

Section WithRuntime.

Context `{F64 : Float64}.
Variable parseIPv6Mapped : string -> bool.

(** The branch of an invalid line: the record goes to the error file when
    there is a LineWriter; an error of the write is logged only. *)
Definition reject (p : Params) (currentLineNo : Z) (line reason : string)
  : Prog Op unit :=
  match errWriter p with
  | Some _ =>
      _ <- mapCalls (@ErrorLog)
             (Errorlog.Write (errWriter p) currentLineNo line reason) ;;
      Ret tt
  | None => Ret tt
  end.

(** The counters and the reporter, for a valid line. *)
Definition account (p : Params) (st : State) (line : string)
  : Prog Op (option Err) :=
  _ <- (if csvTotal p then call (CsvTotalAdd 1) else Ret tt) ;;
  _ <- (if csvDNS p && isDNSLine line then call (CsvDNSAdd 1) else Ret tt) ;;
  if reporter p && (0 <=? packetIdx st) && (0 <=? octetIdx st) then
    match parseCounts line (packetIdx st) (octetIdx st) with
    | None => Ret (Some (Panic "index out of range"))
    | Some (pkts, bytes) =>
        if (0 <? pkts) || (0 <? bytes)
        then _ <- call (ReporterAdd pkts bytes) ;; Ret None
        else Ret None
    end
  else Ret None.

(** The send of a valid line. *)
Definition send (p : Params) (line : string) : Prog Op SendResult :=
  if chanTimeout p <=? 0 then call (ChanSend (mkDataLine line false))
  else call (ChanSendTimeout (mkDataLine line false) (chanTimeout p)).

Definition bump (st : State) : State :=
  mkState (wrap64 (lineCount st + 1)) (headerProcessed st)
    (packetIdx st) (octetIdx st).

(** runIngest over the lines the scanner delivers: [input] are the
    tokens of stdin in order, [scanErr] what scanner.Err() says once Scan
    has returned false. *)
Fixpoint ingestLoop (p : Params) (input : list string) (scanErr : error)
    (st : State) : Prog Op error :=
  done <- call CtxDone ;;
  if done : bool then call CtxErr
  else
    match input with
    | [] =>
        match scanErr with
        | Some e => Ret (Some (ErrWrap "read stdin failed" e))
        | None => Ret None
        end
    | line :: rest =>
        if len line =? 0 then ingestLoop p rest scanErr st
        else
          let currentLineNo := wrap64 (lineCount st + 1) in
          if negb (headerProcessed st) && isHeaderLine line then
            let '(pi, oi) :=
              headerIndexes (Split line "|"%char) 0 (packetIdx st) (octetIdx st) in
            ingestLoop p rest scanErr (mkState (lineCount st) true pi oi)
          else
            now <- call TimeNow ;;
            let '(ok, reason) := Validator.ValidateLine parseIPv6Mapped line now in
            if negb ok then
              _ <- reject p currentLineNo line reason ;;
              ingestLoop p rest scanErr (bump st)
            else
              r <- account p st line ;;
              match r with
              | Some e => Ret (Some e)
              | None =>
                  s <- send p line ;;
                  match s with
                  | Cancelled => call CtxErr
                  | Sent | TimedOut => ingestLoop p rest scanErr (bump st)
                  end
              end
    end.

Definition runIngest (p : Params) (input : list string) (scanErr : error)
  : Prog Op error :=
  ingestLoop p input scanErr initialState.

(** ** The lines and the records, without the loop *)

(** The lines that reach the validator: the empty ones are skipped, and
    so is the first line that looks like a header. *)
Fixpoint dataLines (headerSeen : bool) (input : list string) : list string :=
  match input with
  | [] => []
  | line :: rest =>
      if len line =? 0 then dataLines headerSeen rest
      else if negb headerSeen && isHeaderLine line then dataLines true rest
      else line :: dataLines headerSeen rest
  end.

(** The records of the lines the validator rejects, each line validated
    at its time; a line is numbered by its place among the lines that
    reach the validator, after [count] earlier ones. *)
Fixpoint recordsFrom (count : Z) (lines : list string) (times : list Time)
  : list (list string) :=
  match lines, times with
  | line :: lines', now :: times' =>
      let '(ok, reason) := Validator.ValidateLine parseIPv6Mapped line now in
      (if ok then [] else [[Itoa (count + 1); line; reason]])
      ++ recordsFrom (count + 1) lines' times'
  | _, _ => []
  end.

End WithRuntime.

(** ** What a trace of calls shows *)

Definition Trace : Type := list (Event Op).

Definition observe {A : Type} (f : forall X, Op X -> X -> list A) (tr : Trace)
  : list A :=
  flat_map (fun ev => match ev with Ev e x => f _ e x end) tr.

(** The calls of the LineWriter in a trace. *)
Definition errorLogCalls : Trace -> Errorlog.Trace :=
  observe (fun X e => match e in Op X return X -> list (Event Errorlog.Op) with
                      | ErrorLog e' => fun x => [Ev e' x]
                      | _ => fun _ => [] end).

(** The records handed to the csv.Writer. *)
Definition csvRecords (tr : Trace) : list (list string) :=
  map snd (Errorlog.csvWrites (errorLogCalls tr)).

(** The readings of the clock. *)
Definition nowAnswers : Trace -> list Time :=
  observe (fun X e => match e in Op X return X -> list Time with
                      | TimeNow => fun t => [t]
                      | _ => fun _ => [] end).

(** The answers to the polls of the context. *)
Definition ctxPolls : Trace -> list bool :=
  observe (fun X e => match e in Op X return X -> list bool with
                      | CtxDone => fun b => [b]
                      | _ => fun _ => [] end).

(** How the sends ended, and the lines sent. *)
Definition sendResults : Trace -> list (string * SendResult) :=
  observe (fun X e => match e in Op X return X -> list (string * SendResult) with
                      | ChanSend dl => fun r => [(Batchwriter.Line dl, r)]
                      | ChanSendTimeout dl _ => fun r => [(Batchwriter.Line dl, r)]
                      | _ => fun _ => [] end).

End Ingest.

(* ===================================================================== *)
(** * A world to run the ingest loop in *)
(* ===================================================================== *)

(** A world for [Ingest.Op]: a clock, the error file with the records
    flushed to it and those still in the csv.Writer, the lines taken by
    the channel, the counters, and a context that is cancelled once a
    given number of polls have been answered. *)
Module IngestWorld.
Import Go IO Ingest.

Record World : Type := mkWorld {
  clock : Time;
  errorFile : list (list string);
  csvBuffer : list (list string);
  taken : list string;
  total : Z;
  dns : Z;
  packets : Z;
  bytes : Z;
  pollsLeft : option nat
}.

Definition canceled : Err := ErrNew "context canceled".

Definition handleErrorLog (X : Type) (e : Errorlog.Op X) : World -> X * World :=
  match e in Errorlog.Op X return World -> X * World with
  | Errorlog.OsMkdirAll _ _ => fun w => (None, w)
  | Errorlog.OsOpenFile _ _ _ => fun w => (inl 0%nat, w)
  | Errorlog.CsvNewWriter f => fun w => (f, w)
  | Errorlog.CsvWrite _ record => fun w =>
      (None, mkWorld (clock w) (errorFile w) (csvBuffer w ++ [record]) (taken w)
               (total w) (dns w) (packets w) (bytes w) (pollsLeft w))
  | Errorlog.CsvFlush _ => fun w =>
      (tt, mkWorld (clock w) (errorFile w ++ csvBuffer w) [] (taken w)
             (total w) (dns w) (packets w) (bytes w) (pollsLeft w))
  | Errorlog.CsvError _ => fun w => (None, w)
  | Errorlog.FileClose _ => fun w => (None, w)
  end.

Definition handle : Handler Op World :=
  fun X e =>
    match e in Op X return World -> X * World with
    | CtxDone => fun w =>
        match pollsLeft w with
        | None => (false, w)
        | Some O => (true, w)
        | Some (S n) =>
            (false, mkWorld (clock w) (errorFile w) (csvBuffer w) (taken w)
                      (total w) (dns w) (packets w) (bytes w) (Some n))
        end
    | CtxErr => fun w =>
        match pollsLeft w with
        | Some O => (Some canceled, w)
        | _ => (None, w)
        end
    | TimeNow => fun w => (clock w, w)
    | CsvTotalAdd n => fun w =>
        (tt, mkWorld (clock w) (errorFile w) (csvBuffer w) (taken w)
               (total w + n) (dns w) (packets w) (bytes w) (pollsLeft w))
    | CsvDNSAdd n => fun w =>
        (tt, mkWorld (clock w) (errorFile w) (csvBuffer w) (taken w)
               (total w) (dns w + n) (packets w) (bytes w) (pollsLeft w))
    | ReporterAdd pkts byts => fun w =>
        (tt, mkWorld (clock w) (errorFile w) (csvBuffer w) (taken w)
               (total w) (dns w) (packets w + pkts) (bytes w + byts) (pollsLeft w))
    | ChanSend dl => fun w =>
        (Sent, mkWorld (clock w) (errorFile w) (csvBuffer w)
                 (taken w ++ [Batchwriter.Line dl])
                 (total w) (dns w) (packets w) (bytes w) (pollsLeft w))
    | ChanSendTimeout dl _ => fun w =>
        (Sent, mkWorld (clock w) (errorFile w) (csvBuffer w)
                 (taken w ++ [Batchwriter.Line dl])
                 (total w) (dns w) (packets w) (bytes w) (pollsLeft w))
    | ErrorLog e' => handleErrorLog _ e'
    end.

Definition emptyWorld (t : Time) : World :=
  mkWorld t [] [] [] 0 0 0 0 None.

End IngestWorld.

(* ===================================================================== *)
(** * Facts about the library functions *)
(* ===================================================================== *)

Module GoFacts.
Import Go.

Lemma sapp_cons c a b : String c a +:+ b = String c (a +:+ b).
Proof. reflexivity. Qed.

Lemma sapp_nil_l s : "" +:+ s = s.
Proof. reflexivity. Qed.

Lemma sapp_nil_r s : s +:+ "" = s.
Proof. induction s as [|c s IH]; [done|]. by rewrite sapp_cons, IH. Qed.

Lemma sapp_assoc a b c : (a +:+ b) +:+ c = a +:+ (b +:+ c).
Proof. induction a as [|x a IH]; [done|]. by rewrite !sapp_cons, IH. Qed.

Lemma length_sapp a b :
  String.length (a +:+ b) = (String.length a + String.length b)%nat.
Proof. induction a as [|x a IH]; [done|]. rewrite sapp_cons. simpl. by rewrite IH. Qed.

Lemma len_app a b : len (a +:+ b) = len a + len b.
Proof. unfold len. rewrite length_sapp. lia. Qed.

Lemma len_nonneg s : 0 <= len s.
Proof. unfold len. lia. Qed.

Lemma len_zero s : len s = 0 -> s = "".
Proof. destruct s; [done|]. unfold len. simpl. lia. Qed.

Lemma stake_sdrop n s : stake n s +:+ sdrop n s = s.
Proof.
  revert s. induction n as [|n IH]; intros [|c s]; try done.
  simpl. by rewrite sapp_cons, IH.
Qed.

Lemma sdrop_app a b : sdrop (String.length a) (a +:+ b) = b.
Proof. induction a as [|c a IH]; [by destruct b|]. rewrite sapp_cons. simpl. exact IH. Qed.

Lemma stake_app a b : stake (String.length a) (a +:+ b) = a.
Proof.
  induction a as [|c a IH]; [by destruct b|]. rewrite sapp_cons. simpl. by rewrite IH.
Qed.

Lemma length_stake n s :
  String.length (stake n s) = Nat.min n (String.length s).
Proof.
  revert s. induction n as [|n IH]; intros [|c s]; try done.
  simpl. by rewrite IH.
Qed.

Lemma length_sdrop n s :
  String.length (sdrop n s) = (String.length s - n)%nat.
Proof.
  revert s. induction n as [|n IH]; intros [|c s]; simpl;
    first [done | lia | apply IH].
Qed.

Lemma HasSuffix_app a b : HasSuffix (a +:+ b) b = true.
Proof.
  unfold HasSuffix. rewrite length_sapp.
  apply andb_true_iff. split; [apply Nat.leb_le; lia|].
  replace (String.length a + String.length b - String.length b)%nat
    with (String.length a) by lia.
  rewrite sdrop_app. apply String.eqb_refl.
Qed.

Lemma HasSuffix_inv s sfx :
  HasSuffix s sfx = true ->
  s = stake (String.length s - String.length sfx) s +:+ sfx.
Proof.
  unfold HasSuffix. intros [_ H]%andb_true_iff.
  apply String.eqb_eq in H.
  rewrite <- H at 2. by rewrite stake_sdrop.
Qed.

(** ** Split, Clean and Join keep a suffix without slashes *)

Fixpoint noSep (sep : ascii) (s : string) : bool :=
  match s with
  | EmptyString => true
  | String c r => negb (Ascii.eqb c sep) && noSep sep r
  end.

Lemma Split_noSep sep t : noSep sep t = true -> Split t sep = [t].
Proof.
  induction t as [|c t IH]; [done|]. simpl.
  intros [Hc Ht]%andb_true_iff. apply negb_true_iff in Hc.
  rewrite Hc, (IH Ht). done.
Qed.

Lemma Split_cons c r sep :
  Split (String c r) sep
  = if Ascii.eqb c sep then "" :: Split r sep
    else match Split r sep with
         | f :: fs => String c f :: fs
         | [] => [String c ""]
         end.
Proof. reflexivity. Qed.

Lemma Split_app_noSep sep s :
  exists init last,
    Split s sep = init ++ [last]
    /\ forall t, noSep sep t = true -> Split (s +:+ t) sep = init ++ [last +:+ t].
Proof.
  induction s as [|c s (init & last & Hs & Hst)].
  - exists [], "". split; [done|]. intros t Ht. by apply Split_noSep.
  - destruct (Ascii.eqb c sep) eqn:Hc.
    + exists ("" :: init), last. rewrite Split_cons, Hc, Hs. split; [done|].
      intros t Ht. by rewrite sapp_cons, Split_cons, Hc, Hst.
    + destruct init as [|f init].
      * exists [], (String c last). rewrite Split_cons, Hc, Hs. split; [done|].
        intros t Ht. by rewrite sapp_cons, Split_cons, Hc, Hst.
      * exists (String c f :: init), last. rewrite Split_cons, Hc, Hs.
        split; [done|].
        intros t Ht. by rewrite sapp_cons, Split_cons, Hc, Hst.
Qed.

Lemma joinSlash_snoc l e :
  joinSlash (l ++ [e])
  = match l with [] => e | _ => joinSlash l +:+ "/" +:+ e end.
Proof.
  induction l as [|a l IH]; [done|].
  destruct l as [|b l]; [done|].
  change (joinSlash ((a :: b :: l) ++ [e]))
    with (a +:+ "/" +:+ joinSlash ((b :: l) ++ [e])).
  rewrite IH.
  change (joinSlash (a :: b :: l)) with (a +:+ "/" +:+ joinSlash (b :: l)).
  by rewrite !sapp_assoc.
Qed.

Lemma length_ge3_regular e t :
  (3 <= String.length t)%nat ->
  String.eqb (e +:+ t) "" = false /\ String.eqb (e +:+ t) "." = false
  /\ String.eqb (e +:+ t) ".." = false.
Proof.
  intros Ht. split_and!; apply String.eqb_neq; intros Heq;
    apply (f_equal String.length) in Heq; rewrite length_sapp in Heq;
    simpl in Heq; lia.
Qed.

Lemma isRooted_app p t :
  noSep "/" t = true -> isRooted (p +:+ t) = isRooted p.
Proof.
  intros Ht. destruct p as [|c p]; [|done].
  destruct t as [|c t]; [done|]. simpl in *.
  apply andb_true_iff in Ht as [Hc _]. by apply negb_true_iff in Hc.
Qed.

(** Cleaning a path that ends in a suffix without slashes, of three bytes
    or more, keeps the suffix; what stands before it does not depend on
    the suffix. *)
Lemma Clean_suffix p :
  exists stem, forall t,
    noSep "/" t = true -> (3 <= String.length t)%nat ->
    Clean (p +:+ t) = stem +:+ t.
Proof.
  destruct (Split_app_noSep "/" p) as (init & last & Hs & Hst).
  set (st := fold_left (cleanStep (isRooted p)) init []).
  exists ((if isRooted p then "/" else "")
          +:+ match rev st with
              | [] => last
              | _ => joinSlash (rev st) +:+ "/" +:+ last
              end).
  intros t Hns Hlen. unfold Clean.
  rewrite isRooted_app, Hst by done.
  rewrite fold_left_app. fold st. simpl.
  destruct (length_ge3_regular last t Hlen) as (H1 & H2 & H3).
  assert (Hpush : cleanStep (isRooted p) st (last +:+ t) = (last +:+ t) :: st).
  { unfold cleanStep. by rewrite H1, H2, H3. }
  rewrite Hpush. simpl. rewrite joinSlash_snoc.
  destruct (isRooted p); destruct (rev st) as [|a l];
    rewrite ?sapp_nil_l, ?sapp_assoc; done.
Qed.

Lemma Join_suffix dir name :
  exists stem, forall t,
    noSep "/" t = true -> (3 <= String.length t)%nat ->
    Join dir (name +:+ t) = stem +:+ t.
Proof.
  unfold Join. destruct (String.eqb dir "") eqn:Hd; simpl.
  - destruct (Clean_suffix name) as [stem Hstem]. exists stem.
    intros t Hns Hlen.
    destruct (length_ge3_regular name t Hlen) as (-> & _). simpl. auto.
  - destruct (Clean_suffix (dir +:+ "/" +:+ name)) as [stem Hstem].
    exists stem. intros t Hns Hlen. rewrite <- Hstem by done.
    by rewrite !sapp_assoc.
Qed.

Lemma sdrop_app_plus a b k :
  sdrop (String.length a + k) (a +:+ b) = sdrop k b.
Proof. induction a as [|c a IH]; [done|]. rewrite sapp_cons. simpl. exact IH. Qed.

(** A name cannot end both in ".csv.gz" and in ".part". *)
Lemma csvgz_not_part s : HasSuffix s ".csv.gz" = true -> HasSuffix s ".part" = false.
Proof.
  intros H. rewrite (HasSuffix_inv _ _ H).
  set (a := stake _ s). unfold HasSuffix.
  rewrite length_sapp. simpl String.length.
  replace (String.length a + 7 - 5)%nat with (String.length a + 2)%nat by lia.
  rewrite sdrop_app_plus. simpl. apply andb_false_r.
Qed.

Lemma Join_csvgz dir name :
  HasSuffix name ".csv.gz" = true -> HasSuffix (Join dir name) ".csv.gz" = true.
Proof.
  intros H. rewrite (HasSuffix_inv _ _ H).
  destruct (Join_suffix dir (stake (String.length name - String.length ".csv.gz") name))
    as [stem Hstem].
  rewrite (Hstem ".csv.gz") by (done || (simpl; lia)). apply HasSuffix_app.
Qed.

Lemma wrap64_id z : - 2 ^ 63 <= z < 2 ^ 63 -> wrap64 z = z.
Proof.
  intros H. unfold wrap64.
  rewrite Z.mod_small by lia. lia.
Qed.

End GoFacts.

(* ===================================================================== *)
(** * Properties of the validator *)
(* ===================================================================== *)

Module ValidatorSpec.
Import Go Validator.

(** Integer-valued arithmetic as a [Float64]: the values are integers,
    division truncates, and only signed decimal integers parse. It
    satisfies [Float64Exact] and serves to run the validator on concrete
    lines. *)
#[local] Instance IntFloat64 : Float64 := {|
  float64 := Z;
  f64_ofInt := fun n => n;
  f64_div := Z.div;
  f64_lt := Z.ltb;
  ParseFloat := ParseInt
|}.



Section Properties.

Context `{F64 : Float64}.
Variable parseIPv6Mapped : string -> bool.

Local Abbreviation ValidateLine := (ValidateLine parseIPv6Mapped).
Local Abbreviation isIPv4 := (isIPv4 parseIPv6Mapped).
Local Abbreviation checks := (checks parseIPv6Mapped).

Lemma firstFailure_checks line now :
  ValidateLine line now = firstFailure (checks line now).
Proof.
  unfold Validator.ValidateLine, Validator.checks, tsMinOk, tsMaxOk.
  set (fields := Split line ",").
  destruct (parseEpochSeconds (field fields 7)) as [tmin|] eqn:Hmin;
    destruct (parseEpochSeconds (field fields 8)) as [tmax|] eqn:Hmax;
    cbn [firstFailure passes reason];
    repeat match goal with
           | |- context [bool_decide (is_Some (Some ?x))] =>
               rewrite (bool_decide_eq_true_2 (is_Some (Some x))) by (by eexists)
           | |- context [bool_decide (is_Some None)] =>
               rewrite (bool_decide_eq_false_2 (is_Some (@None float64)))
                 by (by intros [? ?])
           | |- context [if negb ?b then _ else _] => destruct b; cbn [negb andb]
           | |- context [if ?b then _ else _] => destruct b; cbn [negb andb]
           end; reflexivity.
Qed.

(** The groups of [checks] come in the order (1) .. (6). *)
Lemma checks_in_order line now :
  map (fun c => groupRank (group c)) (checks line now)
  = [1; 2; 2; 3; 3; 4; 4; 4; 5; 5; 6; 6]%nat.
Proof. reflexivity. Qed.

Lemma column_count_rejected line now :
  length (Split line ",") <> 11%nat ->
  ValidateLine line now = (false, "column count != 11").
Proof.
  intros H. unfold Validator.ValidateLine.
  destruct (Nat.eqb_spec (length (Split line ",")) 11); [done | reflexivity].
Qed.

Lemma window_reversed_rejected line now a b :
  let fields := Split line "," in
  length fields = 11%nat ->
  isIPv4 (TrimSpace (field fields 0)) = true ->
  isIPv4 (TrimSpace (field fields 1)) = true ->
  validPort (field fields 2) = true ->
  validPort (field fields 3) = true ->
  validByte (field fields 4) = true ->
  validByte (field fields 5) = true ->
  validByte (field fields 6) = true ->
  ParseFloat (TrimSpace (field fields 7)) = Some a ->
  ParseFloat (TrimSpace (field fields 8)) = Some b ->
  f64_lt b a = true ->
  exists r, ValidateLine line now = (false, r) /\ isTimestampReason r = true.
Proof.
  intros fields Hlen H0 H1 H2 H3 H4 H5 H6 Ha Hb Hlt.
  unfold Validator.ValidateLine. fold fields.
  rewrite Hlen, H0, H1, H2, H3, H4, H5, H6. simpl.
  unfold parseEpochSeconds. rewrite Ha, Hb.
  destruct (String.eqb (TrimSpace (field fields 7)) ""); [by eexists|].
  destruct (f64_lt a (f64_ofInt 0)); [by eexists|].
  destruct (String.eqb (TrimSpace (field fields 8)) ""); [by eexists|].
  destruct (f64_lt b (f64_ofInt 0)); [by eexists|].
  rewrite Hlt. by eexists.
Qed.

(** C6. ValidateLine runs the checks in the order (1) field count, (2) IPs,
    (3) ports, (4) flags/protocol/ToS, (5) timestamps, (6) counts and
    returns the reason of the first check that fails. A line whose number
    of comma-separated fields is not 11 is rejected with the column-count
    reason whatever else it holds, and an 11-field line whose IPs, ports
    and bytes are valid and whose window start parses to a greater float
    than its window end is rejected with a timestamp reason. *)
Theorem ValidateLine_first_failing_check :
  (forall line now,
     ValidateLine line now = firstFailure (checks line now)
     /\ map (fun c => groupRank (group c)) (checks line now)
        = [1; 2; 2; 3; 3; 4; 4; 4; 5; 5; 6; 6]%nat)
  /\ (forall line now,
        length (Split line ",") <> 11%nat ->
        exists r, ValidateLine line now = (false, r) /\ isColumnCountReason r = true)
  /\ (forall line now a b,
        let fields := Split line "," in
        length fields = 11%nat ->
        isIPv4 (TrimSpace (field fields 0)) = true ->
        isIPv4 (TrimSpace (field fields 1)) = true ->
        validPort (field fields 2) = true ->
        validPort (field fields 3) = true ->
        validByte (field fields 4) = true ->
        validByte (field fields 5) = true ->
        validByte (field fields 6) = true ->
        ParseFloat (TrimSpace (field fields 7)) = Some a ->
        ParseFloat (TrimSpace (field fields 8)) = Some b ->
        f64_lt b a = true ->
        exists r, ValidateLine line now = (false, r) /\ isTimestampReason r = true).
Proof.
  split; [|split].
  - intros. split; [apply firstFailure_checks | apply checks_in_order].
  - intros line now H. eexists. split; [by apply column_count_rejected | done].
  - intros. by eapply window_reversed_rejected.
Qed.

End Properties.

Definition sampleLine : string :=
  "10.0.0.1,10.0.0.2,1234,80,24,6,0,1700000000,1700000005,10,1500".

Section Accepts.

Context `{FE : Float64Exact}.
Variable parseIPv6Mapped : string -> bool.

Local Abbreviation ValidateLine := (ValidateLine parseIPv6Mapped).
Local Abbreviation isIPv4 := (isIPv4 parseIPv6Mapped).








End Accepts.

(** A reading of the clock at 2023-11-14 22:13:25 UTC, 1700000005 seconds
    after the epoch. *)
Definition sampleNow : Time :=
  mkTime (1700000005 * 10 ^ 9) 2023 11 14 22 13 25.

Definition reversedLine : string :=
  "10.0.0.1,10.0.0.2,1234,80,24,6,0,1700000005,1700000000,10,1500".

Lemma ValidateLine_first_failing_check_witness :
  (exists r, Validator.ValidateLine (fun _ => false) "1,2,3" sampleNow = (false, r)
             /\ isColumnCountReason r = true)
  /\ (exists r, Validator.ValidateLine (fun _ => false) reversedLine sampleNow = (false, r)
                /\ isTimestampReason r = true).
Proof.
  pose proof (ValidateLine_first_failing_check (F64 := IntFloat64) (fun _ => false))
    as (_ & Hcount & Hwindow).
  split.
  - apply Hcount. vm_compute. discriminate.
  - apply (Hwindow reversedLine sampleNow 1700000005 1700000000); reflexivity.
Defined.


End ValidatorSpec.

(* ===================================================================== *)
(** * Runs of programs *)
(* ===================================================================== *)

Module IOFacts.
Import IO.

Section Facts.

Context {E : Type -> Type} {W : Type} (h : Handler E W).

Lemma run_bind {A B : Type} (p : Prog E A) (f : A -> Prog E B) (w : W) :
  run h (bind p f) w =
  let '(a, w1, t1) := run h p w in
  let '(b, w2, t2) := run h (f a) w1 in
  (b, w2, t1 ++ t2).
Proof.
  revert w. induction p as [a | X e k IH]; intros w; simpl.
  - destruct (run h (f a) w) as [[b w2] t2]. reflexivity.
  - destruct (h X e w) as [x w1]. rewrite IH.
    destruct (run h (k x) w1) as [[a w2] t1].
    destruct (run h (f a) w2) as [[b w3] t2]. reflexivity.
Qed.

Lemma run_call {X : Type} (e : E X) (w : W) :
  run h (call e) w = let '(x, w1) := h X e w in (x, w1, [Ev e x]).
Proof. simpl. destruct (h X e w). reflexivity. Qed.

Lemma run_Ret {A : Type} (a : A) (w : W) : run h (Ret a) w = (a, w, []).
Proof. reflexivity. Qed.

Lemma run_Vis {A X : Type} (e : E X) (k : X -> Prog E A) (w : W) :
  run h (Vis e k) w =
  let '(x, w1) := h X e w in
  let '(a, w2, tr) := run h (k x) w1 in
  (a, w2, Ev e x :: tr).
Proof. reflexivity. Qed.

Lemma OnlyCalls_bind {A B : Type} (P : forall X, E X -> Prop)
    (p : Prog E A) (f : A -> Prog E B) :
  OnlyCalls P p -> (forall a, OnlyCalls P (f a)) -> OnlyCalls P (bind p f).
Proof.
  intros Hp Hf. induction Hp as [a | X e k He Hk IH]; simpl; [apply Hf|].
  constructor; [done|]. intros x. apply IH.
Qed.

Lemma OnlyCalls_call {X : Type} (P : forall X, E X -> Prop) (e : E X) :
  P X e -> OnlyCalls P (call e).
Proof. intros He. constructor; [done|]. intros x. constructor. Qed.

Lemma OnlyCalls_weaken {A : Type} (P Q : forall X, E X -> Prop) (p : Prog E A) :
  (forall X e, P X e -> Q X e) -> OnlyCalls P p -> OnlyCalls Q p.
Proof.
  intros HPQ Hp. induction Hp as [a | X e k He Hk IH]; constructor; auto.
Qed.

(** What holds of every call a program can make holds of every call in the
    trace of a run. *)
Lemma OnlyCalls_run {A : Type} (P : forall X, E X -> Prop) (p : Prog E A) (w : W) :
  OnlyCalls P p ->
  Forall (fun ev => match ev with Ev e _ => P _ e end) (run h p w).2.
Proof.
  intros Hp. revert w. induction Hp as [a | X e k He Hk IH]; intros w; simpl.
  - constructor.
  - destruct (h X e w) as [x w1]. specialize (IH x w1).
    destruct (run h (k x) w1) as [[a w2] tr]. simpl in *. by constructor.
Qed.

End Facts.

(** Reduce [run] and [bind] without unfolding the methods. *)
Tactic Notation "psimpl" "in" hyp(H) :=
  cbn [run bind call fst snd] in H.
Tactic Notation "psimpl" := cbn [run bind call fst snd].

(** Run one call: name the answer and the world after it. *)
Ltac run_call :=
  match goal with
  | |- context [let '(_, _) := ?h ?X ?e ?w in _] =>
      let x := fresh "x" in
      let w' := fresh "w" in
      let Hx := fresh "Hcall" in
      destruct (h X e w) as [x w'] eqn:Hx
  | H : context [let '(_, _) := ?h ?X ?e ?w in _] |- _ =>
      let x := fresh "x" in
      let w' := fresh "w" in
      let Hx := fresh "Hcall" in
      destruct (h X e w) as [x w'] eqn:Hx
  end.

(** Run one call and split its answer by cases when it is a boolean, an
    error, or a value or an error. *)
Ltac run_case :=
  match goal with
  | |- context [let '(_, _) := ?h ?X ?e ?w in _] =>
      let x := fresh "x" in
      let w' := fresh "w" in
      destruct (h X e w) as [x w'];
      lazymatch X with
      | bool => destruct x
      | option _ => destruct x
      | sum _ _ => destruct x
      | _ => idtac
      end
  | H : context [let '(_, _) := ?h ?X ?e ?w in _] |- _ =>
      let x := fresh "x" in
      let w' := fresh "w" in
      destruct (h X e w) as [x w'];
      lazymatch X with
      | bool => destruct x
      | option _ => destruct x
      | sum _ _ => destruct x
      | _ => idtac
      end
  end.

End IOFacts.

(* ===================================================================== *)
(** * Properties of the BatchWriter under any handler *)
(* ===================================================================== *)

Module BatchwriterFacts.
Import Go GoFacts IO IOFacts Batchwriter.

#[local] Arguments rotateFile : simpl never.
#[local] Arguments writeLines : simpl never.
#[local] Arguments shouldRotate : simpl never.
#[local] Arguments closeAndRenameCurrentFile : simpl never.
#[local] Arguments flushAndRotate : simpl never.
#[local] Arguments WriteBatch : simpl never.
#[local] Arguments Flush : simpl never.
#[local] Arguments Close : simpl never.

Lemma batchBytes_nonneg lines : 0 <= batchBytes lines.
Proof.
  induction lines as [|dl lines IH]; simpl; [lia|].
  pose proof (len_nonneg (Line dl)). lia.
Qed.

Lemma len_newline : len newline = 1.
Proof. reflexivity. Qed.

(** ** Names *)

Definition partStem (prefix : string) (now : Time) (index : Z) : string :=
  prefix +:+ FormatStamp now +:+ "_" +:+ fmtZeroPad 3 index.

Lemma partName_stem prefix now index :
  partName prefix now index = partStem prefix now index +:+ ".part".
Proof. unfold partName, partStem. by rewrite !sapp_assoc. Qed.

Lemma finalPathOf_part stem : finalPathOf (stem +:+ ".part") = stem +:+ ".csv.gz".
Proof.
  unfold finalPathOf. rewrite length_sapp. simpl String.length.
  replace (String.length stem + 5 - 5)%nat with (String.length stem) by lia.
  rewrite sdrop_app, stake_app.
  replace (5 <=? String.length stem + 5)%nat with true
    by (symmetry; apply Nat.leb_le; lia).
  reflexivity.
Qed.

(** The path of an archive in progress and the path it is published under
    share their stem. *)
Lemma partPath_stem dir prefix now index :
  exists stem,
    Join dir (partName prefix now index) = stem +:+ ".part"
    /\ Join dir (partStem prefix now index +:+ ".csv.gz") = stem +:+ ".csv.gz"
    /\ finalPathOf (Join dir (partName prefix now index)) = stem +:+ ".csv.gz".
Proof.
  destruct (Join_suffix dir (partStem prefix now index)) as [stem Hstem].
  exists stem. rewrite partName_stem.
  rewrite (Hstem ".part"), (Hstem ".csv.gz") by (done || (simpl; lia)).
  split_and!; [done | done | apply finalPathOf_part].
Qed.

Lemma partPath_nonempty dir prefix now index :
  Join dir (partName prefix now index) <> "".
Proof.
  destruct (partPath_stem dir prefix now index) as (stem & -> & _).
  intros H. apply (f_equal String.length) in H.
  rewrite length_sapp in H. simpl in H. lia.
Qed.

Lemma sinceCalls_app a b : sinceCalls (a ++ b) = sinceCalls a ++ sinceCalls b.
Proof. apply flat_map_app. Qed.

Lemma createCalls_app a b : createCalls (a ++ b) = createCalls a ++ createCalls b.
Proof. apply flat_map_app. Qed.

Lemma renameCalls_app a b : renameCalls (a ++ b) = renameCalls a ++ renameCalls b.
Proof. apply flat_map_app. Qed.

Lemma writeCalls_app a b : writeCalls (a ++ b) = writeCalls a ++ writeCalls b.
Proof. apply flat_map_app. Qed.

Lemma sinceCalls_cons ev t : sinceCalls (ev :: t) = sinceCalls [ev] ++ sinceCalls t.
Proof. apply (sinceCalls_app [ev]). Qed.

Lemma createCalls_cons ev t : createCalls (ev :: t) = createCalls [ev] ++ createCalls t.
Proof. apply (createCalls_app [ev]). Qed.

Lemma renameCalls_cons ev t : renameCalls (ev :: t) = renameCalls [ev] ++ renameCalls t.
Proof. apply (renameCalls_app [ev]). Qed.

Lemma writeCalls_cons ev t : writeCalls (ev :: t) = writeCalls [ev] ++ writeCalls t.
Proof. apply (writeCalls_app [ev]). Qed.



Section AnyHandler.

Context {W : Type} (h : Handler Op W).

Lemma shouldRotate_rule bw w :
  configInRange bw ->
  exists elapsed w',
    h _ (TimeSince (startTime bw)) w = (elapsed, w')
    /\ run h (shouldRotate bw) w
       = (rotationDue (rotateIntervalSec bw) (rotateSizeMB bw) elapsed (writtenBytes bw),
          w', [Ev (TimeSince (startTime bw)) elapsed]).
Proof.
  intros (Hi1 & Hi2 & Hs1 & Hs2).
  destruct (h _ (TimeSince (startTime bw)) w) as [elapsed w'] eqn:Hs.
  exists elapsed, w'. split; [reflexivity|].
  unfold shouldRotate. simpl. rewrite Hs. unfold rotationDue.
  rewrite (wrap64_id (rotateIntervalSec bw * 1000000000)) by lia.
  rewrite (wrap64_id (rotateSizeMB bw * 1024)) by lia.
  rewrite (wrap64_id (rotateSizeMB bw * 1024 * 1024)) by lia.
  replace (rotateSizeMB bw * 1024 * 1024) with (rotateSizeMB bw * 2 ^ 20) by lia.
  replace (rotateIntervalSec bw * 1000000000)
    with (rotateIntervalSec bw * 10 ^ 9) by lia.
  destruct (rotateIntervalSec bw * 10 ^ 9 <=? elapsed); simpl; [reflexivity|].
  destruct (rotateSizeMB bw * 2 ^ 20 <=? writtenBytes bw); reflexivity.
Qed.

(** A successful rotateFile: the archive is created under the name built
    from the prefix, the time read and the index; the counter restarts at
    zero and the creation time is the time read. *)
Lemma rotateFile_success bw w bw' w' tr :
  run h (rotateFile bw) w = (bw', None, w', tr) ->
  exists now f g b,
    let path := Join (dataDir bw) (partName (filePrefix bw) now (fileIndex bw)) in
    bw' = mkBatchWriter (dataDir bw) (filePrefix bw) (rotateIntervalSec bw)
            (rotateSizeMB bw) (Some b) (Some g) (Some f) path 0 now
            (wrap64 (fileIndex bw + 1)) (closed bw)
    /\ tr = [Ev TimeNow now; Ev (OsCreate path) (inl f);
             Ev (GzipNewWriter f) g; Ev (BufioNewWriterSize g (4 * 1024 * 1024)) b].
Proof.
  unfold rotateFile. simpl. intros H.
  run_call. run_call. destruct x0 as [f | err]; simpl in H.
  - run_call. run_call. simpl in H. inversion H; subst.
    by exists x, f, x0, x1.
  - inversion H.
Qed.

Lemma rotateFile_failure bw w bw' e w' tr :
  run h (rotateFile bw) w = (bw', Some e, w', tr) ->
  createCalls tr <> [] /\ renameCalls tr = [] /\ closed bw' = closed bw
  /\ file bw' = file bw.
Proof.
  unfold rotateFile. simpl. intros H.
  run_call. run_call. destruct x0 as [f | err]; simpl in H.
  - run_call. run_call. inversion H.
  - inversion H; subst. simpl. done.
Qed.

Lemma set_writtenBytes_same bw : set_writtenBytes (writtenBytes bw) bw = bw.
Proof. by destruct bw. Qed.


(** A successful closeAndRenameCurrentFile of a writer with a path: the
    gzip writer and the file are given up and the path is renamed to its
    final name. *)
Lemma closeAndRename_success bw w bw' w' tr :
  currentPath bw <> "" ->
  run h (closeAndRenameCurrentFile bw) w = (bw', None, w', tr) ->
  bw' = set_file None (set_gzipWriter None bw)
  /\ renameCalls tr = [(currentPath bw, finalPathOf (currentPath bw), None)]
  /\ sinceCalls tr = [] /\ createCalls tr = [] /\ writeCalls tr = [].
Proof.
  intros Hp H. unfold closeAndRenameCurrentFile in H.
  apply String.eqb_neq in Hp.
  destruct bw as [dd fp ri rs bf gz fl cp wb st fi cl]. simpl in *.
  destruct gz as [g|]; simpl in H.
  - run_call. destruct x as [e|]; simpl in H; [inversion H|].
    destruct fl as [f|]; simpl in H.
    + run_call. destruct x as [e|]; simpl in H; [inversion H|].
      rewrite Hp in H. simpl in H. run_call.
      destruct x as [e|]; simpl in H; inversion H; subst. done.
    + rewrite Hp in H. simpl in H. run_call.
      destruct x as [e|]; simpl in H; inversion H; subst. done.
  - destruct fl as [f|]; simpl in H.
    + run_call. destruct x as [e|]; simpl in H; [inversion H|].
      rewrite Hp in H. simpl in H. run_call.
      destruct x as [e|]; simpl in H; inversion H; subst. done.
    + rewrite Hp in H. simpl in H. run_call.
      destruct x as [e|]; simpl in H; inversion H; subst. done.
Qed.

(** Whatever happens in closeAndRenameCurrentFile, the closed flag stays. *)
Lemma closeAndRename_closed bw w :
  closed (run h (closeAndRenameCurrentFile bw) w).1.1.1 = closed bw.
Proof.
  unfold closeAndRenameCurrentFile.
  destruct bw as [dd fp ri rs bf gz fl cp wb st fi cl]. simpl.
  destruct gz as [g|]; simpl; [run_call; destruct x; simpl; [done|]|];
    (destruct fl as [f|]; simpl; [run_call; destruct x; simpl; [done|]|]);
    (destruct (String.eqb cp ""); simpl; [done|]);
    run_call; destruct x; done.
Qed.

Lemma rotateFile_active bw w bw' w' tr :
  run h (rotateFile bw) w = (bw', None, w', tr) ->
  hasActiveArchive bw' /\ writtenBytes bw' = 0 /\ closed bw' = closed bw
  /\ rotateIntervalSec bw' = rotateIntervalSec bw
  /\ rotateSizeMB bw' = rotateSizeMB bw
  /\ sinceCalls tr = [] /\ renameCalls tr = []
  /\ exists f, createCalls tr = [(currentPath bw', inl f)].
Proof.
  intros H. apply rotateFile_success in H as (now & f & g & b & -> & ->).
  simpl. split_and!; try done.
  - split_and!; try by eexists. apply partPath_nonempty.
  - by exists f.
Qed.

Lemma flushAndRotate_success bw w bw' w' tr :
  currentPath bw <> "" ->
  run h (flushAndRotate bw) w = (bw', None, w', tr) ->
  hasActiveArchive bw' /\ writtenBytes bw' = 0 /\ closed bw' = closed bw
  /\ rotateIntervalSec bw' = rotateIntervalSec bw
  /\ rotateSizeMB bw' = rotateSizeMB bw
  /\ sinceCalls tr = []
  /\ renameCalls tr = [(currentPath bw, finalPathOf (currentPath bw), None)]
  /\ exists f, createCalls tr = [(currentPath bw', inl f)].
Proof.
  intros Hp H. unfold flushAndRotate in H.
  destruct (buffer bw) as [b|] eqn:Hb; [|inversion H].
  psimpl in H. run_call. destruct x as [e|]; psimpl in H; [inversion H|].
  rewrite run_bind in H.
  destruct (run h (closeAndRenameCurrentFile bw) w0) as [[[bw1 e1] w1] t1] eqn:H1.
  psimpl in H. destruct e1 as [e1|]; psimpl in H; [inversion H|].
  rewrite run_bind in H.
  destruct (run h (rotateFile bw1) w1) as [[[bw2 e2] w2] t2] eqn:H2.
  psimpl in H. destruct e2 as [e2|]; psimpl in H; inversion H; subst. clear H.
  apply closeAndRename_success in H1 as (-> & Hr1 & Hs1 & Hc1 & _); [|done].
  apply rotateFile_active in H2 as (Ha & Hw & Hcl & Hri & Hrs & Hs2 & Hr2 & f & Hc2).
  simpl. rewrite !app_nil_r.
  rewrite sinceCalls_app, renameCalls_app, createCalls_app.
  rewrite Hr1, Hs1, Hc1, Hs2, Hr2, Hc2.
  split_and!; try done. by exists f.
Qed.


(** The first WriteBatch of a writer opens an archive and goes on as on a
    writer with that archive. *)
Lemma WriteBatch_first bw w lines bw1 w1 tr1 :
  closed bw = false -> file bw = None ->
  run h (rotateFile bw) w = (bw1, None, w1, tr1) ->
  run h (WriteBatch bw lines) w
  = let '(r, w2, tr2) := run h (WriteBatch bw1 lines) w1 in (r, w2, tr1 ++ tr2).
Proof.
  intros Hcl Hf H1. pose proof H1 as Hact.
  apply rotateFile_active in Hact as ((Hf1 & _) & _ & Hcl1 & _).
  unfold WriteBatch. rewrite Hcl, Hf. rewrite Hcl1, Hcl.
  destruct Hf1 as [f1 ->].
  rewrite (run_bind h (r <- rotateFile bw;; _)%prog).
  rewrite (run_bind h (rotateFile bw)), H1. psimpl.
  destruct (run h _ w1) as [[b w2] t2]. by rewrite app_nil_r.
Qed.


(** ** A closed writer *)

(** A Close that returns nil on an open writer with a path: the path is
    renamed to its final name, once, and no file is created. *)
Lemma Close_publishes bw w bw' w' tr :
  closed bw = false ->
  currentPath bw <> "" ->
  run h (Close bw) w = (bw', None, w', tr) ->
  renameCalls tr = [(currentPath bw, finalPathOf (currentPath bw), None)]
  /\ createCalls tr = [] /\ sinceCalls tr = [] /\ writeCalls tr = []
  /\ bw' = set_file None (set_gzipWriter None (set_closed true bw)).
Proof.
  intros Hc Hp H. unfold Close in H. rewrite Hc in H. cbv zeta in H.
  assert (Hp' : currentPath (set_closed true bw) <> "") by (by destruct bw).
  assert (Hcp : currentPath (set_closed true bw) = currentPath bw) by (by destruct bw).
  rewrite run_bind in H.
  destruct (buffer (set_closed true bw)) as [b|].
  - psimpl in H. run_call. destruct x as [e|]; psimpl in H; [inversion H|].
    rewrite run_bind in H.
    destruct (run h (closeAndRenameCurrentFile (set_closed true bw)) w0)
      as [[[bw1 e1] w1] t1] eqn:H1.
    psimpl in H. destruct e1 as [e1|]; psimpl in H; inversion H; subst; clear H.
    apply closeAndRename_success in H1 as (-> & Hr & Hs & Hcr & Hw); [|done].
    rewrite !app_nil_r. cbn [app].
    rewrite renameCalls_cons, createCalls_cons, sinceCalls_cons, writeCalls_cons.
    rewrite Hr, Hs, Hcr, Hw, Hcp. done.
  - psimpl in H. rewrite run_bind in H.
    destruct (run h (closeAndRenameCurrentFile (set_closed true bw)) w)
      as [[[bw1 e1] w1] t1] eqn:H1.
    psimpl in H. destruct e1 as [e1|]; psimpl in H; inversion H; subst; clear H.
    apply closeAndRename_success in H1 as (-> & Hr & Hs & Hcr & Hw); [|done].
    rewrite !app_nil_r. cbn [app].
    rewrite Hr, Hs, Hcr, Hw, Hcp. done.
Qed.

Definition resultWhenClosed (c : ApiCall) : error :=
  match c with
  | CallWriteBatch _ => Some (ErrNew "batch writer is closed")
  | CallFlush => None
  | CallClose => None
  end.

Lemma closed_method c bw :
  closed bw = true -> callMethod c bw = Ret (bw, resultWhenClosed c).
Proof.
  intros Hc. destruct c; simpl;
    unfold WriteBatch, Flush, Close; by rewrite Hc.
Qed.

Lemma Close_closes bw w : closed (run h (Close bw) w).1.1.1 = true.
Proof.
  unfold Close. destruct (closed bw) eqn:Hc; [done|].
  rewrite run_bind.
  destruct (buffer (set_closed true bw)) as [b|]; psimpl.
  - run_call. destruct x as [e|]; psimpl; [done|].
    rewrite run_bind.
    pose proof (closeAndRename_closed (set_closed true bw) w0) as Hk.
    destruct (run h (closeAndRenameCurrentFile _) w0) as [[[bw1 e1] w1] t1].
    simpl in Hk. psimpl. destruct e1; psimpl; done.
  - rewrite run_bind.
    pose proof (closeAndRename_closed (set_closed true bw) w) as Hk.
    destruct (run h (closeAndRenameCurrentFile _) w) as [[[bw1 e1] w1] t1].
    simpl in Hk. psimpl. destruct e1; psimpl; done.
Qed.

Lemma runCalls_closed calls : forall bw w,
  closed bw = true ->
  runCalls h calls bw w
  = (map (fun c => (c, resultWhenClosed c, [])) calls, bw, w).
Proof.
  induction calls as [|c calls IH]; intros bw w Hc; [done|].
  simpl. rewrite (closed_method c bw Hc). psimpl. by rewrite IH.
Qed.

(** C10. After Close has returned nil the writer stays closed: whatever
    calls follow, each WriteBatch returns an error, each Close (and each
    Flush) returns nil, none of them makes any call into the runtime (no
    write, no file created, no flush, close or rename), and the writer is
    left as it was. *)
Theorem closed_writer_stays_closed bw w bw1 w1 tr calls w2 :
  run h (Close bw) w = (bw1, None, w1, tr) ->
  closed bw1 = true
  /\ runCalls h calls bw1 w2
     = (map (fun c => (c, resultWhenClosed c, [])) calls, bw1, w2)
  /\ (forall lines, is_Some (resultWhenClosed (CallWriteBatch lines)))
  /\ resultWhenClosed CallClose = None.
Proof.
  intros H.
  assert (Hc : closed bw1 = true).
  { pose proof (Close_closes bw w) as Hk. by rewrite H in Hk. }
  split_and!; [done | by apply runCalls_closed | by eexists | done].
Qed.

End AnyHandler.

(** A world with one answer for every call, to run the methods on. *)
Definition constHandler : Handler Op unit :=
  fun X e =>
    match e in Op X return unit -> X * unit with
    | TimeNow => fun w => (ValidatorSpec.sampleNow, w)
    | TimeSince _ => fun w => (1000, w)
    | OsCreate _ => fun w => (inl 0%nat, w)
    | GzipNewWriter f => fun w => (f, w)
    | BufioNewWriterSize g _ => fun w => (g, w)
    | BufioWrite _ data => fun w => ((len data, None), w)
    | BufioFlush _ => fun w => (None, w)
    | GzipClose _ => fun w => (None, w)
    | FileClose _ => fun w => (None, w)
    | OsRename _ _ => fun w => (None, w)
    end.

Definition sampleWriter : BatchWriter :=
  (run constHandler (rotateFile (NewBatchWriter "/data" "flows_" 600 1)) tt).1.1.1.

Definition sampleBatch : list DataLine :=
  [mkDataLine ValidatorSpec.sampleLine false].


Lemma closed_writer_stays_closed_witness :
  let r := run constHandler (Close sampleWriter) tt in
  closed r.1.1.1 = true
  /\ runCalls constHandler [CallWriteBatch sampleBatch; CallClose; CallFlush]
       r.1.1.1 tt
     = ([(CallWriteBatch sampleBatch, Some (ErrNew "batch writer is closed"), []);
         (CallClose, None, []); (CallFlush, None, [])], r.1.1.1, tt).
Proof.
  intros r.
  destruct (closed_writer_stays_closed constHandler sampleWriter tt
              r.1.1.1 r.1.2 r.2
              [CallWriteBatch sampleBatch; CallClose; CallFlush] tt)
    as (Hc & Hcalls & _).
  - vm_compute. reflexivity.
  - split; [exact Hc | exact Hcalls].
Defined.

End BatchwriterFacts.

(* ===================================================================== *)
(** * Properties of the Uploader under any handler *)
(* ===================================================================== *)

Module UploaderFacts.
Import Go GoFacts IO IOFacts Uploader.

#[local] Arguments ctxDone : simpl never.
#[local] Arguments makeDirs : simpl never.
#[local] Arguments ensureRemoteDir : simpl never.
#[local] Arguments uploadOpened : simpl never.
#[local] Arguments uploadConnected : simpl never.
#[local] Arguments uploadFile : simpl never.
#[local] Arguments uploadAndRemove : simpl never.
#[local] Arguments uploadAll : simpl never.

Lemma observe_app {A} (f : forall X, Op X -> X -> list A) a b :
  observe f (a ++ b) = observe f a ++ observe f b.
Proof. apply flat_map_app. Qed.

Lemma observe_cons {A} (f : forall X, Op X -> X -> list A) X (e : Op X) x t :
  observe f (Ev e x :: t) = f X e x ++ observe f t.
Proof. reflexivity. Qed.

Lemma observe_nil {A} (f : forall X, Op X -> X -> list A) : observe f [] = [].
Proof. reflexivity. Qed.

(** The calls of ensureRemoteDir: polls of the context, ChangeDir, MakeDir. *)
Definition isDirCall (X : Type) (e : Op X) : Prop :=
  match e with
  | CtxDone _ | FtpChangeDir _ _ | FtpMakeDir _ _ => True
  | _ => False
  end.

Definition dirOnly (tr : Trace) : Prop :=
  Forall (fun ev => match ev with Ev e _ => isDirCall _ e end) tr.

(** [f] sees nothing in the calls of ensureRemoteDir. *)
Definition blindToDirs {A} (f : forall X, Op X -> X -> list A) : Prop :=
  forall X (e : Op X) x, isDirCall X e -> f X e x = [].

Lemma observe_dirOnly {A} (f : forall X, Op X -> X -> list A) tr :
  blindToDirs f -> dirOnly tr -> observe f tr = [].
Proof.
  intros Hf Htr. induction Htr as [|[X e x] tr Hev _ IH]; [done|].
  rewrite observe_cons, IH, (Hf _ _ _ Hev). done.
Qed.

(** A trace without the calls of ensureRemoteDir. *)
Definition isDirEvent (ev : Event Op) : bool :=
  match ev with
  | Ev e _ =>
      match e with
      | CtxDone _ | FtpChangeDir _ _ | FtpMakeDir _ _ => true
      | _ => false
      end
  end.

Fixpoint strip (tr : Trace) : Trace :=
  match tr with
  | [] => []
  | ev :: rest => if isDirEvent ev then strip rest else ev :: strip rest
  end.

Lemma strip_app a b : strip (a ++ b) = strip a ++ strip b.
Proof.
  induction a as [|ev a IH]; [done|]. simpl.
  destruct (isDirEvent ev); by rewrite IH.
Qed.

Lemma strip_dirOnly l : dirOnly l -> strip l = [].
Proof.
  intros Hl. induction Hl as [|[X e x] l Hev _ IH]; [done|].
  simpl. rewrite IH. by destruct e.
Qed.

Lemma observe_strip {A} (f : forall X, Op X -> X -> list A) tr :
  blindToDirs f -> observe f tr = observe f (strip tr).
Proof.
  intros Hf. induction tr as [|[X e x] tr IH]; [done|].
  rewrite observe_cons.
  change (strip (Ev e x :: tr))
    with (if isDirEvent (Ev e x) then strip tr else Ev e x :: strip tr).
  destruct (isDirEvent (Ev e x)) eqn:Hd.
  - rewrite (Hf X e x); [exact IH|]. destruct e; simpl in *; done || discriminate.
  - by rewrite observe_cons, IH.
Qed.

Ltac blind :=
  let e := fresh "e" in
  let Hd := fresh "Hd" in
  intros ? e ? Hd; destruct e; simpl in Hd |- *; (done || contradiction).

Ltac only_calls :=
  repeat first
    [ apply OnlyCalls_Ret
    | apply OnlyCalls_call; simpl; done
    | apply OnlyCalls_bind; [|intros ?]
    | match goal with
      | |- OnlyCalls _ (match ?x with _ => _ end) => destruct x
      | |- OnlyCalls _ (if ?x then _ else _) => destruct x
      end ].

Lemma ctxDone_isDir u : OnlyCalls isDirCall (ctxDone u).
Proof. unfold ctxDone. only_calls. Qed.

Lemma makeDirs_isDir u conn parts : forall cur,
  OnlyCalls isDirCall (makeDirs u conn parts cur).
Proof.
  induction parts as [|part parts IH]; intros cur.
  - constructor.
  - unfold makeDirs; fold makeDirs.
    destruct (String.eqb part ""); [apply IH|].
    apply OnlyCalls_bind; [apply ctxDone_isDir|]. intros done.
    destruct done; [constructor|].
    apply OnlyCalls_bind; [by apply OnlyCalls_call|]. intros [e|]; [|apply IH].
    apply OnlyCalls_bind; [by apply OnlyCalls_call|]. intros _. apply IH.
Qed.

Lemma ensureRemoteDir_isDir u conn dir :
  OnlyCalls isDirCall (ensureRemoteDir u conn dir).
Proof.
  unfold ensureRemoteDir.
  apply OnlyCalls_bind; [apply ctxDone_isDir|]. intros done.
  destruct done; [constructor|].
  apply OnlyCalls_bind; [by apply OnlyCalls_call|]. intros [e|]; [|constructor].
  apply OnlyCalls_bind; [apply makeDirs_isDir|]. intros [e'|]; [constructor|].
  apply OnlyCalls_bind; [by apply OnlyCalls_call|]. intros [e'|]; constructor.
Qed.

Section AnyHandler.

Context {W : Type} (h : Handler Op W).

Lemma ensureRemoteDir_dirOnly u conn dir w :
  dirOnly (run h (ensureRemoteDir u conn dir) w).2.
Proof. apply OnlyCalls_run, ensureRemoteDir_isDir. Qed.

Lemma ctxDone_dirOnly u w : dirOnly (run h (ctxDone u) w).2.
Proof. apply OnlyCalls_run, ctxDone_isDir. Qed.

(** A poll that says "done" shows in the trace. *)
Lemma ctxDone_true u w :
  (run h (ctxDone u) w).1.1 = true -> ctxPolls (run h (ctxDone u) w).2 = [true].
Proof.
  unfold ctxDone. destruct (ctx u); simpl; [|done].
  destruct (h bool (CtxDone c) w) as [b w1]. simpl. by intros ->.
Qed.

End AnyHandler.

Lemma statCalls_strip tr : statCalls tr = statCalls (strip tr).
Proof. apply observe_strip. blind. Qed.
Lemma openCalls_strip tr : openCalls tr = openCalls (strip tr).
Proof. apply observe_strip. blind. Qed.
Lemma removeCalls_strip tr : removeCalls tr = removeCalls (strip tr).
Proof. apply observe_strip. blind. Qed.
Lemma fileSizeCalls_strip tr : fileSizeCalls tr = fileSizeCalls (strip tr).
Proof. apply observe_strip. blind. Qed.
Lemma storCalls_strip tr : storCalls tr = storCalls (strip tr).
Proof. apply observe_strip. blind. Qed.
Lemma storResults_strip tr : storResults tr = storResults (strip tr).
Proof. apply observe_strip. blind. Qed.
Lemma deleteCalls_strip tr : deleteCalls tr = deleteCalls (strip tr).
Proof. apply observe_strip. blind. Qed.
Lemma dialCalls_strip tr : dialCalls tr = dialCalls (strip tr).
Proof. apply observe_strip. blind. Qed.
Lemma loginCalls_strip tr : loginCalls tr = loginCalls (strip tr).
Proof. apply observe_strip. blind. Qed.
Lemma remoteRenames_strip tr : remoteRenames tr = remoteRenames (strip tr).
Proof. apply observe_strip. blind. Qed.

Lemma ctxPolls_app a b : ctxPolls (a ++ b) = ctxPolls a ++ ctxPolls b.
Proof. apply observe_app. Qed.

Lemma temp_path_differs u filename :
  remotePathOf u (tempNameOf filename) <> remotePathOf u filename.
Proof.
  unfold remotePathOf, tempNameOf. intros H.
  destruct (HasSuffix (ftpDir u) "/");
    apply (f_equal String.length) in H;
    rewrite !length_sapp in H; simpl in H; lia.
Qed.

(** One step of a run held in hypothesis [H]: split on what decides the
    next call, answer a call, or run a part kept closed. *)
Ltac exec_step H :=
  cbn [bind call] in H;
  lazymatch type of H with
  | context [run ?h (Ret ?a) ?w] =>
      rewrite run_Ret in H
  | context [run ?h (Vis ?e ?k) ?w] =>
      rewrite run_Vis in H;
      let x := fresh "x" in
      let w' := fresh "w" in
      match type of H with
      | context [h ?X e w] => destruct (h X e w) as [x w']
      end
  | context [run ?h (ctxDone ?u) ?w] =>
      let Hd := fresh "Hdir" in
      let Hp := fresh "Hpoll" in
      pose proof (ctxDone_dirOnly h u w) as Hd;
      pose proof (ctxDone_true h u w) as Hp;
      destruct (run h (ctxDone u) w) as [[? ?] ?]; simpl in Hd, Hp
  | context [run ?h (ensureRemoteDir ?u ?c ?d) ?w] =>
      let Hd := fresh "Hdir" in
      pose proof (ensureRemoteDir_dirOnly h u c d w) as Hd;
      destruct (run h (ensureRemoteDir u c d) w) as [[? ?] ?]; simpl in Hd
  | context [run ?h (match ?x with _ => _ end) ?w] =>
      destruct x eqn:?
  | context [run ?h (bind ?p ?f) ?w] =>
      rewrite run_bind in H
  end;
  cbv beta iota zeta in H.

Ltac exec H := repeat exec_step H.

(** Look at the trace [tr] through [strip], where the observations that
    are blind to the calls of ensureRemoteDir can be computed. *)
Ltac through_strip tr :=
  cbn [fst snd] in *; unfold confirmed;
  rewrite ?(statCalls_strip tr), ?(openCalls_strip tr), ?(removeCalls_strip tr),
    ?(fileSizeCalls_strip tr), ?(storCalls_strip tr), ?(storResults_strip tr),
    ?(deleteCalls_strip tr), ?(dialCalls_strip tr), ?(loginCalls_strip tr),
    ?(remoteRenames_strip tr).

Ltac observations :=
  rewrite ?app_nil_r;
  repeat first
    [ progress rewrite ?strip_app
    | progress cbn [strip isDirEvent app]
    | match goal with
      | Hd : dirOnly ?t |- context [strip ?t] => rewrite (strip_dirOnly t Hd)
      end ];
  rewrite ?ctxPolls_app;
  cbn [statCalls openCalls removeCalls fileSizeCalls storCalls storResults
       deleteCalls dialCalls loginCalls remoteRenames observe flat_map app
       map fst snd last head].

(** Close a goal about explicit lists of observations. *)
Ltac finish :=
  intros;
  repeat match goal with
         | H : true = true -> ctxPolls ?l = [true] |- _ =>
             specialize (H eq_refl)
         | H : ctxPolls ?l = [true], H' : context [ctxPolls ?l] |- _ =>
             rewrite H in H'
         | H : Forall _ (_ :: _) |- _ => apply Forall_cons_1 in H as [? H]
         | H : Forall _ (_ ++ _) |- _ => apply Forall_app in H as [? ?]
         | H : _ ∈ [] |- _ => by apply elem_of_nil in H
         | H : _ ∈ _ :: _ |- _ => apply elem_of_cons in H as [H|H]
         | H : (_ =? _) = true |- _ => apply Z.eqb_eq in H
         | H : (_ =? _) = false |- _ => apply Z.eqb_neq in H
         | H : negb _ = true |- _ => apply negb_true_iff in H
         | H : negb _ = false |- _ => apply negb_false_iff in H
         end;
  simplify_eq;
  first
    [ done
    | by repeat constructor
    | by (eexists; split_and!; try done; try (by eexists);
          first [by left | by right])
    | split; finish
    | idtac ].

Section AnyHandler.

Context {W : Type} (h : Handler Op W).

Lemma uploadFile_removes_nothing u path filename w :
  removeCalls (run h (uploadFile u path filename) w).2 = [].
Proof.
  destruct (run h (uploadFile u path filename) w) as [[res w'] tr] eqn:H.
  through_strip tr.
  unfold uploadFile, uploadConnected, uploadOpened in H.
  exec H; inversion H; subst; clear H; observations; reflexivity.
Qed.

(** What every run of uploadFile shows. *)
Lemma uploadFile_facts u path filename w :
  let r := run h (uploadFile u path filename) w in
  let tr := r.2 in
  let rp := remotePathOf u filename in
  let tp := remotePathOf u (tempNameOf filename) in
  (r.1.1 = None ->
     exists sz, statCalls tr = [(path, inl sz)]
       /\ (exists c, dialCalls tr = [inl c])
       /\ loginCalls tr = [None]
       /\ confirmed tr rp tp sz)
  /\ (forall sz, (path, inl sz) ∈ statCalls tr -> (rp, inl sz) ∈ fileSizeCalls tr ->
        r.1.1 = None /\ storCalls tr = [] /\ deleteCalls tr = [])
  /\ (forall sz rsz, (path, inl sz) ∈ statCalls tr ->
        (rp, inl rsz) ∈ fileSizeCalls tr -> rsz <> sz ->
        head (deleteCalls tr) = Some rp
        /\ forall f, (path, inl f) ∈ openCalls tr -> storCalls tr = [tp])
  /\ (Forall (fun b => b = false) (ctxPolls tr) -> map fst (statCalls tr) = [path])
  /\ Forall (fun p => p = path) (map fst (statCalls tr) ++ map fst (openCalls tr))
  /\ Forall (fun p => p = tp) (storCalls tr).
Proof.
  pose proof (temp_path_differs u filename) as Hne.
  destruct (run h (uploadFile u path filename) w) as [[res w'] tr] eqn:H.
  through_strip tr.
  unfold uploadFile, uploadConnected, uploadOpened in H.
  exec H; inversion H; subst; clear H; observations; split_and!; finish.
Qed.

(** One round of the loop: the run of uploadFile, then os.Remove when it
    returned nil. *)
Lemma uploadAndRemove_run u filename w :
  let path := Join (dataDir u) filename in
  run h (uploadAndRemove u filename) w
  = let '(err, w1, t1) := run h (uploadFile u path filename) w in
    match err with
    | Some _ => (tt, w1, t1)
    | None =>
        let '(e, w2) := h _ (OsRemove path) w1 in
        (tt, w2, t1 ++ [Ev (OsRemove path) e])
    end.
Proof.
  intros path. unfold uploadAndRemove. fold path. rewrite run_bind.
  destruct (run h (uploadFile u path filename) w) as [[err w1] t1].
  destruct err as [e|]; psimpl.
  - by rewrite app_nil_r.
  - destruct (h _ (OsRemove path) w1) as [e w2]. done.
Qed.

Lemma removeCalls_app a b : removeCalls (a ++ b) = removeCalls a ++ removeCalls b.
Proof. apply observe_app. Qed.
Lemma statCalls_app a b : statCalls (a ++ b) = statCalls a ++ statCalls b.
Proof. apply observe_app. Qed.
Lemma openCalls_app a b : openCalls (a ++ b) = openCalls a ++ openCalls b.
Proof. apply observe_app. Qed.
Lemma storCalls_app a b : storCalls (a ++ b) = storCalls a ++ storCalls b.
Proof. apply observe_app. Qed.
Lemma fileSizeCalls_app a b : fileSizeCalls (a ++ b) = fileSizeCalls a ++ fileSizeCalls b.
Proof. apply observe_app. Qed.
Lemma deleteCalls_app a b : deleteCalls (a ++ b) = deleteCalls a ++ deleteCalls b.
Proof. apply observe_app. Qed.

(** C2. In a round of the upload loop for a file whose local size is [sz]:
    when the remote file of the same name answers the size query with
    [sz], no data is sent for the file and the local file is removed, once;
    when it answers with another size, the remote file is deleted first
    and, the local file once open, its data is sent to the temporary
    name. *)
Theorem identical_remote_copy_skips_upload u filename w sz :
  let path := Join (dataDir u) filename in
  let rp := remotePathOf u filename in
  let tp := remotePathOf u (tempNameOf filename) in
  let tr := (run h (uploadAndRemove u filename) w).2 in
  ((path, inl sz) ∈ statCalls tr ->
   (rp, inl sz) ∈ fileSizeCalls tr ->
   storCalls tr = [] /\ removeCalls tr = [path])
  /\ (forall rsz,
        (path, inl sz) ∈ statCalls tr ->
        (rp, inl rsz) ∈ fileSizeCalls tr ->
        rsz <> sz ->
        head (deleteCalls tr) = Some rp
        /\ forall f, (path, inl f) ∈ openCalls tr -> storCalls tr = [tp]).
Proof.
  intros path rp tp tr. subst tr.
  rewrite uploadAndRemove_run. fold path.
  pose proof (uploadFile_facts u path filename w) as (_ & Hskip & Hrepl & _).
  pose proof (uploadFile_removes_nothing u path filename w) as Hrm.
  destruct (run h (uploadFile u path filename) w) as [[err w1] t1].
  cbn [fst snd] in Hskip, Hrepl, Hrm. fold rp tp in Hskip, Hrepl.
  destruct err as [e|]; cbn [snd].
  - split.
    + intros Hs Hf. by destruct (Hskip sz Hs Hf).
    + intros rsz Hs Hf Hne. by apply (Hrepl sz rsz).
  - destruct (h _ (OsRemove path) w1) as [e w2]. cbn [snd].
    rewrite statCalls_app, fileSizeCalls_app, storCalls_app, removeCalls_app,
      deleteCalls_app, openCalls_app, Hrm.
    cbn. rewrite !app_nil_r. split.
    + intros Hs Hf. destruct (Hskip sz Hs Hf) as (_ & -> & _). done.
    + intros rsz Hs Hf Hne. by apply (Hrepl sz rsz).
Qed.

Lemma uploadAll_cons u filename rest w :
  run h (uploadAll u (filename :: rest)) w
  = let '(done, w1, t0) := run h (ctxDone u) w in
    if done : bool then (tt, w1, t0)
    else
      let '(_, w2, t1) := run h (uploadAndRemove u filename) w1 in
      let '(_, w3, t2) := run h (uploadAll u rest) w2 in
      (tt, w3, t0 ++ t1 ++ t2).
Proof.
  unfold uploadAll; fold uploadAll. rewrite run_bind.
  destruct (run h (ctxDone u) w) as [[done w1] t0].
  destruct done; psimpl; [by rewrite app_nil_r|].
  rewrite run_bind.
  destruct (run h (uploadAndRemove u filename) w1) as [[[] w2] t1].
  destruct (run h (uploadAll u rest) w2) as [[[] w3] t2]. done.
Qed.

Lemma removeCalls_dirOnly t : dirOnly t -> removeCalls t = [].
Proof. intros. apply observe_dirOnly; [blind | done]. Qed.

Lemma statCalls_dirOnly t : dirOnly t -> statCalls t = [].
Proof. intros. apply observe_dirOnly; [blind | done]. Qed.

Lemma openCalls_dirOnly t : dirOnly t -> openCalls t = [].
Proof. intros. apply observe_dirOnly; [blind | done]. Qed.

(** The local files removed in a cycle are those whose upload returned
    nil, in order. *)
Lemma uploadAll_removes u files : forall w,
  removeCalls (run h (uploadAll u files) w).2
  = deliveredPaths u (outcomes h u files w).
Proof.
  induction files as [|filename rest IH]; intros w; [done|].
  rewrite uploadAll_cons. cbn [outcomes].
  pose proof (ctxDone_dirOnly h u w) as Hd.
  destruct (run h (ctxDone u) w) as [[done w1] t0]. cbn [snd] in Hd.
  destruct done; cbn [snd]; [by apply removeCalls_dirOnly|].
  rewrite uploadAndRemove_run.
  pose proof (uploadFile_removes_nothing u (Join (dataDir u) filename) filename w1) as Hrm.
  destruct (run h (uploadFile u (Join (dataDir u) filename) filename) w1)
    as [[err w2] t1]. cbn [snd] in Hrm.
  destruct err as [e|].
  - specialize (IH w2).
    destruct (run h (uploadAll u rest) w2) as [[[] w3] t2]. cbn [snd] in IH |- *.
    rewrite !removeCalls_app, (removeCalls_dirOnly t0 Hd), Hrm, IH. done.
  - psimpl.
    destruct (h _ (OsRemove (Join (dataDir u) filename)) w2) as [e w2'].
    cbn [fst snd]. specialize (IH w2').
    destruct (run h (uploadAll u rest) w2') as [[[] w3] t2]. cbn [snd] in IH |- *.
    rewrite !removeCalls_app, (removeCalls_dirOnly t0 Hd), Hrm, IH. done.
Qed.

Lemma ctxDone_false u w :
  Forall (fun b => b = false) (ctxPolls (run h (ctxDone u) w).2) ->
  (run h (ctxDone u) w).1.1 = false.
Proof.
  intros Hf. destruct ((run h (ctxDone u) w).1.1) eqn:Hb; [|done].
  rewrite (ctxDone_true h u w Hb) in Hf. by inversion Hf.
Qed.

(** Without cancellation every file of the cycle is taken up, in order. *)
Lemma uploadAll_attempts u files : forall w,
  Forall (fun b => b = false) (ctxPolls (run h (uploadAll u files) w).2) ->
  map fst (outcomes h u files w) = files
  /\ map fst (statCalls (run h (uploadAll u files) w).2)
     = map (Join (dataDir u)) files.
Proof.
  induction files as [|filename rest IH]; intros w; [done|].
  rewrite uploadAll_cons. cbn [outcomes].
  pose proof (ctxDone_dirOnly h u w) as Hd.
  pose proof (ctxDone_false u w) as Hfalse.
  destruct (run h (ctxDone u) w) as [[done w1] t0]. cbn [fst snd] in Hd, Hfalse.
  destruct done; cbn [snd].
  - intros Hp. by specialize (Hfalse Hp).
  - rewrite uploadAndRemove_run.
    pose proof (uploadFile_facts u (Join (dataDir u) filename) filename w1)
      as (_ & _ & _ & Hstat & _).
    destruct (run h (uploadFile u (Join (dataDir u) filename) filename) w1)
      as [[err w2] t1]. cbn [fst snd] in Hstat.
    destruct err as [e|].
    + specialize (IH w2).
      destruct (run h (uploadAll u rest) w2) as [[[] w3] t2]. cbn [snd] in IH |- *.
      rewrite !ctxPolls_app. intros Hp.
      apply Forall_app in Hp as [_ Hp]. apply Forall_app in Hp as [Hp1 Hp2].
      destruct (IH Hp2) as [Ho Hs2]. cbn [map fst]. rewrite Ho.
      rewrite !statCalls_app, !map_app, (statCalls_dirOnly t0 Hd), (Hstat Hp1), Hs2.
      done.
    + psimpl.
      destruct (h _ (OsRemove (Join (dataDir u) filename)) w2) as [e w2'].
      cbn [fst snd]. specialize (IH w2').
      destruct (run h (uploadAll u rest) w2') as [[[] w3] t2]. cbn [snd] in IH |- *.
      rewrite !ctxPolls_app. intros Hp.
      apply Forall_app in Hp as [_ Hp]. apply Forall_app in Hp as [Hp Hp2].
      apply Forall_app in Hp as [Hp1 _].
      destruct (IH Hp2) as [Ho Hs2]. cbn [map fst]. rewrite Ho.
      rewrite !statCalls_app, !map_app, (statCalls_dirOnly t0 Hd), (Hstat Hp1), Hs2.
      done.
Qed.

(** C3. In a cycle over [files], under any behaviour of the local disk and
    the server: the local files removed are exactly the files whose
    uploadFile returned nil, so a file with a failed step is left in place;
    uploadFile returns nil only when the stat, the connection and the login
    succeeded and the delivery is confirmed (the remote file found with the
    local size, or stored, verified and renamed without error); and, the
    context not being cancelled, every file of the cycle is taken up,
    whatever happened to the files before it. *)
Theorem failed_upload_keeps_file_and_cycle_goes_on u files w :
  let tr := (run h (uploadAll u files) w).2 in
  let outs := outcomes h u files w in
  removeCalls tr = deliveredPaths u outs
  /\ (Forall (fun b => b = false) (ctxPolls tr) ->
      map fst outs = files
      /\ map fst (statCalls tr) = map (Join (dataDir u)) files)
  /\ (forall filename w1,
        let path := Join (dataDir u) filename in
        let r := run h (uploadFile u path filename) w1 in
        r.1.1 = None ->
        exists sz, statCalls r.2 = [(path, inl sz)]
          /\ (exists c, dialCalls r.2 = [inl c])
          /\ loginCalls r.2 = [None]
          /\ confirmed r.2 (remotePathOf u filename)
               (remotePathOf u (tempNameOf filename)) sz).
Proof.
  split_and!.
  - apply uploadAll_removes.
  - apply uploadAll_attempts.
  - intros filename w1 path r Hr.
    by apply (proj1 (uploadFile_facts u path filename w1)).
Qed.

End AnyHandler.

(** ** The local files a scan touches *)

(** Calls that touch no local file. *)
Definition notLocal (X : Type) (e : Op X) : Prop :=
  match e with
  | OsStat _ | OsOpen _ | OsRemove _ => False
  | _ => True
  end.

Lemma isDir_notLocal X (e : Op X) : isDirCall X e -> notLocal X e.
Proof. by destruct e. Qed.

Lemma deleteTempEntries_notLocal u conn entries : forall cleaned,
  OnlyCalls notLocal (deleteTempEntries u conn entries cleaned).
Proof.
  induction entries as [|entry rest IH]; intros cleaned; [constructor|].
  unfold deleteTempEntries; fold deleteTempEntries.
  destruct (negb (entryTypeIsFile (EType entry))); [apply IH|].
  destruct (negb (HasSuffix (EName entry) ".tmp")); [apply IH|].
  apply OnlyCalls_bind; [by apply OnlyCalls_call|]. intros [e|]; apply IH.
Qed.

Lemma cleanup_notLocal u : OnlyCalls notLocal (cleanupRemoteTempFiles u).
Proof.
  unfold cleanupRemoteTempFiles, cleanupConnected.
  apply OnlyCalls_bind.
  { eapply OnlyCalls_weaken; [apply isDir_notLocal | apply ctxDone_isDir]. }
  intros done. destruct done; [constructor|].
  apply OnlyCalls_bind; [by apply OnlyCalls_call|]. intros [conn|e]; [|constructor].
  apply OnlyCalls_bind; [|intros res; apply OnlyCalls_bind;
                           [by apply OnlyCalls_call | intros; constructor]].
  apply OnlyCalls_bind; [by apply OnlyCalls_call|]. intros [e|]; [constructor|].
  apply OnlyCalls_bind.
  { eapply OnlyCalls_weaken; [apply isDir_notLocal | apply ensureRemoteDir_isDir]. }
  intros [e|]; [constructor|].
  apply OnlyCalls_bind; [by apply OnlyCalls_call|]. intros [entries|e]; [|constructor].
  apply OnlyCalls_bind; [apply deleteTempEntries_notLocal|]. intros; constructor.
Qed.

Lemma localPaths_app a b :
  forall p, p ∈ localPaths (a ++ b) <-> p ∈ localPaths a \/ p ∈ localPaths b.
Proof.
  intros p. unfold localPaths.
  rewrite statCalls_app, openCalls_app, removeCalls_app, !map_app.
  rewrite !elem_of_app. tauto.
Qed.

Lemma localPaths_notLocal tr :
  Forall (fun ev => match ev with Ev e _ => notLocal _ e end) tr ->
  localPaths tr = [].
Proof.
  intros Htr. induction Htr as [|[X e x] tr Hev _ IH]; [done|].
  unfold localPaths in *.
  unfold statCalls, openCalls, removeCalls in *. rewrite !observe_cons.
  destruct e; simpl in Hev; try done; exact IH.
Qed.

Section Scan.

Context {W : Type} (h : Handler Op W).

Lemma uploadFile_localPaths u path filename w :
  forall p, p ∈ localPaths (run h (uploadFile u path filename) w).2 -> p = path.
Proof.
  intros p. unfold localPaths.
  pose proof (uploadFile_facts h u path filename w) as (_ & _ & _ & _ & Hloc & _).
  rewrite (uploadFile_removes_nothing h), app_nil_r.
  intros Hp. by apply (proj1 (Forall_forall _ _) Hloc).
Qed.

Lemma uploadAll_localPaths u files : forall w p,
  p ∈ localPaths (run h (uploadAll u files) w).2 ->
  exists filename, filename ∈ files /\ p = Join (dataDir u) filename.
Proof.
  induction files as [|filename rest IH]; intros w p.
  - simpl. unfold localPaths. simpl. by intros ?%elem_of_nil.
  - rewrite uploadAll_cons.
    pose proof (ctxDone_dirOnly h u w) as Hd.
    destruct (run h (ctxDone u) w) as [[done w1] t0]. cbn [snd] in Hd.
    assert (Ht0 : localPaths t0 = []).
    { apply localPaths_notLocal. eapply Forall_impl; [exact Hd|].
      intros [X e x]. apply isDir_notLocal. }
    destruct done; cbn [snd].
    + rewrite Ht0. by intros ?%elem_of_nil.
    + rewrite uploadAndRemove_run.
      pose proof (uploadFile_localPaths u (Join (dataDir u) filename) filename w1) as Hf.
      destruct (run h (uploadFile u (Join (dataDir u) filename) filename) w1)
        as [[err w2] t1]. cbn [snd] in Hf.
      destruct err as [e|].
      * specialize (IH w2).
        destruct (run h (uploadAll u rest) w2) as [[[] w3] t2]. cbn [snd] in IH |- *.
        rewrite !localPaths_app, Ht0. intros [?%elem_of_nil|[Hp|Hp]]; [done| |].
        -- exists filename. split; [by left | by apply Hf].
        -- destruct (IH p Hp) as (f & Hin & ->). exists f. split; [by right | done].
      * destruct (h _ (OsRemove (Join (dataDir u) filename)) w2) as [e w2'].
        specialize (IH w2').
        destruct (run h (uploadAll u rest) w2') as [[[] w3] t2]. cbn [snd] in IH |- *.
        rewrite !localPaths_app, Ht0.
        intros [?%elem_of_nil|[[Hp|Hp]|Hp]]; [done| | |].
        -- exists filename. split; [by left | by apply Hf].
        -- exists filename. split; [by left|].
           unfold localPaths in Hp. simpl in Hp. by apply list_elem_of_singleton in Hp.
        -- destruct (IH p Hp) as (f & Hin & ->). exists f. split; [by right | done].
Qed.

Lemma filesToUpload_spec entries name :
  name ∈ filesToUpload entries
  <-> exists entry, entry ∈ entries /\ Name entry = name
        /\ IsDir entry = false /\ HasSuffix name ".csv.gz" = true.
Proof.
  unfold filesToUpload. rewrite list_elem_of_fmap. split.
  - intros (entry & -> & Hin). apply list_elem_of_filter in Hin as [Hp Hin].
    apply Is_true_true, andb_true_iff in Hp as [Hd Hs].
    exists entry. by rewrite negb_true_iff in Hd.
  - intros (entry & Hin & <- & Hd & Hs). exists entry. split; [done|].
    apply list_elem_of_filter. split; [|done].
    apply Is_true_true. by rewrite Hd, Hs.
Qed.

(** Every local path a scan hands to os.Stat, os.Open or os.Remove is the
    path of a listed entry that is no directory and whose name ends in
    ".csv.gz". *)
Lemma scanAndUpload_localPaths u w p :
  p ∈ localPaths (run h (scanAndUpload u) w).2 ->
  exists entries entry,
    (dataDir u, inl entries) ∈ readDirCalls (run h (scanAndUpload u) w).2
    /\ entry ∈ entries /\ IsDir entry = false
    /\ HasSuffix (Name entry) ".csv.gz" = true
    /\ p = Join (dataDir u) (Name entry).
Proof.
  unfold scanAndUpload. rewrite run_bind.
  pose proof (ctxDone_dirOnly h u w) as Hd.
  destruct (run h (ctxDone u) w) as [[done w1] t0]. cbn [snd] in Hd.
  assert (Ht0 : localPaths t0 = []).
  { apply localPaths_notLocal. eapply Forall_impl; [exact Hd|].
    intros [X e x]. apply isDir_notLocal. }
  destruct done; psimpl.
  { rewrite app_nil_r, Ht0. by intros ?%elem_of_nil. }
  rewrite run_bind.
  pose proof (OnlyCalls_run h notLocal _ w1 (cleanup_notLocal u)) as Hc.
  destruct (run h (cleanupRemoteTempFiles u) w1) as [[err w2] t1]. cbn [snd] in Hc.
  apply localPaths_notLocal in Hc. psimpl.
  destruct (h _ (OsReadDir (dataDir u)) w2) as [[entries|e] w3]; psimpl.
  - assert (Hrun : forall q, q ∈ localPaths (run h (uploadAll u (filesToUpload entries)) w3).2 ->
                    exists filename, filename ∈ filesToUpload entries
                                     /\ q = Join (dataDir u) filename)
      by apply uploadAll_localPaths.
    assert (Heq : run h match filesToUpload entries with
                        | [] => Ret ()
                        | _ :: _ => uploadAll u (filesToUpload entries)
                        end w3
                  = run h (uploadAll u (filesToUpload entries)) w3)
      by (by destruct (filesToUpload entries)).
    rewrite Heq.
    destruct (run h (uploadAll u (filesToUpload entries)) w3) as [[[] w4] t2].
    cbn [snd] in Hrun |- *.
    rewrite !localPaths_app, Ht0, Hc.
    intros [?%elem_of_nil|[?%elem_of_nil|Hp]]; [done|done|].
    change (Ev (OsReadDir (dataDir u)) (inl entries) :: t2)
      with ([Ev (OsReadDir (dataDir u)) (inl entries)] ++ t2) in Hp.
    apply localPaths_app in Hp as [Hp|Hp]; [by apply elem_of_nil in Hp|].
    destruct (Hrun p Hp) as (filename & Hin & ->).
    apply filesToUpload_spec in Hin as (entry & Hin & <- & Hdir & Hs).
    exists entries, entry. split_and!; try done.
    unfold readDirCalls. rewrite !observe_app, observe_cons.
    rewrite !elem_of_app. right. right. left. constructor.
  - rewrite !localPaths_app, Ht0, Hc.
    intros [?%elem_of_nil|[?%elem_of_nil|Hp]]; [done|done|].
    unfold localPaths in Hp. simpl in Hp. by apply elem_of_nil in Hp.
Qed.

End Scan.

(** ** Runs against a local directory and a deposit *)

Definition sampleUploader : Uploader :=
  mkUploader (Some 0%nat) "ftp.example.org" 21 "flows" "secret" "/incoming" 30
    "/data" 60.

Definition archiveA : string := "flows_20240101_000000_000.csv.gz".
Definition archiveB : string := "flows_20240101_001000_001.csv.gz".
Definition archiveC : string := "flows_20240101_002000_002.csv.gz".
Definition archiveInProgress : string := "flows_20240101_003000_003.part".

Definition sampleEntries : list (DirEntry * Z) :=
  [(mkDirEntry archiveA false, 10); (mkDirEntry "error" true, 0);
   (mkDirEntry archiveB false, 20); (mkDirEntry archiveInProgress false, 5);
   (mkDirEntry archiveC false, 30)].

(** The deposit already holds the first archive, with the local size. *)
Definition deliveredWorld : UploaderWorld.World :=
  UploaderWorld.mkWorld "/data" sampleEntries []
    {[ remotePathOf sampleUploader archiveA := 10 ]} false false [].

(** The deposit holds a copy of the first archive of another size. *)
Definition staleWorld : UploaderWorld.World :=
  UploaderWorld.mkWorld "/data" sampleEntries []
    {[ remotePathOf sampleUploader archiveA := 7 ]} false false [].

(** The server refuses to store the second archive. *)
Definition refusingWorld : UploaderWorld.World :=
  UploaderWorld.mkWorld "/data" sampleEntries [] ∅ false false
    [remotePathOf sampleUploader (tempNameOf archiveB)].

Lemma identical_remote_copy_skips_upload_witness :
  let path := Join (dataDir sampleUploader) archiveA in
  let run_from w :=
    (run UploaderWorld.handle (uploadAndRemove sampleUploader archiveA) w).2 in
  (storCalls (run_from deliveredWorld) = []
   /\ removeCalls (run_from deliveredWorld) = [path])
  /\ head (deleteCalls (run_from staleWorld))
     = Some (remotePathOf sampleUploader archiveA)
  /\ storCalls (run_from staleWorld)
     = [remotePathOf sampleUploader (tempNameOf archiveA)].
Proof.
  intros path run_from. split.
  - apply (proj1 (identical_remote_copy_skips_upload UploaderWorld.handle
                    sampleUploader archiveA deliveredWorld 10));
      vm_compute; constructor.
  - destruct (proj2 (identical_remote_copy_skips_upload UploaderWorld.handle
                       sampleUploader archiveA staleWorld 10) 7) as [Hd Hs].
    + vm_compute; constructor.
    + vm_compute; constructor.
    + discriminate.
    + split; [exact Hd|]. apply (Hs 0%nat). vm_compute; constructor.
Defined.

Lemma failed_upload_keeps_file_and_cycle_goes_on_witness :
  let files := [archiveA; archiveB; archiveC] in
  let tr := (run UploaderWorld.handle (uploadAll sampleUploader files)
               refusingWorld).2 in
  removeCalls tr = map (Join "/data") [archiveA; archiveC]
  /\ map fst (statCalls tr) = map (Join "/data") files
  /\ exists sz,
       statCalls (run UploaderWorld.handle
                    (uploadFile sampleUploader (Join "/data" archiveA) archiveA)
                    refusingWorld).2
       = [(Join "/data" archiveA, inl sz)].
Proof.
  intros files tr.
  destruct (failed_upload_keeps_file_and_cycle_goes_on UploaderWorld.handle
              sampleUploader files refusingWorld) as (Hr & Ha & Hc).
  split_and!.
  - fold tr in Hr. rewrite Hr. vm_compute. reflexivity.
  - destruct Ha as [_ Hs]; [vm_compute; repeat constructor | exact Hs].
  - destruct (Hc archiveA refusingWorld) as (sz & Hs & _);
      [vm_compute; reflexivity | by exists sz].
Defined.

End UploaderFacts.

(* ===================================================================== *)
(** * The batch writer over a disk *)
(* ===================================================================== *)

Module WriterWorldFacts.
Import Go IO Batchwriter WriterWorld GoFacts IOFacts BatchwriterFacts.

(** ** The layers of a stream *)

(** All that was written to a stream and has not been lost: what is on
    disk under its path, then what the gzip.Writer holds, then what the
    bufio.Writer holds. *)
Definition OpenStream (w : World) (b : nat) (path written : string) : Prop :=
  exists s c,
    streams w !! b = Some s /\ s_path s = path
    /\ s_gz_open s = true /\ s_file_open s = true
    /\ disk w !! path = Some c
    /\ c +:+ s_held s +:+ s_buffered s = written.

(** The parts of the world a write leaves alone. *)
Definition sameSetting (w w' : World) : Prop :=
  published w' = published w /\ now w' = now w /\ emit w' = emit w
  /\ faults w' = faults w.

Lemma sameSetting_refl w : sameSetting w w.
Proof. done. Qed.

Lemma sameSetting_trans w1 w2 w3 :
  sameSetting w1 w2 -> sameSetting w2 w3 -> sameSetting w1 w3.
Proof.
  intros (?&?&?&?) (?&?&?&?). unfold sameSetting. split_and!; congruence.
Qed.

Lemma nextFault_none w : faults w = [] -> nextFault w = (false, w).
Proof. unfold nextFault. by intros ->. Qed.

Lemma gzWrite_content policy data s d c :
  d !! s_path s = Some c ->
  exists s' c',
    gzWrite policy data s d = (s', <[s_path s := c']> d)
    /\ c' +:+ s_held s' = c +:+ s_held s +:+ data
    /\ s_path s' = s_path s /\ s_size s' = s_size s
    /\ s_buffered s' = s_buffered s
    /\ s_gz_open s' = s_gz_open s /\ s_file_open s' = s_file_open s.
Proof.
  intros Hd. unfold gzWrite, appendToFile. rewrite Hd.
  eexists _, _. split; [reflexivity|]. destruct s; simpl.
  split_and!; try done.
  by rewrite sapp_assoc, stake_sdrop.
Qed.

Lemma bufWrite_content policy data s d c :
  d !! s_path s = Some c ->
  exists s' d' c',
    bufWrite policy data s d = (s', d')
    /\ d' !! s_path s = Some c'
    /\ c' +:+ s_held s' +:+ s_buffered s'
       = (c +:+ s_held s +:+ s_buffered s) +:+ data
    /\ s_path s' = s_path s /\ s_size s' = s_size s
    /\ s_gz_open s' = s_gz_open s /\ s_file_open s' = s_file_open s.
Proof.
  intros Hd. unfold bufWrite.
  destruct (len data <=? s_size s - len (s_buffered s)).
  { exists (set_buffered (s_buffered s +:+ data) s), d, c.
    destruct s; simpl in *. split_and!; try done. by rewrite !sapp_assoc. }
  destruct (String.eqb_spec (s_buffered s) "") as [Hb|Hb].
  { destruct (gzWrite_content policy data s d c Hd)
      as (s' & c' & -> & Hc & Hp & Hz & Hbuf & Hg & Hf).
    exists s', (<[s_path s := c']> d), c'. rewrite lookup_insert_eq.
    split_and!; try done.
    by rewrite Hbuf, Hb, ?sapp_nil_r, ?sapp_assoc. }
  set (n := Z.to_nat (s_size s - len (s_buffered s))).
  destruct (gzWrite_content policy (s_buffered s +:+ stake n data)
              (set_buffered "" s) d c) as (s1 & c1 & -> & Hc & Hp & Hz & Hbuf & Hg & Hf).
  { by destruct s. }
  assert (Hpath : s_path (set_buffered "" s) = s_path s) by (by destruct s).
  assert (Hheld : s_held (set_buffered "" s) = s_held s) by (by destruct s).
  assert (Hsize : s_size (set_buffered "" s) = s_size s) by (by destruct s).
  assert (Hgz : s_gz_open (set_buffered "" s) = s_gz_open s) by (by destruct s).
  assert (Hfl : s_file_open (set_buffered "" s) = s_file_open s) by (by destruct s).
  rewrite Hpath, ?Hheld, ?Hsize, ?Hgz, ?Hfl in *.
  assert (Hall : c1 +:+ s_held s1 +:+ sdrop n data
                 = (c +:+ s_held s +:+ s_buffered s) +:+ data).
  { rewrite <- sapp_assoc, Hc. rewrite ?sapp_assoc, ?sapp_nil_r.
    by rewrite stake_sdrop. }
  destruct (len (sdrop n data) <=? s_size s).
  { exists (set_buffered (sdrop n data) s1), (<[s_path s := c1]> d), c1.
    rewrite lookup_insert_eq. destruct s1; simpl in *. split_and!; try done. }
  destruct (gzWrite_content policy (sdrop n data) s1 (<[s_path s := c1]> d) c1)
    as (s2 & c2 & Heq & Hc2 & Hp2 & Hz2 & Hbuf2 & Hg2 & Hf2).
  { rewrite Hp. apply lookup_insert_eq. }
  rewrite Heq. exists s2, (<[s_path s1 := c2]> (<[s_path s := c1]> d)), c2.
  rewrite Hp, lookup_insert_eq.
  split_and!; try congruence.
  rewrite Hbuf2, Hbuf. assert (Hempty : s_buffered (set_buffered "" s) = "") by (by destruct s).
  rewrite Hempty, sapp_nil_r, Hc2, <- Hall. by rewrite ?sapp_assoc.
Qed.

Tactic Notation "wsimpl" :=
  cbn [run bind call fst snd handle]; unfold Buf, Gz, File in *.
Tactic Notation "wsimpl" "in" hyp(H) :=
  cbn [run bind call fst snd handle] in H; unfold Buf, Gz, File in *.

Ltac bwsimpl :=
  cbn [run bind call fst snd
       dataDir filePrefix rotateIntervalSec rotateSizeMB buffer gzipWriter file
       currentPath writtenBytes startTime fileIndex closed
       set_gzipWriter set_file set_currentPath set_writtenBytes
       set_closed];
  unfold Buf, Gz, File in *.

(** ** The calls, one by one *)

Lemma handle_BufioWrite w b path written data :
  OpenStream w b path written -> faults w = [] ->
  exists w', handle _ (BufioWrite b data) w = ((len data, None), w')
             /\ OpenStream w' b path (written +:+ data) /\ sameSetting w w'.
Proof.
  intros (s & c & Hs & Hp & Hg & Hf & Hd & Hc) Hfl. wsimpl.
  rewrite Hs, (nextFault_none _ Hfl), Hg. cbn [negb orb].
  subst path.
  destruct (bufWrite_content (emit w) data s (disk w) c Hd)
    as (s' & d' & c' & -> & Hd' & Hc' & Hp' & _ & Hg' & Hf').
  eexists. split; [reflexivity|]. split.
  - exists s', c'. cbn. split_and!; try congruence.
    apply list_lookup_insert_eq. by eapply lookup_lt_Some.
  - done.
Qed.

(** After a Flush the bufio.Writer holds nothing. *)
Definition FlushedStream (w : World) (b : nat) (path written : string) : Prop :=
  exists s c,
    streams w !! b = Some s /\ s_path s = path
    /\ s_gz_open s = true /\ s_file_open s = true
    /\ disk w !! path = Some c
    /\ s_buffered s = "" /\ c +:+ s_held s = written.

Lemma handle_BufioFlush w b path written :
  OpenStream w b path written -> faults w = [] ->
  exists w', handle _ (BufioFlush b) w = (None, w')
             /\ FlushedStream w' b path written /\ sameSetting w w'.
Proof.
  intros (s & c & Hs & Hp & Hg & Hf & Hd & Hc) Hfl. wsimpl. rewrite Hs.
  destruct (String.eqb_spec (s_buffered s) "") as [Hb|Hb].
  { exists w. split_and!; try done. exists s, c. split_and!; try done.
    by rewrite Hb, sapp_nil_r in Hc. }
  rewrite (nextFault_none _ Hfl), Hg. cbn [negb orb]. subst path.
  destruct (gzWrite_content (emit w) (s_buffered s) (set_buffered "" s) (disk w) c)
    as (s' & c' & Heq & Hc' & Hp' & _ & Hb' & Hg' & Hf').
  { by destruct s. }
  rewrite Heq. eexists. split; [reflexivity|]. split; [|done].
  exists s', c'. cbn.
  assert (Hpath : s_path (set_buffered "" s) = s_path s) by (by destruct s).
  assert (Hheld : s_held (set_buffered "" s) = s_held s) by (by destruct s).
  assert (Hgz : s_gz_open (set_buffered "" s) = s_gz_open s) by (by destruct s).
  assert (Hfo : s_file_open (set_buffered "" s) = s_file_open s) by (by destruct s).
  assert (Hbf : s_buffered (set_buffered "" s) = "") by (by destruct s).
  rewrite Hpath, ?Hheld in *.
  split_and!; try congruence.
  - apply list_lookup_insert_eq. by eapply lookup_lt_Some.
  - apply lookup_insert_eq.
Qed.

(** The gzip.Writer closed: all that was written is on disk. *)
Definition GzClosed (w : World) (b : nat) (path written : string) : Prop :=
  exists s,
    streams w !! b = Some s /\ s_file_open s = true
    /\ disk w !! path = Some written.

Lemma handle_GzipClose w b path written :
  FlushedStream w b path written -> faults w = [] ->
  exists w', handle _ (GzipClose b) w = (None, w')
             /\ GzClosed w' b path written /\ sameSetting w w'.
Proof.
  intros (s & c & Hs & Hp & Hg & Hf & Hd & Hb & Hc) Hfl. wsimpl.
  rewrite Hs, Hg. cbn [negb]. rewrite (nextFault_none _ Hfl).
  eexists. split; [reflexivity|]. split; [|done].
  eexists. cbn. split_and!.
  - apply list_lookup_insert_eq. by eapply lookup_lt_Some.
  - done.
  - unfold appendToFile. rewrite Hp, Hd, lookup_insert_eq. by rewrite Hc.
Qed.

Lemma handle_FileClose w b path written :
  GzClosed w b path written -> faults w = [] ->
  exists w', handle _ (FileClose b) w = (None, w')
             /\ disk w' !! path = Some written /\ sameSetting w w'.
Proof.
  intros (s & Hs & Hf & Hd) Hfl. wsimpl.
  rewrite Hs, (nextFault_none _ Hfl), Hf. cbn [negb orb].
  eexists. split; [reflexivity|]. by split.
Qed.

Lemma handle_OsRename w oldpath newpath c :
  disk w !! oldpath = Some c -> faults w = [] ->
  exists w', handle _ (OsRename oldpath newpath) w = (None, w')
             /\ published w' = published w ++ [(newpath, c)]
             /\ now w' = now w /\ emit w' = emit w /\ faults w' = [].
Proof.
  intros Hd Hfl. wsimpl. rewrite (nextFault_none _ Hfl), Hd.
  eexists. split; [reflexivity|]. by cbn.
Qed.

Lemma closeAndRename_world bw w b written :
  gzipWriter bw = Some b -> file bw = Some b -> currentPath bw <> "" ->
  FlushedStream w b (currentPath bw) written -> faults w = [] ->
  exists w' tr,
    run handle (closeAndRenameCurrentFile bw) w
    = (set_file None (set_gzipWriter None bw), None, w', tr)
    /\ published w' = published w ++ [(finalPathOf (currentPath bw), written)]
    /\ now w' = now w /\ emit w' = emit w /\ faults w' = [].
Proof.
  destruct bw as [dd fp ri rs bf gz fl cp wb st fi cl].
  cbn [gzipWriter file currentPath]. intros -> -> Hpath Hst Hfl.
  destruct (handle_GzipClose _ _ _ _ Hst Hfl) as (w1 & E1 & Hst1 & (Hp1 & Hn1 & He1 & Hf1)).
  rewrite Hfl in Hf1.
  destruct (handle_FileClose _ _ _ _ Hst1 Hf1) as (w2 & E2 & Hd2 & (Hp2 & Hn2 & He2 & Hf2)).
  rewrite Hf1 in Hf2.
  destruct (handle_OsRename w2 cp (finalPathOf cp) _ Hd2 Hf2)
    as (w3 & E3 & Hp3 & Hn3 & He3 & Hf3).
  apply String.eqb_neq in Hpath.
  unfold closeAndRenameCurrentFile.
  bwsimpl. rewrite E1. bwsimpl. rewrite E2. bwsimpl. rewrite Hpath. bwsimpl.
  cbn [negb]. bwsimpl. fold (finalPathOf cp). rewrite E3.
  eexists _, _. split; [reflexivity|]. split_and!; congruence.
Qed.

Lemma handle_OsCreate w path :
  faults w = [] ->
  exists w', handle _ (OsCreate path) w = (inl (length (streams w)), w')
             /\ streams w' = streams w ++ [mkStream path 0 "" "" true true]
             /\ disk w' = <[path := ""]> (disk w)
             /\ sameSetting w w'.
Proof.
  intros Hfl. wsimpl. rewrite (nextFault_none _ Hfl).
  eexists. split; [reflexivity|]. by cbn.
Qed.

Lemma handle_BufioNewWriterSize w g size s :
  streams w !! g = Some s ->
  handle _ (BufioNewWriterSize g size) w
  = (g, set_streams (<[g := mkStream (s_path s) size (s_buffered s) (s_held s)
                             (s_gz_open s) (s_file_open s)]> (streams w)) w).
Proof. intros Hs. wsimpl. by rewrite Hs. Qed.

(** rotateFile against a world without faults: it returns nil, the new
    archive is empty and nothing else changes. *)
Lemma rotateFile_world bw w :
  faults w = [] ->
  exists w' tr,
    let b := length (streams w) in
    let path := Join (dataDir bw) (partName (filePrefix bw) (now w) (fileIndex bw)) in
    run handle (rotateFile bw) w
    = (mkBatchWriter (dataDir bw) (filePrefix bw) (rotateIntervalSec bw)
         (rotateSizeMB bw) (Some b) (Some b) (Some b) path 0 (now w)
         (wrap64 (fileIndex bw + 1)) (closed bw), None, w', tr)
    /\ OpenStream w' b path "" /\ sameSetting w w'.
Proof.
  intros Hfl. destruct bw as [dd fp ri rs bf gz fl cp wb st fi cl].
  cbn [dataDir filePrefix rotateIntervalSec rotateSizeMB fileIndex closed].
  set (path := Join dd (partName fp (now w) fi)).
  destruct (handle_OsCreate w path Hfl) as (w1 & E1 & Hs1 & Hd1 & Hset).
  assert (Hl : streams w1 !! length (streams w) = Some (mkStream path 0 "" "" true true)).
  { rewrite Hs1. apply list_lookup_middle. done. }
  pose proof (handle_BufioNewWriterSize w1 _ (4 * 1024 * 1024) _ Hl) as E2.
  unfold rotateFile.
  bwsimpl. change (handle Time TimeNow w) with (now w, w). bwsimpl.
  fold path. rewrite E1. bwsimpl.
  change (handle nat (GzipNewWriter (length (streams w))) w1)
    with (length (streams w), w1).
  bwsimpl. rewrite E2.
  eexists _, _. split; [reflexivity|]. split.
  - eexists _, _. cbn. split_and!.
    + apply list_lookup_insert_eq. by eapply lookup_lt_Some.
    + reflexivity.
    + reflexivity.
    + reflexivity.
    + rewrite Hd1. apply lookup_insert_eq.
    + reflexivity.
  - done.
Qed.

Lemma set_writtenBytes_twice n m bw :
  set_writtenBytes n (set_writtenBytes m bw) = set_writtenBytes n bw.
Proof. by destruct bw. Qed.

Lemma writtenBytes_set n bw : writtenBytes (set_writtenBytes n bw) = n.
Proof. by destruct bw. Qed.

Lemma len_batchData lines : len (batchData lines) = batchBytes lines.
Proof.
  induction lines as [|dl lines IH]; [done|].
  cbn [batchData batchBytes fold_right]. fold (batchData lines) (batchBytes lines).
  rewrite !len_app, len_newline, IH. lia.
Qed.

Lemma batchData_cons dl lines :
  batchData (dl :: lines) = (Line dl +:+ newline) +:+ batchData lines.
Proof. cbn [batchData fold_right]. by rewrite sapp_assoc. Qed.

(** The lines of a batch, written to a world without faults: every Write
    returns nil, the data is appended to the stream, the counter grows by
    the bytes of the batch. *)
Lemma writeLines_world lines : forall bw w b written,
  buffer bw = Some b ->
  OpenStream w b (currentPath bw) written ->
  faults w = [] ->
  0 <= writtenBytes bw ->
  writtenBytes bw + batchBytes lines < 2 ^ 63 ->
  exists w' tr,
    run handle (writeLines bw lines) w
    = (set_writtenBytes (writtenBytes bw + batchBytes lines) bw, None, w', tr)
    /\ OpenStream w' b (currentPath bw) (written +:+ batchData lines)
    /\ sameSetting w w'.
Proof.
  induction lines as [|dl lines IH]; intros bw w b written Hb Hst Hfl H0 Hlt.
  - exists w, []. cbn [writeLines batchBytes batchData fold_right run].
    rewrite Z.add_0_r, set_writtenBytes_same, sapp_nil_r. done.
  - pose proof (batchBytes_nonneg lines) as Hnn.
    pose proof (len_nonneg (Line dl)) as Hln.
    cbn [batchBytes fold_right] in Hlt. fold (batchBytes lines) in Hlt.
    destruct (handle_BufioWrite w b _ _ (Line dl +:+ newline) Hst Hfl)
      as (w1 & E1 & Hst1 & Hset1).
    assert (Hfl1 : faults w1 = []) by (destruct Hset1 as (_ & _ & _ & ->); done).
    set (bw1 := set_writtenBytes (writtenBytes bw + (len (Line dl) + 1)) bw).
    destruct (IH bw1 w1 b (written +:+ (Line dl +:+ newline)))
      as (w2 & tr2 & E2 & Hst2 & Hset2).
    { by destruct bw. } { by destruct bw. } { done. }
    { unfold bw1. destruct bw; cbn in *; lia. }
    { unfold bw1. destruct bw; cbn in *; lia. }
    cbn [writeLines]. rewrite Hb. bwsimpl. rewrite E1. bwsimpl.
    rewrite len_app, len_newline, wrap64_id by lia.
    fold bw1. rewrite E2.
    eexists _, _. split; [|split].
    + do 3 f_equal. unfold bw1.
      rewrite set_writtenBytes_twice, writtenBytes_set.
      cbn [batchBytes fold_right]. fold (batchBytes lines). f_equal. lia.
    + rewrite batchData_cons, <- sapp_assoc. by destruct bw.
    + by eapply sameSetting_trans.
Qed.

(** ** The methods *)

(** The writer is open with an archive in progress to which [written] was
    written, and the world holds all of it. *)
Definition Active (bw : BatchWriter) (w : World) (written : string) : Prop :=
  closed bw = false /\ currentPath bw <> "" /\ faults w = []
  /\ writtenBytes bw = len written
  /\ exists b, buffer bw = Some b /\ gzipWriter bw = Some b /\ file bw = Some b
                /\ OpenStream w b (currentPath bw) written.

Definition sameConfig (bw bw' : BatchWriter) : Prop :=
  dataDir bw' = dataDir bw /\ filePrefix bw' = filePrefix bw
  /\ rotateIntervalSec bw' = rotateIntervalSec bw
  /\ rotateSizeMB bw' = rotateSizeMB bw.

Lemma rotateFile_Active bw w :
  closed bw = false -> faults w = [] ->
  exists bw' w' tr,
    run handle (rotateFile bw) w = (bw', None, w', tr)
    /\ Active bw' w' "" /\ sameConfig bw bw' /\ startTime bw' = now w
    /\ sameSetting w w'.
Proof.
  intros Hcl Hfl.
  destruct (rotateFile_world bw w Hfl) as (w' & tr & E & Hst & Hset).
  cbv zeta in E, Hst. eexists _, w', tr. split; [exact E|].
  split_and!; try done.
  unfold Active. cbn. split_and!; try done.
  - apply partPath_nonempty.
  - by destruct Hset as (_ & _ & _ & ->).
  - by eexists.
Qed.

Lemma flushAndRotate_world bw w written :
  Active bw w written ->
  exists bw' w' tr,
    run handle (flushAndRotate bw) w = (bw', None, w', tr)
    /\ published w' = published w ++ [(finalPathOf (currentPath bw), written)]
    /\ now w' = now w /\ emit w' = emit w
    /\ Active bw' w' "" /\ sameConfig bw bw' /\ startTime bw' = now w.
Proof.
  intros (Hcl & Hpath & Hfl & Hwb & b & Hb & Hg & Hf & Hst).
  destruct (handle_BufioFlush _ _ _ _ Hst Hfl) as (w1 & E1 & Hst1 & (Hp1 & Hn1 & He1 & Hf1)).
  rewrite Hfl in Hf1.
  destruct (closeAndRename_world bw w1 b written Hg Hf Hpath Hst1 Hf1)
    as (w2 & t2 & E2 & Hp2 & Hn2 & He2 & Hf2).
  destruct (rotateFile_Active (set_file None (set_gzipWriter None bw)) w2)
    as (bw3 & w3 & t3 & E3 & Hact & Hcfg & Hstart & (Hp3 & Hn3 & He3 & Hf3)).
  { by destruct bw. } { done. }
  unfold flushAndRotate. rewrite Hb. bwsimpl. rewrite E1. bwsimpl.
  rewrite run_bind, E2. bwsimpl. rewrite run_bind, E3. bwsimpl.
  eexists _, _, _. split; [reflexivity|].
  split_and!; try congruence.
  destruct bw; exact Hcfg.
Qed.

Lemma Close_world bw w written :
  Active bw w written ->
  exists bw' w' tr,
    run handle (Close bw) w = (bw', None, w', tr)
    /\ published w' = published w ++ [(finalPathOf (currentPath bw), written)]
    /\ closed bw' = true.
Proof.
  intros (Hcl & Hpath & Hfl & Hwb & b & Hb & Hg & Hf & Hst).
  destruct (handle_BufioFlush _ _ _ _ Hst Hfl) as (w1 & E1 & Hst1 & (Hp1 & Hn1 & He1 & Hf1)).
  rewrite Hfl in Hf1.
  destruct (closeAndRename_world (set_closed true bw) w1 b written)
    as (w2 & t2 & E2 & Hp2 & Hn2 & He2 & Hf2); try by destruct bw.
  unfold Close. rewrite Hcl. cbv zeta.
  replace (buffer (set_closed true bw)) with (Some b) by (by destruct bw).
  bwsimpl. rewrite E1. bwsimpl. rewrite run_bind, E2. bwsimpl.
  eexists _, _, _. split; [reflexivity|]. split.
  - rewrite Hp2, Hp1. by destruct bw.
  - by destruct bw.
Qed.

Lemma shouldRotate_world bw w :
  configInRange bw ->
  run handle (shouldRotate bw) w
  = (rotationDue (rotateIntervalSec bw) (rotateSizeMB bw)
       (sat64 (UnixNano (now w) - UnixNano (startTime bw))) (writtenBytes bw),
     w, [Ev (TimeSince (startTime bw))
           (sat64 (UnixNano (now w) - UnixNano (startTime bw)))]).
Proof.
  intros Hcfg.
  destruct (shouldRotate_rule handle bw w Hcfg) as (elapsed & w' & Hs & ->).
  cbn [handle] in Hs. by inversion Hs.
Qed.

(** WriteBatch on a writer with an archive in progress, against a world
    without faults: it returns nil; when the rotation is due the archive
    is published with everything written to it and an empty one is begun. *)
Lemma WriteBatch_world bw w written lines :
  Active bw w written ->
  configInRange bw ->
  len written + batchBytes lines < 2 ^ 63 ->
  exists bw' w' tr,
    run handle (WriteBatch bw lines) w = (bw', None, w', tr)
    /\ sameConfig bw bw' /\ now w' = now w /\ emit w' = emit w
    /\ let all := written +:+ batchData lines in
       if rotationDue (rotateIntervalSec bw) (rotateSizeMB bw)
            (sat64 (UnixNano (now w) - UnixNano (startTime bw))) (len all)
       then published w' = published w ++ [(finalPathOf (currentPath bw), all)]
            /\ Active bw' w' "" /\ startTime bw' = now w
       else published w' = published w /\ Active bw' w' all
            /\ startTime bw' = startTime bw.
Proof.
  intros (Hcl & Hpath & Hfl & Hwb & b & Hb & Hg & Hf & Hst) Hcfg Hlt.
  pose proof (len_nonneg written) as Hnn.
  destruct (writeLines_world lines bw w b written Hb Hst Hfl)
    as (w1 & t1 & E1 & Hst1 & (Hp1 & Hn1 & He1 & Hf1)); [lia..|].
  rewrite Hfl in Hf1.
  set (bw1 := set_writtenBytes (writtenBytes bw + batchBytes lines) bw) in *.
  assert (Hact1 : Active bw1 w1 (written +:+ batchData lines)).
  { unfold Active, bw1. destruct bw; cbn in *. split_and!; try done.
    - by rewrite len_app, len_batchData, Hwb.
    - by exists b. }
  assert (Hcfg1 : configInRange bw1) by (unfold bw1; by destruct bw).
  unfold WriteBatch. rewrite Hcl, Hf. bwsimpl.
  rewrite run_bind, E1. bwsimpl.
  rewrite run_bind, (shouldRotate_world bw1 w1 Hcfg1). bwsimpl.
  replace (rotateIntervalSec bw1) with (rotateIntervalSec bw) by (by destruct bw).
  replace (rotateSizeMB bw1) with (rotateSizeMB bw) by (by destruct bw).
  replace (startTime bw1) with (startTime bw) by (by destruct bw).
  replace (writtenBytes bw1) with (len (written +:+ batchData lines))
    by (unfold bw1; rewrite writtenBytes_set, len_app, len_batchData; lia).
  rewrite Hn1. cbv zeta.
  destruct (rotationDue _ _ _ _).
  - destruct (flushAndRotate_world bw1 w1 _ Hact1)
      as (bw2 & w2 & t2 & E2 & Hp2 & Hn2 & He2 & Hact2 & Hcfg2 & Hs2).
    bwsimpl. rewrite run_bind, E2. bwsimpl.
    eexists _, _, _. split; [reflexivity|].
    split_and!; try congruence.
    + unfold bw1 in Hcfg2. by destruct bw.
    + rewrite Hp2, Hp1. unfold bw1. by destruct bw.
  - bwsimpl. eexists _, _, _. split; [reflexivity|].
    split_and!; try done; unfold bw1; by destruct bw.
Qed.

(** The first WriteBatch of a writer. *)
Lemma WriteBatch_world_first bw w lines :
  closed bw = false -> file bw = None -> faults w = [] ->
  configInRange bw ->
  batchBytes lines < 2 ^ 63 ->
  exists bw' w' tr,
    run handle (WriteBatch bw lines) w = (bw', None, w', tr)
    /\ sameConfig bw bw' /\ now w' = now w /\ emit w' = emit w
    /\ let all := batchData lines in
       if rotationDue (rotateIntervalSec bw) (rotateSizeMB bw) (sat64 0) (len all)
       then (exists path, published w' = published w ++ [(path, all)])
            /\ Active bw' w' "" /\ startTime bw' = now w
       else published w' = published w /\ Active bw' w' all
            /\ startTime bw' = now w.
Proof.
  intros Hcl Hf Hfl Hcfg Hlt.
  destruct (rotateFile_Active bw w Hcl Hfl)
    as (bw1 & w1 & t1 & E1 & Hact1 & Hcfg1 & Hs1 & (Hp1 & Hn1 & He1 & Hf1)).
  destruct Hcfg1 as (Hc1 & Hc2 & Hc3 & Hc4).
  destruct (WriteBatch_world bw1 w1 "" lines Hact1)
    as (bw2 & w2 & t2 & E2 & Hcfg2 & Hn2 & He2 & Hrule).
  { unfold configInRange. by rewrite Hc3, Hc4. }
  { change (len "") with 0. lia. }
  rewrite (WriteBatch_first handle bw w lines bw1 w1 t1 Hcl Hf E1), E2.
  eexists _, _, _. split; [reflexivity|].
  destruct Hcfg2 as (Hd1 & Hd2 & Hd3 & Hd4).
  split_and!; try congruence.
  { unfold sameConfig. split_and!; congruence. }
  cbv zeta in Hrule |- *. rewrite sapp_nil_l in Hrule.
  rewrite Hs1, Hn1, Z.sub_diag, Hc3, Hc4 in Hrule.
  destruct (rotationDue _ _ _ _).
  - destruct Hrule as (Hp & Ha & Hs). split_and!; try congruence.
    eexists. by rewrite Hp, Hp1.
  - destruct Hrule as (Hp & Ha & Hs). split_and!; congruence.
Qed.

(** ** A script of batches *)

Definition contents (archives : list (string * string)) : list string :=
  map snd archives.

Definition concatAll (l : list string) : string :=
  fold_right (fun a acc => a +:+ acc) "" l.

Lemma concatAll_app a b : concatAll (a ++ b) = concatAll a +:+ concatAll b.
Proof.
  induction a as [|x a IH]; cbn [concatAll fold_right app].
  - by rewrite sapp_nil_l.
  - fold (concatAll (a ++ b)) (concatAll a). by rewrite IH, sapp_assoc.
Qed.

Lemma publishedData_contents w : publishedData w = concatAll (contents (published w)).
Proof.
  unfold publishedData, concatAll, contents.
  induction (published w) as [|a l IH]; [done|]. cbn. by rewrite IH.
Qed.

Lemma scriptBytes_nonneg script : 0 <= scriptBytes script.
Proof.
  induction script as [|[t lines] rest IH]; [done|].
  cbn [scriptBytes fold_right]. fold (scriptBytes rest).
  pose proof (batchBytes_nonneg lines). cbn [snd]. lia.
Qed.

Lemma Active_set_now bw w written t :
  Active bw w written -> Active bw (set_now t w) written.
Proof. done. Qed.

(** The batches of a script, written in turn to a writer with an archive
    in progress: every WriteBatch returns nil, and the archives published
    are those of [archivesOf]. *)
Lemma writeAll_Active script : forall bw w written,
  Active bw w written ->
  configInRange bw ->
  len written + scriptBytes script < 2 ^ 63 ->
  exists bw' w' errs done last,
    writeAll script bw w = (bw', w', errs)
    /\ archivesOf (rotateIntervalSec bw) (rotateSizeMB bw) (startTime bw)
         written script = (done, last)
    /\ Forall (fun e => e = None) errs
    /\ contents (published w') = contents (published w) ++ done
    /\ Active bw' w' last.
Proof.
  induction script as [|[t lines] rest IH]; intros bw w written Hact Hcfg Hlt.
  - exists bw, w, [], [], written. cbn [writeAll archivesOf].
    split_and!; try done. by rewrite app_nil_r.
  - cbn [scriptBytes fold_right snd] in Hlt. fold (scriptBytes rest) in Hlt.
    pose proof (scriptBytes_nonneg rest) as Hr.
    pose proof (batchBytes_nonneg lines) as Hb.
    pose proof (len_nonneg written) as Hw.
    destruct (WriteBatch_world bw (set_now t w) written lines)
      as (bw1 & w1 & t1 & E1 & (Hc1 & Hc2 & Hc3 & Hc4) & Hn1 & He1 & Hrule);
      [by apply Active_set_now | done | lia |].
    cbn [writeAll archivesOf]. rewrite E1.
    cbv zeta in Hrule.
    change (now (set_now t w)) with t in Hrule.
    change (published (set_now t w)) with (published w) in Hrule.
    assert (Hcfg1 : configInRange bw1).
    { unfold configInRange. by rewrite Hc3, Hc4. }
    destruct (rotationDue _ _ _ _).
    + destruct Hrule as (Hp & Hact1 & Hs).
      destruct (IH bw1 w1 "" Hact1 Hcfg1)
        as (bw2 & w2 & errs & done & last & E2 & Ea & Herr & Hpub & Hact2).
      { change (len "") with 0. lia. }
      rewrite E2. rewrite Hc3, Hc4, Hs in Ea. rewrite Ea.
      eexists _, _, _, _, _. split_and!; try done.
      * by constructor.
      * rewrite Hpub, Hp. unfold contents. rewrite map_app. cbn [map snd].
        by rewrite <- app_assoc.
    + destruct Hrule as (Hp & Hact1 & Hs).
      destruct (IH bw1 w1 _ Hact1 Hcfg1)
        as (bw2 & w2 & errs & done & last & E2 & Ea & Herr & Hpub & Hact2).
      { rewrite len_app, len_batchData. lia. }
      rewrite E2. rewrite Hc3, Hc4, Hs in Ea. rewrite Ea.
      eexists _, _, _, _, _. split_and!; try done.
      * by constructor.
      * by rewrite Hpub, Hp.
Qed.

(** Close of a writer that never wrote: nothing to flush, close or rename. *)
Lemma Close_fresh dir prefix interval size w :
  run handle (Close (NewBatchWriter dir prefix interval size)) w
  = (set_closed true (NewBatchWriter dir prefix interval size), None, w, []).
Proof. reflexivity. Qed.

Lemma writeAllThenClose_archives bw w t0 lines0 rest tclose :
  closed bw = false -> file bw = None -> faults w = [] ->
  configInRange bw ->
  scriptBytes ((t0, lines0) :: rest) < 2 ^ 63 ->
  exists bw' w' errs done last,
    writeAllThenClose ((t0, lines0) :: rest) tclose bw w = (bw', w', errs)
    /\ archivesOf (rotateIntervalSec bw) (rotateSizeMB bw) t0 ""
         ((t0, lines0) :: rest) = (done, last)
    /\ Forall (fun e => e = None) errs
    /\ contents (published w') = contents (published w) ++ done ++ [last]
    /\ closed bw' = true.
Proof.
  intros Hcl Hf Hfl Hcfg Hlt.
  cbn [scriptBytes fold_right snd] in Hlt. fold (scriptBytes rest) in Hlt.
  pose proof (scriptBytes_nonneg rest) as Hr.
  pose proof (batchBytes_nonneg lines0) as Hb.
  destruct (WriteBatch_world_first bw (set_now t0 w) lines0 Hcl Hf Hfl Hcfg)
    as (bw1 & w1 & t1 & E1 & (Hc1 & Hc2 & Hc3 & Hc4) & Hn1 & He1 & Hrule); [lia|].
  cbv zeta in Hrule.
  change (now (set_now t0 w)) with t0 in Hrule.
  change (published (set_now t0 w)) with (published w) in Hrule.
  assert (Hcfg1 : configInRange bw1).
  { unfold configInRange. by rewrite Hc3, Hc4. }
  unfold writeAllThenClose. cbn [writeAll archivesOf]. rewrite E1.
  rewrite Z.sub_diag, sapp_nil_l.
  destruct (rotationDue _ _ _ _).
  - destruct Hrule as ((path & Hp) & Hact1 & Hs).
    destruct (writeAll_Active rest bw1 w1 "" Hact1 Hcfg1)
      as (bw2 & w2 & errs & done & last & E2 & Ea & Herr & Hpub & Hact2).
    { change (len "") with 0. lia. }
    rewrite E2. rewrite Hc3, Hc4, Hs in Ea. rewrite Ea.
    destruct (Close_world bw2 (set_now tclose w2) last Hact2)
      as (bw3 & w3 & t3 & E3 & Hp3 & Hcl3).
    rewrite E3. eexists _, _, _, _, _. split_and!; try done.
    + apply Forall_app. split; [by constructor | by repeat constructor].
    + unfold contents in *. rewrite Hp3, map_app.
      change (published (set_now tclose w2)) with (published w2).
      rewrite Hpub, Hp, map_app. cbn [map snd]. by rewrite <- !app_assoc.
  - destruct Hrule as (Hp & Hact1 & Hs).
    destruct (writeAll_Active rest bw1 w1 _ Hact1 Hcfg1)
      as (bw2 & w2 & errs & done & last & E2 & Ea & Herr & Hpub & Hact2).
    { rewrite len_batchData. lia. }
    rewrite E2. rewrite Hc3, Hc4, Hs in Ea. rewrite Ea.
    destruct (Close_world bw2 (set_now tclose w2) last Hact2)
      as (bw3 & w3 & t3 & E3 & Hp3 & Hcl3).
    rewrite E3. eexists _, _, _, _, _. split_and!; try done.
    + apply Forall_app. split; [by constructor | by repeat constructor].
    + unfold contents in *. rewrite Hp3, map_app.
      change (published (set_now tclose w2)) with (published w2).
      rewrite Hpub, Hp. cbn [map snd]. by rewrite <- !app_assoc.
Qed.

(** Nothing is lost and nothing comes twice: the archives of a script,
    one after the other, hold what was written. *)
Lemma archivesOf_concat interval size script : forall start held done last,
  archivesOf interval size start held script = (done, last) ->
  concatAll (done ++ [last]) = held +:+ scriptData script.
Proof.
  induction script as [|[t lines] rest IH]; intros start held done last H.
  - cbn in H. inversion H; subst. cbn. by rewrite !sapp_nil_r.
  - cbn [archivesOf] in H. cbn [scriptData fold_right snd].
    fold (scriptData rest).
    destruct (rotationDue _ _ _ _).
    + destruct (archivesOf interval size t "" rest) as [done' last'] eqn:E.
      inversion H; subst. apply IH in E.
      cbn [app concatAll fold_right]. fold (concatAll (done' ++ [last])).
      by rewrite E, sapp_nil_l, sapp_assoc.
    + apply IH in H. by rewrite H, sapp_assoc.
Qed.

Lemma sat64_lt z bound : - 2 ^ 63 < bound -> z < bound -> sat64 z < bound.
Proof. unfold sat64. lia. Qed.

Lemma archivesOf_sizeRotations interval size base script : forall start held,
  1 <= interval ->
  withinInterval interval base script ->
  base <= UnixNano start < base + interval * 10 ^ 9 ->
  length (archivesOf interval size start held script).1
  = sizeRotations (size * 2 ^ 20) (len held) script.
Proof.
  induction script as [|[t lines] rest IH]; intros start held Hi Hw Hs; [done|].
  apply Forall_cons in Hw as [Ht Hw]. cbn [fst] in Ht.
  cbn [archivesOf sizeRotations]. unfold rotationDue.
  assert (Hno : (interval * 10 ^ 9 <=? sat64 (UnixNano t - UnixNano start)) = false).
  { apply Z.leb_gt, sat64_lt; lia. }
  rewrite Hno, orb_false_l, len_app, len_batchData.
  destruct (size * 2 ^ 20 <=? len held + batchBytes lines).
  - specialize (IH t "" Hi Hw Ht).
    destruct (archivesOf interval size t "" rest) as [done last].
    cbn [fst length] in *. by rewrite IH.
  - rewrite IH by done. by rewrite len_app, len_batchData.
Qed.

Lemma sizeRotations_bound threshold script : forall counter,
  1 <= threshold -> 0 <= counter ->
  Z.of_nat (sizeRotations threshold counter script) * threshold
  <= counter + scriptBytes script.
Proof.
  induction script as [|[t lines] rest IH]; intros counter Ht Hc.
  - cbn. lia.
  - cbn [sizeRotations scriptBytes fold_right snd]. fold (scriptBytes rest).
    pose proof (batchBytes_nonneg lines) as Hb.
    destruct (Z.leb_spec threshold (counter + batchBytes lines)).
    + specialize (IH 0 Ht ltac:(lia)). lia.
    + specialize (IH (counter + batchBytes lines) Ht ltac:(lia)). lia.
Qed.

(** The completed archives of a script written to a new writer and
    closed. *)
Lemma script_archives dir prefix interval size script tclose w base :
  let bw := NewBatchWriter dir prefix interval size in
  let r := writeAllThenClose script tclose bw w in
  configInRange bw ->
  faults w = [] ->
  scriptBytes script < 2 ^ 63 ->
  withinInterval interval base script ->
  Forall (fun e => e = None) r.2
  /\ concatAll (contents (published r.1.2))
     = concatAll (contents (published w)) +:+ scriptData script
  /\ length (published r.1.2)
     = (length (published w)
        + match script with
          | [] => 0
          | _ :: _ => S (sizeRotations (size * 2 ^ 20) 0 script)
          end)%nat.
Proof.
  intros bw r Hcfg Hfl Hlt Hwin. subst r.
  destruct script as [|[t0 lines0] rest].
  - unfold writeAllThenClose. cbn [writeAll]. subst bw. rewrite Close_fresh.
    cbn [fst snd app scriptData fold_right].
    change (published (set_now tclose w)) with (published w).
    rewrite sapp_nil_r, Nat.add_0_r. split_and!; try done. by repeat constructor.
  - destruct (writeAllThenClose_archives bw w t0 lines0 rest tclose
                eq_refl eq_refl Hfl Hcfg Hlt)
      as (bw' & w' & errs & done & last & E & Ea & Herr & Hpub & Hcl).
    unfold TimedBatch in *. rewrite E. cbn [fst snd].
    pose proof (archivesOf_concat _ _ _ _ _ _ _ Ea) as Hcat.
    pose proof (archivesOf_sizeRotations interval size base
                  ((t0, lines0) :: rest) t0 "") as Hcount.
    change (rotateIntervalSec bw) with interval in Ea.
    change (rotateSizeMB bw) with size in Ea.
    rewrite Ea in Hcount. cbn [fst] in Hcount.
    split_and!; [done | |].
    + rewrite Hpub, concatAll_app, Hcat. by rewrite sapp_nil_l.
    + assert (Hlen : length (published w') = length (contents (published w')))
        by (unfold contents; by rewrite length_map).
      rewrite Hlen, Hpub, !length_app. cbn [length].
      unfold contents. rewrite length_map, Hcount.
      * change (len "") with 0. lia.
      * destruct Hcfg as (? & _). done.
      * done.
      * apply Forall_cons in Hwin as [Ht _]. exact Ht.
Qed.

(** C1. A script of batches written to a new writer and closed, no call
    failing and every batch arriving within the rotation interval: every
    call returns nil; the completed archives, one after the other in the
    order of their completion, hold every line written, each followed by
    a newline, in the order written; and their number is zero for the
    empty script and otherwise one more than the number of batches at
    whose end the raw byte counter had reached the threshold, which is at
    most the total of raw bytes divided by the threshold, plus one. *)
Theorem completed_archives_of_a_script
    dir prefix interval size script tclose w base :
  let bw := NewBatchWriter dir prefix interval size in
  let r := writeAllThenClose script tclose bw w in
  configInRange bw ->
  faults w = [] ->
  published w = [] ->
  scriptBytes script < 2 ^ 63 ->
  withinInterval interval base script ->
  Forall (fun e => e = None) r.2
  /\ publishedData r.1.2 = scriptData script
  /\ length (published r.1.2)
     = match script with
       | [] => 0%nat
       | _ :: _ => S (sizeRotations (size * 2 ^ 20) 0 script)
       end
  /\ Z.of_nat (length (published r.1.2))
     <= scriptBytes script / (size * 2 ^ 20) + 1.
Proof.
  intros bw r Hcfg Hfl Hpub Hlt Hwin.
  destruct (script_archives dir prefix interval size script tclose w base
              Hcfg Hfl Hlt Hwin) as (Herr & Hcat & Hlen).
  fold bw in Herr, Hcat, Hlen. fold r in Herr, Hcat, Hlen.
  rewrite Hpub in Hcat, Hlen. cbn [contents map concatAll fold_right length] in Hcat, Hlen.
  rewrite sapp_nil_l in Hcat. rewrite Nat.add_0_l in Hlen.
  split_and!; try done.
  - by rewrite publishedData_contents.
  - rewrite Hlen. destruct Hcfg as (_ & _ & Hs1 & _).
    change (rotateSizeMB bw) with size in Hs1.
    pose proof (scriptBytes_nonneg script) as Hnn.
    destruct script as [|b rest].
    + cbn. change (scriptBytes []) with 0. rewrite Z.div_0_l; lia.
    + pose proof (sizeRotations_bound (size * 2 ^ 20) (b :: rest) 0
                    ltac:(lia) ltac:(lia)) as Hb.
      rewrite Nat2Z.inj_succ.
      assert (Z.of_nat (sizeRotations (size * 2 ^ 20) 0 (b :: rest))
              <= scriptBytes (b :: rest) / (size * 2 ^ 20)); [|lia].
      apply Z.div_le_lower_bound; lia.
Qed.

Lemma length_zeros n : String.length (zeros n) = n.
Proof. induction n as [|n IH]; [done|]. cbn. by rewrite IH. Qed.

(** One line that fills the threshold exactly: the archive is rotated at
    the end of the batch, and Close completes the empty archive begun. *)
Lemma full_line_two_archives line now :
  len line + 1 = 2 ^ 20 ->
  let script := [(now, [mkDataLine line false])] in
  length (published
            (writeAllThenClose script now (NewBatchWriter "/data" "flows_" 600 1)
               (emptyWorld now holdAll)).1.2) = 2%nat
  /\ ceilDiv (scriptBytes script) (1 * 2 ^ 20) = 1.
Proof.
  intros Hlen script.
  assert (Hbytes : scriptBytes script = 2 ^ 20).
  { unfold script. cbn [scriptBytes batchBytes fold_right snd Line]. lia. }
  destruct (script_archives "/data" "flows_" 600 1 script now
              (emptyWorld now holdAll) (UnixNano now)) as (_ & _ & Hcount).
  - unfold configInRange. cbn. lia.
  - reflexivity.
  - rewrite Hbytes. lia.
  - repeat constructor; cbn [fst]; lia.
  - split.
    + rewrite Hcount. unfold script.
      cbn [sizeRotations batchBytes fold_right Line emptyWorld published length].
      replace (0 + (len line + 1 + 0)) with (2 ^ 20) by lia. reflexivity.
    + rewrite Hbytes. reflexivity.
Qed.

Import ValidatorSpec.

Lemma completed_archives_not_ceil :
  let bw := NewBatchWriter "/data" "flows_" 600 1 in
  let w := emptyWorld sampleNow holdAll in
  let threshold := 1 * 2 ^ 20 in
  (let script := [(sampleNow, [])] in
   length (published (writeAllThenClose script sampleNow bw w).1.2) = 1%nat
   /\ ceilDiv (scriptBytes script) threshold = 0)
  /\ (let script :=
        [(sampleNow, [mkDataLine (zeros (Z.to_nat (threshold - 1))) false])] in
      length (published (writeAllThenClose script sampleNow bw w).1.2) = 2%nat
      /\ ceilDiv (scriptBytes script) threshold = 1).
Proof.
  intros bw w threshold. split.
  - vm_compute. done.
  - apply full_line_two_archives. unfold len. rewrite length_zeros.
    rewrite Z2Nat.id by (unfold threshold; lia). unfold threshold. lia.
Qed.

Definition sampleScript : list TimedBatch :=
  [(sampleNow, sampleBatch); (sampleNow, []); (sampleNow, sampleBatch)].

Lemma completed_archives_of_a_script_witness :
  let r := writeAllThenClose sampleScript sampleNow
             (NewBatchWriter "/data" "flows_" 600 1)
             (emptyWorld sampleNow holdAll) in
  Forall (fun e => e = None) r.2
  /\ publishedData r.1.2 = scriptData sampleScript
  /\ length (published r.1.2) = 1%nat.
Proof.
  intros r.
  destruct (completed_archives_of_a_script "/data" "flows_" 600 1 sampleScript
              sampleNow (emptyWorld sampleNow holdAll) (UnixNano sampleNow))
    as (Herr & Hdata & Hcount & _).
  - unfold configInRange. cbn. lia.
  - reflexivity.
  - reflexivity.
  - vm_compute. reflexivity.
  - repeat constructor; cbn [fst]; lia.
  - split_and!; [exact Herr | exact Hdata |].
    fold r in Hcount. rewrite Hcount. vm_compute. reflexivity.
Defined.

(** ** Flush *)

(** C8. Flush of an open writer makes one call, Flush of the
    bufio.Writer, and returns its error and the writer as it was: path,
    index, creation time and counter stay. That call hands the buffered
    bytes to the gzip.Writer, which is neither flushed nor closed: where
    the gzip.Writer holds what it is given (as it does until its window
    is full), after a Flush that returns nil the bytes are in the
    gzip.Writer, in the process, and the file has not grown. *)
Theorem Flush_stops_at_the_gzip_writer bw b :
  closed bw = false ->
  buffer bw = Some b ->
  (forall W (h : Handler Op W) w,
     run h (Flush bw) w
     = let '(err, w') := h _ (BufioFlush b) w in
       (bw, err, w', [Ev (BufioFlush b) err]))
  /\ (forall w s,
        streams w !! b = Some s ->
        s_gz_open s = true ->
        s_buffered s <> "" ->
        faults w = [] ->
        emit w (s_held s +:+ s_buffered s) = 0%nat ->
        let r := run handle (Flush bw) w in
        r.1.1 = (bw, None)
        /\ disk r.1.2 = disk w
        /\ exists s', streams r.1.2 !! b = Some s'
                      /\ s_buffered s' = ""
                      /\ s_held s' = s_held s +:+ s_buffered s).
Proof.
  intros Hcl Hb. split.
  - intros W h w. unfold Flush. rewrite Hcl, Hb. bwsimpl.
    by destruct (h _ (BufioFlush b) w).
  - intros w s Hs Hg Hne Hfl Hemit r. subst r.
    unfold Flush. rewrite Hcl, Hb. wsimpl. rewrite Hs.
    apply String.eqb_neq in Hne. rewrite Hne.
    rewrite (nextFault_none _ Hfl), Hg. cbn [negb orb].
    unfold gzWrite.
    replace (s_held (set_buffered "" s)) with (s_held s) by (by destruct s).
    rewrite Hemit. cbn [stake sdrop fst snd].
    split_and!; [done | |].
    + cbn. unfold appendToFile.
      replace (s_path (set_buffered "" s)) with (s_path s) by (by destruct s).
      destruct (disk w !! s_path s) as [c|] eqn:Hd; [|done].
      rewrite sapp_nil_r. by apply insert_id.
    + eexists. cbn. split; [apply list_lookup_insert_eq; by eapply lookup_lt_Some|].
      by destruct s.
Qed.

Definition flushedWriter : BatchWriter * World :=
  let r := run handle
             (WriteBatch (NewBatchWriter "/data" "flows_" 600 1)
                [mkDataLine "a" false])
             (emptyWorld sampleNow holdAll) in
  (r.1.1.1, r.1.2).

Lemma Flush_stops_at_the_gzip_writer_witness :
  let bw := flushedWriter.1 in
  let w := flushedWriter.2 in
  let r := run handle (Flush bw) w in
  r.1.1 = (bw, None)
  /\ r.1.2.(disk) !! currentPath bw = Some ""
  /\ exists s', streams r.1.2 !! 0%nat = Some s'
                /\ s_buffered s' = "" /\ s_held s' = "a" +:+ newline.
Proof.
  intros bw w r.
  destruct (Flush_stops_at_the_gzip_writer bw 0%nat) as [_ Hw];
    [reflexivity | reflexivity |].
  destruct (Hw w (mkStream (currentPath bw) (4 * 1024 * 1024) ("a" +:+ newline) ""
                    true true))
    as (Hres & Hdisk & s' & Hs & Hb & Hh).
  - vm_compute. reflexivity.
  - reflexivity.
  - discriminate.
  - reflexivity.
  - reflexivity.
  - fold r in Hres, Hdisk, Hs. split_and!.
    + exact Hres.
    + rewrite Hdisk. vm_compute. reflexivity.
    + exists s'. split_and!; [exact Hs | exact Hb | exact Hh].
Defined.

End WriterWorldFacts.

(* ===================================================================== *)
(** * Names of archives, in progress and completed *)
(* ===================================================================== *)

Module ArchiveNames.
Import Go IO GoFacts IOFacts.

Section Handlers.

Context {W V : Type}.
Variable hw : Handler Batchwriter.Op W.
Variable hu : Handler Uploader.Op V.

(** C5. rotateFile creates the archive under the path made of the data
    directory and the name prefix, creation time as YYYYMMDD_HHMMSS, "_",
    the index in at least three digits, ".part"; a rotation and a Close
    that return nil rename that path to the same stem with ".csv.gz" in
    place of ".part". A scan takes up exactly the listed entries that are
    no directories and whose names end in ".csv.gz", and every local path
    it hands to os.Stat, os.Open or os.Remove is the path of such an
    entry: it ends in ".csv.gz", never in ".part". *)
Theorem part_files_are_renamed_and_never_scanned :
  (forall bw w bw' w' tr,
     run hw (Batchwriter.rotateFile bw) w = (bw', None, w', tr) ->
     exists now f stem,
       let name := Batchwriter.filePrefix bw +:+ FormatStamp now +:+ "_"
                   +:+ fmtZeroPad 3 (Batchwriter.fileIndex bw) in
       Batchwriter.createCalls tr
         = [(Join (Batchwriter.dataDir bw) (name +:+ ".part"), inl f)]
       /\ Batchwriter.startTime bw' = now
       /\ Batchwriter.currentPath bw'
          = Join (Batchwriter.dataDir bw) (name +:+ ".part")
       /\ Batchwriter.currentPath bw' = stem +:+ ".part"
       /\ Batchwriter.finalPathOf (Batchwriter.currentPath bw') = stem +:+ ".csv.gz"
       /\ Join (Batchwriter.dataDir bw) (name +:+ ".csv.gz") = stem +:+ ".csv.gz")
  /\ (forall bw w bw' w' tr,
        Batchwriter.currentPath bw <> "" ->
        run hw (Batchwriter.flushAndRotate bw) w = (bw', None, w', tr) ->
        Batchwriter.renameCalls tr
        = [(Batchwriter.currentPath bw,
            Batchwriter.finalPathOf (Batchwriter.currentPath bw), None)])
  /\ (forall bw w bw' w' tr,
        Batchwriter.closed bw = false ->
        Batchwriter.currentPath bw <> "" ->
        run hw (Batchwriter.Close bw) w = (bw', None, w', tr) ->
        Batchwriter.renameCalls tr
        = [(Batchwriter.currentPath bw,
            Batchwriter.finalPathOf (Batchwriter.currentPath bw), None)])
  /\ (forall entries name,
        name ∈ Uploader.filesToUpload entries
        <-> exists entry, entry ∈ entries /\ Uploader.Name entry = name
              /\ Uploader.IsDir entry = false /\ HasSuffix name ".csv.gz" = true)
  /\ (forall u v p,
        p ∈ Uploader.localPaths (run hu (Uploader.scanAndUpload u) v).2 ->
        HasSuffix p ".csv.gz" = true /\ HasSuffix p ".part" = false
        /\ exists entries entry,
             (Uploader.dataDir u, inl entries)
               ∈ Uploader.readDirCalls (run hu (Uploader.scanAndUpload u) v).2
             /\ entry ∈ entries /\ Uploader.IsDir entry = false
             /\ HasSuffix (Uploader.Name entry) ".csv.gz" = true
             /\ p = Join (Uploader.dataDir u) (Uploader.Name entry)).
Proof.
  split_and!.
  - intros bw w bw' w' tr H.
    apply BatchwriterFacts.rotateFile_success in H as (now & f & g & b & -> & ->).
    destruct (BatchwriterFacts.partPath_stem (Batchwriter.dataDir bw)
                (Batchwriter.filePrefix bw) now (Batchwriter.fileIndex bw))
      as (stem & Hpart & Hfinal & Hren).
    rewrite BatchwriterFacts.partName_stem in *.
    unfold BatchwriterFacts.partStem in *.
    exists now, f, stem. cbn zeta. cbn [Batchwriter.currentPath Batchwriter.startTime].
    rewrite <- !sapp_assoc in Hpart, Hfinal, Hren |- *.
    rewrite Hpart in Hren |- *.
    split_and!; done || apply BatchwriterFacts.finalPathOf_part.
  - intros bw w bw' w' tr Hp H.
    by apply (BatchwriterFacts.flushAndRotate_success hw) in H
      as (_ & _ & _ & _ & _ & _ & Hr & _).
  - intros bw w bw' w' tr Hc Hp H.
    by apply (BatchwriterFacts.Close_publishes hw) in H as (Hr & _).
  - apply UploaderFacts.filesToUpload_spec.
  - intros u v p Hp.
    destruct (UploaderFacts.scanAndUpload_localPaths hu u v p Hp)
      as (entries & entry & Hl & Hin & Hd & Hs & ->).
    split_and!.
    + by apply Join_csvgz.
    + by apply csvgz_not_part, Join_csvgz.
    + by exists entries, entry.
Qed.

End Handlers.

Lemma part_files_are_renamed_and_never_scanned_witness :
  let hw := BatchwriterFacts.constHandler in
  let hu := UploaderWorld.handle in
  let bw := BatchwriterFacts.sampleWriter in
  let renamed := [(Batchwriter.currentPath bw,
                   Batchwriter.finalPathOf (Batchwriter.currentPath bw), None)] in
  (exists stem, Batchwriter.currentPath bw = stem +:+ ".part"
                /\ Batchwriter.finalPathOf (Batchwriter.currentPath bw)
                   = stem +:+ ".csv.gz")
  /\ Batchwriter.renameCalls (run hw (Batchwriter.flushAndRotate bw) tt).2 = renamed
  /\ Batchwriter.renameCalls (run hw (Batchwriter.Close bw) tt).2 = renamed
  /\ UploaderFacts.archiveA
       ∈ Uploader.filesToUpload (map fst UploaderFacts.sampleEntries)
  /\ HasSuffix (Join "/data" UploaderFacts.archiveA) ".part" = false.
Proof.
  intros hw hu bw renamed.
  destruct (part_files_are_renamed_and_never_scanned hw hu)
    as (Hcreate & Hrotate & Hclose & Hselect & Hscan).
  split_and!.
  - set (r := run hw (Batchwriter.rotateFile
                        (Batchwriter.NewBatchWriter "/data" "flows_" 600 1)) tt).
    destruct (Hcreate (Batchwriter.NewBatchWriter "/data" "flows_" 600 1) tt
                bw r.1.2 r.2) as (now & f & stem & _ & _ & _ & Hp & Hf & _).
    + vm_compute. reflexivity.
    + by exists stem.
  - set (r := run hw (Batchwriter.flushAndRotate bw) tt).
    apply (Hrotate bw tt r.1.1.1 r.1.2 r.2).
    + vm_compute. discriminate.
    + vm_compute. reflexivity.
  - set (r := run hw (Batchwriter.Close bw) tt).
    apply (Hclose bw tt r.1.1.1 r.1.2 r.2).
    + vm_compute. reflexivity.
    + vm_compute. discriminate.
    + vm_compute. reflexivity.
  - apply Hselect.
    exists (Uploader.mkDirEntry UploaderFacts.archiveA false).
    split_and!; [vm_compute; constructor | reflexivity | reflexivity
                 | vm_compute; reflexivity].
  - apply (Hscan UploaderFacts.sampleUploader UploaderFacts.refusingWorld
             (Join "/data" UploaderFacts.archiveA)).
    vm_compute. constructor.
Defined.

End ArchiveNames.
